(** * Synthesis: a shallow embedding of the orchestrator core

    The development follows the Go packages of the repository:
    [strconv]/[gostrings] (the two standard-library helpers the drivers
    call), [api], [runtime], [containerd], [docker], [storage] and
    [server].  Go maps are [gmap]s, Go slices are lists, fixed-width
    integers are [Z] with the wrap-around written out, and an [error]
    is the message string the code builds. *)

From Stdlib Require Import ZArith Ascii String List Lia.
From stdpp Require Import base option list gmap strings pretty sorting.

Open Scope string_scope.
Open Scope Z_scope.

(** ** Results and fixed-width integers *)

(** A Go pair [(value, error)]: exactly one side is meaningful. *)
Inductive result (A : Type) : Type :=
| Ok (a : A)
| Err (e : string).
Arguments Ok {A} a.
Arguments Err {A} e.

Definition is_ok {A} (r : result A) : bool :=
  match r with Ok _ => true | Err _ => false end.

Definition int64_min : Z := - 2 ^ 63.
Definition int64_max : Z := 2 ^ 63 - 1.
Definition int32_min : Z := - 2 ^ 31.
Definition int32_max : Z := 2 ^ 31 - 1.

(** Two's-complement reduction of an integer to [w] bits. *)
Definition wrap (w : Z) (x : Z) : Z :=
  (x + 2 ^ (w - 1)) mod 2 ^ w - 2 ^ (w - 1).

Definition wrap64 : Z -> Z := wrap 64.
Definition wrap32 : Z -> Z := wrap 32.

Definition in_int64 (x : Z) : Prop := int64_min <= x <= int64_max.
Definition in_int32 (x : Z) : Prop := int32_min <= x <= int32_max.

(** ** The [strings] helpers of the Go standard library used by the code *)
Module gostrings.

(** [s[i:]] for [i <= len(s)]. *)
Fixpoint drop (i : nat) (s : string) : string :=
  match i, s with
  | O, _ => s
  | S i', String _ s' => drop i' s'
  | S _, EmptyString => EmptyString
  end.

(** [s[:i]] for [i <= len(s)]. *)
Fixpoint take (i : nat) (s : string) : string :=
  match i, s with
  | O, _ => EmptyString
  | S i', String c s' => String c (take i' s')
  | S _, EmptyString => EmptyString
  end.

(** [strings.HasSuffix]:
    [len(s) >= len(suffix) && s[len(s)-len(suffix):] == suffix]. *)
Definition HasSuffix (s suffix : string) : bool :=
  (String.length suffix <=? String.length s)%nat
  && String.eqb (drop (String.length s - String.length suffix) s) suffix.

(** [strings.HasPrefix]. *)
Definition HasPrefix (s pre : string) : bool :=
  (String.length pre <=? String.length s)%nat
  && String.eqb (take (String.length pre) s) pre.

(** [strings.Contains]: some suffix of [s] starts with [sub]. *)
Fixpoint Contains (s sub : string) : bool :=
  HasPrefix s sub
  || match s with
     | EmptyString => false
     | String _ s' => Contains s' sub
     end.

End gostrings.

(** ** [strconv.ParseInt(s, 10, 64)] *)
Module strconv.

Inductive NumError := ErrSyntax | ErrRange.

Definition digit (c : ascii) : option Z :=
  let n := Z.of_nat (nat_of_ascii c) in
  if (48 <=? n) && (n <=? 57) then Some (n - 48) else None.

Definition maxUint64 : Z := 2 ^ 64 - 1.

(** The digit loop of [ParseUint] for base 10 and 64 bits, entered
    with the value [n] read so far.  A byte that is no digit is a
    syntax error; a value that leaves 64 bits is a range error with the
    value saturated, found at the digit that overflows, before the
    bytes after it are looked at. *)
Fixpoint digits (n : Z) (s : string) : Z * option NumError :=
  match s with
  | EmptyString => (n, None)
  | String c s' =>
      match digit c with
      | None => (0, Some ErrSyntax)
      | Some d =>
          if maxUint64 / 10 + 1 <=? n then (maxUint64, Some ErrRange)
          else
            let n1 := n * 10 + d in
            if maxUint64 <? n1 then (maxUint64, Some ErrRange)
            else digits n1 s'
      end
  end.

(** [ParseUint(s, 10, 64)]: the value and the error, if any. *)
Definition ParseUint (s : string) : Z * option NumError :=
  match s with
  | EmptyString => (0, Some ErrSyntax)
  | _ => digits 0 s
  end.

(** [ParseInt(s, 10, 64)]: an optional sign, then [ParseUint], then the
    signed range test against the cutoff [2^63]. *)
Definition ParseInt (s : string) : Z * option NumError :=
  match s with
  | EmptyString => (0, Some ErrSyntax)
  | String c rest =>
      let neg := Ascii.eqb c "-" in
      let s1 := if Ascii.eqb c "+" then rest else if neg then rest else s in
      let '(un, err) := ParseUint s1 in
      match err with
      | Some ErrSyntax => (0, Some ErrSyntax)
      | _ =>
          let cutoff := 2 ^ 63 in
          if negb neg && (cutoff <=? un) then (cutoff - 1, Some ErrRange)
          else if neg && (cutoff <? un) then (- cutoff, Some ErrRange)
          else (if neg then - un else un, None)
      end
  end.

End strconv.

(** ** Package [api]: the resources, as far as the core reads them *)
Module api.

(** [metav1.TypeMeta]. *)
Record TypeMeta := { APIVersion : string; Kind : string }.

(** [metav1.ObjectMeta]; a zero [metav1.Time] is [None]. *)
Record ObjectMeta := {
  Name : string;
  CreationTimestamp : option Z;
  Labels : gmap string string
}.

(** Every resource is type meta, object meta, spec and status. *)
Record Object (SpecT StatusT : Type) := {
  Type_ : TypeMeta;
  Meta : ObjectMeta;
  Spec : SpecT;
  Status : StatusT
}.
Arguments Type_ {SpecT StatusT} o.
Arguments Meta {SpecT StatusT} o.
Arguments Spec {SpecT StatusT} o.
Arguments Status {SpecT StatusT} o.
Arguments Build_Object {SpecT StatusT} _ _ _ _.

Record Container := {
  Container_Name : string;
  Image : string;
  Env : list (string * string)
}.

Record PodSpec := { Containers : list Container }.
Record PodStatus := { Phase : string }.
Abbreviation Pod := (Object PodSpec PodStatus).

Record PodTemplateSpec := {
  Template_Meta : ObjectMeta;
  Template_Spec : PodSpec
}.

(** [Replicas] is an [*int32]: [None] is the nil pointer. *)
Record DeploymentSpec := {
  Replicas : option Z;
  Selector : gmap string string;
  Template : PodTemplateSpec
}.
Record DeploymentStatus := { ReadyReplicas : Z }.
Abbreviation Deployment := (Object DeploymentSpec DeploymentStatus).

Record StatefulSetSpec := {
  SS_Replicas : option Z;
  SS_Selector : gmap string string;
  SS_Template : PodTemplateSpec;
  ServiceName : string
}.
Record StatefulSetStatus := { SS_ReadyReplicas : Z }.
Abbreviation StatefulSet := (Object StatefulSetSpec StatefulSetStatus).

Definition ServiceTypeClusterIP : string := "ClusterIP".
Definition ServiceTypeNodePort : string := "NodePort".
Definition ServiceTypeLoadBalancer : string := "LoadBalancer".
Definition ServiceTypeExternalName : string := "ExternalName".

Record ServicePort := { Port : Z; Protocol : string }.
Record ServiceSpec := {
  Svc_Selector : gmap string string;
  Svc_Type : string;
  Ports : list ServicePort
}.
Record LoadBalancerIngress := { IP : string; Hostname : string }.
(** [ServiceStatus.LoadBalancer.Ingress]. *)
Record ServiceStatus := { Ingress : list LoadBalancerIngress }.
Abbreviation Service := (Object ServiceSpec ServiceStatus).

Definition ResourceCPU : string := "cpu".
Definition ResourceMemory : string := "memory".
Definition NodeReady : string := "Ready".
Definition ConditionTrue : string := "True".
Definition ConditionFalse : string := "False".

Record NodeCondition := {
  Cond_Type : string;
  Cond_Status : string;
  LastHeartbeatTime : Z;
  LastTransitionTime : Z;
  Reason : string;
  Message : string
}.
Record NodeSystemInfo := {
  MachineID : string;
  SystemUUID : string;
  BootID : string;
  Node_KernelVersion : string;
  OSImage : string;
  ContainerRuntimeVersion : string;
  Node_Architecture : string;
  Node_OperatingSystem : string
}.
(** A [resource.Quantity] obtained by [MustParse] of a [%d]-printed
    integer is that integer. *)
Record NodeStatus := {
  Capacity : gmap string Z;
  Allocatable : gmap string Z;
  Conditions : list NodeCondition;
  NodeInfo : NodeSystemInfo
}.
Record NodeSpec := { Unschedulable : bool }.
Abbreviation Node := (Object NodeSpec NodeStatus).

(** Field updates ([o.APIVersion = v] and the like). *)
Definition with_APIVersion {A B} (v : string) (o : Object A B) : Object A B :=
  Build_Object {| APIVersion := v; Kind := Kind (Type_ o) |} (Meta o) (Spec o) (Status o).
Definition with_Kind {A B} (v : string) (o : Object A B) : Object A B :=
  Build_Object {| APIVersion := APIVersion (Type_ o); Kind := v |} (Meta o) (Spec o) (Status o).
Definition with_CreationTimestamp {A B} (t : option Z) (o : Object A B) : Object A B :=
  Build_Object (Type_ o)
    {| Name := Name (Meta o); CreationTimestamp := t; Labels := Labels (Meta o) |}
    (Spec o) (Status o).
Definition with_Name {A B} (n : string) (o : Object A B) : Object A B :=
  Build_Object (Type_ o)
    {| Name := n; CreationTimestamp := CreationTimestamp (Meta o); Labels := Labels (Meta o) |}
    (Spec o) (Status o).
Definition with_Spec {A B} (sp : A) (o : Object A B) : Object A B :=
  Build_Object (Type_ o) (Meta o) sp (Status o).
Definition with_Status {A B} (st : B) (o : Object A B) : Object A B :=
  Build_Object (Type_ o) (Meta o) (Spec o) st.

Definition with_Replicas (r : option Z) (sp : DeploymentSpec) : DeploymentSpec :=
  {| Replicas := r; Selector := Selector sp; Template := Template sp |}.
Definition with_SS_Replicas (r : option Z) (sp : StatefulSetSpec) : StatefulSetSpec :=
  {| SS_Replicas := r; SS_Selector := SS_Selector sp; SS_Template := SS_Template sp;
     ServiceName := ServiceName sp |}.

(** The object's name ([o.Name], promoted from the embedded meta). *)
Definition name_of {A B} (o : Object A B) : string := Name (Meta o).

End api.

(** ** Package [runtime]: the port the core consumes *)
Module runtime.

(** A Go [error] value: [None] is [nil]. *)
Definition error := option string.

Definition ContainerStatusCreated : string := "created".
Definition ContainerStatusRunning : string := "running".
Definition ContainerStatusPaused : string := "paused".
Definition ContainerStatusExited : string := "exited".

(** [ContainerInfo], with the fields the core and the drivers' filters
    read. *)
Record ContainerInfo := {
  ID : string;
  CI_Name : string;
  CI_Image : string;
  CI_Status : string;
  CI_Labels : gmap string string
}.

Record ContainerFilter := {
  Filter_Labels : gmap string string;
  Filter_Names : list string;
  Filter_Status : list string
}.

(** A filter on labels only, [ContainerFilter{Labels: m}]. *)
Definition label_filter (m : gmap string string) : ContainerFilter :=
  {| Filter_Labels := m; Filter_Names := []; Filter_Status := [] |}.

Record SystemInfo := {
  ContainerRuntime_ : string;
  RuntimeVersion : string;
  KernelVersion : string;
  OperatingSystem : string;
  Architecture : string;
  NCPU : Z;
  MemTotal : Z
}.

Record RuntimeConfig := {
  SocketPath : string;
  Timeout : Z;
  DefaultNetwork : string;
  DefaultLabels : gmap string string
}.

(** The methods of the [ContainerRuntime] interface that package
    [server] calls.  A runtime is a state [R]; every call may change
    it. *)
Class ContainerRuntime (R : Type) := {
  CreateContainer : api.Container -> string -> R -> result ContainerInfo * R;
  StartContainer : string -> R -> error * R;
  StopContainer : string -> Z -> R -> error * R;
  RemoveContainer : string -> R -> error * R;
  ListContainers : ContainerFilter -> R -> result (list ContainerInfo) * R;
  PullImage : string -> R -> error * R;
  GetSystemInfo : R -> result SystemInfo * R;
  HealthCheck : R -> error * R
}.

(** [m[key]] on a [map[string]string]: a missing key reads as the
    empty string. *)
Definition index (m : gmap string string) (key : string) : string :=
  default "" (m !! key).

(** *** A runtime that records the calls made to it

    To state in which order the core calls the runtime, any runtime is
    wrapped into one that appends each call to a log before passing it
    on. *)
Inductive Call :=
| CallCreate (spec : api.Container) (podName : string)
| CallStart (containerID : string)
| CallStop (containerID : string) (timeout : Z)
| CallRemove (containerID : string)
| CallList (filters : ContainerFilter)
| CallPull (image : string)
| CallSystemInfo
| CallHealth.

Record Recorded (R : Type) := { inner : R; calls : list Call }.
Arguments inner {R} r.
Arguments calls {R} r.
Arguments Build_Recorded {R} _ _.

Definition record {R A} (call : Call) (op : R -> A * R) (r : Recorded R) : A * Recorded R :=
  let '(a, r') := op (inner r) in
  (a, Build_Recorded r' (calls r ++ [call])).

#[global] Instance recorded_runtime {R} `{!ContainerRuntime R} : ContainerRuntime (Recorded R) := {|
  CreateContainer spec podName := record (CallCreate spec podName) (CreateContainer spec podName);
  StartContainer id := record (CallStart id) (StartContainer id);
  StopContainer id timeout := record (CallStop id timeout) (StopContainer id timeout);
  RemoveContainer id := record (CallRemove id) (RemoveContainer id);
  ListContainers filters := record (CallList filters) (ListContainers filters);
  PullImage image := record (CallPull image) (PullImage image);
  GetSystemInfo := record CallSystemInfo GetSystemInfo;
  HealthCheck := record CallHealth HealthCheck
|}.

End runtime.

(** ** Package [containerd]: the driver the server is started with *)
Module containerd.
Import runtime.

(** *** The daemon behind the client

    The containerd client library is not part of the repository.  The
    driver is embedded over a small table model of it: the images
    present, the images a pull can fetch, and the containers in the
    order [Containers] returns them, each with its labels and the
    status of its task, if it has one.  The OCI options the driver
    builds (host name, environment, limits) are not read back by
    anything and are left out of the table. *)
Inductive ProcessStatus := Created | Running | Stopped | Paused | Unknown.

Record container := {
  c_id : string;
  c_image : string;
  c_labels : gmap string string;
  c_task : option ProcessStatus
}.

Record Client := {
  serving : bool;
  version : string;
  images : gset string;
  registry : gset string;
  table : list container
}.

Definition with_images (i : gset string) (c : Client) : Client :=
  {| serving := serving c; version := version c; images := i;
     registry := registry c; table := table c |}.
Definition with_table (t : list container) (c : Client) : Client :=
  {| serving := serving c; version := version c; images := images c;
     registry := registry c; table := t |}.
Definition with_task (t : option ProcessStatus) (k : container) : container :=
  {| c_id := c_id k; c_image := c_image k; c_labels := c_labels k; c_task := t |}.

Definition unavailable : string := "connection error".

(** [client.GetImage]. *)
Definition GetImage (ref : string) (c : Client) : bool :=
  serving c && bool_decide (ref ∈ images c).

(** [client.Pull]. *)
Definition Pull (ref : string) (c : Client) : error * Client :=
  if negb (serving c) then (Some unavailable, c)
  else if bool_decide (ref ∈ registry c) then (None, with_images ({[ref]} ∪ images c) c)
  else (Some "not found", c).

(** [client.LoadContainer]. *)
Definition LoadContainer (id : string) (c : Client) : option container :=
  if serving c then List.find (fun k => String.eqb (c_id k) id) (table c) else None.

(** Replace the entry of [id] by [f] of it. *)
Definition update (id : string) (f : container -> container) (c : Client) : Client :=
  with_table (List.map (fun k => if String.eqb (c_id k) id then f k else k) (table c)) c.

(** [client.NewContainer]: ids are unique. *)
Definition NewContainer (id image : string) (labels : gmap string string) (c : Client)
  : error * Client :=
  if negb (serving c) then (Some unavailable, c)
  else if List.existsb (fun k => String.eqb (c_id k) id) (table c) then (Some "already exists", c)
  else (None, with_table (table c ++ [{| c_id := id; c_image := image;
                                          c_labels := labels; c_task := None |}]) c).

(** *** The driver *)

(** [ContainerdRuntime.PullImage]. *)
Definition PullImage (image : string) (c : Client) : error * Client :=
  match Pull image c with
  | (Some e, c) => (Some ("failed to pull image: " +:+ e), c)
  | (None, c) => (None, c)
  end.

Definition convertProcessStatus (status : ProcessStatus) : string :=
  match status with
  | Created => ContainerStatusCreated
  | Running => ContainerStatusRunning
  | Stopped => ContainerStatusExited
  | Paused => ContainerStatusPaused
  | Unknown => ContainerStatusExited
  end.

(** [ContainerdRuntime.InspectContainer]. *)
Definition InspectContainer (containerID : string) (c : Client) : result ContainerInfo :=
  match LoadContainer containerID c with
  | None => Err "failed to load container: not found"
  | Some k =>
      let status :=
        match c_task k with
        | Some taskStatus => convertProcessStatus taskStatus
        | None => ContainerStatusCreated
        end in
      Ok {| ID := c_id k; CI_Name := c_id k; CI_Image := c_image k;
            CI_Status := status; CI_Labels := c_labels k |}
  end.

(** The labels [CreateContainer] passes to [WithContainerLabels]. *)
Definition container_labels (spec : api.Container) (podName : string) : gmap string string :=
  {[ "synthesis.pod" := podName;
     "synthesis.container" := api.Container_Name spec;
     "managed-by" := "synthesis" ]}.

(** [ContainerdRuntime.CreateContainer]. *)
Definition CreateContainer (spec : api.Container) (podName : string) (c : Client)
  : result ContainerInfo * Client :=
  let '(err, c) :=
    if GetImage (api.Image spec) c then (None, c)
    else
      match PullImage (api.Image spec) c with
      | (Some e, c) => (Some ("failed to pull image " +:+ api.Image spec +:+ ": " +:+ e), c)
      | (None, c) =>
          if GetImage (api.Image spec) c then (None, c)
          else (Some "failed to get image after pull: not found", c)
      end in
  match err with
  | Some e => (Err e, c)
  | None =>
      let containerName := podName +:+ "-" +:+ api.Container_Name spec in
      match NewContainer containerName (api.Image spec) (container_labels spec podName) c with
      | (Some e, c) => (Err ("failed to create container: " +:+ e), c)
      | (None, c) =>
          match InspectContainer containerName c with
          | Err e => (Err ("failed to inspect created container: " +:+ e), c)
          | Ok info => (Ok info, c)
          end
      end
  end.

(** [ContainerdRuntime.StartContainer]: a new task, then started. *)
Definition StartContainer (containerID : string) (c : Client) : error * Client :=
  match LoadContainer containerID c with
  | None => (Some "failed to load container: not found", c)
  | Some k =>
      match c_task k with
      | Some _ => (Some "failed to create task: already exists", c)
      | None => (None, update containerID (with_task (Some Running)) c)
      end
  end.

(** [ContainerdRuntime.StopContainer]: SIGTERM, then wait for the exit
    or the timeout, then SIGKILL; the task is stopped either way. *)
Definition StopContainer (containerID : string) (timeout : Z) (c : Client) : error * Client :=
  match LoadContainer containerID c with
  | None => (Some "failed to load container: not found", c)
  | Some k =>
      match c_task k with
      | None => (Some "failed to get task: not found", c)
      | Some _ => (None, update containerID (with_task (Some Stopped)) c)
      end
  end.

(** [ContainerdRuntime.RemoveContainer]: the task is deleted if there
    is one, then the container. *)
Definition RemoveContainer (containerID : string) (c : Client) : error * Client :=
  match LoadContainer containerID c with
  | None => (Some "failed to load container: not found", c)
  | Some k =>
      match c_task k with
      | Some Running | Some Paused =>
          (Some "failed to delete task: task must be stopped before deletion", c)
      | _ =>
          (None, with_table (List.filter (fun k' => negb (String.eqb (c_id k') containerID))
                                        (table c)) c)
      end
  end.

(** [ContainerdRuntime.matchesFilters]. *)
Definition matchesFilters (info : ContainerInfo) (filters : ContainerFilter) : bool :=
  forallb (fun '(key, value) => String.eqb (index (CI_Labels info) key) value)
          (map_to_list (Filter_Labels filters))
  && (match Filter_Names filters with
      | [] => true
      | names => existsb (fun name => gostrings.Contains (CI_Name info) name) names
      end)
  && (match Filter_Status filters with
      | [] => true
      | statuses => existsb (fun status => String.eqb (CI_Status info) status) statuses
      end).

(** [ContainerdRuntime.ListContainers]. *)
Definition ListContainers (filters : ContainerFilter) (c : Client)
  : result (list ContainerInfo) * Client :=
  if negb (serving c) then (Err ("failed to list containers: " +:+ unavailable), c)
  else
    (Ok (omap (fun k =>
                 match InspectContainer (c_id k) c with
                 | Err _ => None
                 | Ok info => if matchesFilters info filters then Some info else None
                 end) (table c)), c).

(** [ContainerdRuntime.GetSystemInfo]. *)
Definition GetSystemInfo (c : Client) : result SystemInfo * Client :=
  if negb (serving c) then (Err ("failed to get version: " +:+ unavailable), c)
  else (Ok {| ContainerRuntime_ := "containerd"; RuntimeVersion := version c;
              KernelVersion := ""; OperatingSystem := ""; Architecture := "amd64";
              NCPU := 4; MemTotal := Z.shiftl 8 30 |}, c).

(** [ContainerdRuntime.HealthCheck]. *)
Definition HealthCheck (c : Client) : error * Client :=
  if serving c then (None, c) else (Some unavailable, c).

(** [ContainerdRuntime.parseMemoryLimit] (the docker driver has the
    same text); the product is an [int64] product. *)
Definition parseMemoryLimit (memLimit : string) : result Z :=
  let '(multiplier, memLimit) :=
    if gostrings.HasSuffix memLimit "Ki" then
      (1024, gostrings.take (String.length memLimit - 2) memLimit)
    else if gostrings.HasSuffix memLimit "Mi" then
      (1024 * 1024, gostrings.take (String.length memLimit - 2) memLimit)
    else if gostrings.HasSuffix memLimit "Gi" then
      (1024 * 1024 * 1024, gostrings.take (String.length memLimit - 2) memLimit)
    else (1, memLimit) in
  match strconv.ParseInt memLimit with
  | (mem, None) => Ok (wrap64 (mem * multiplier))
  | (_, Some strconv.ErrSyntax) => Err "strconv.ParseInt: invalid syntax"
  | (_, Some strconv.ErrRange) => Err "strconv.ParseInt: value out of range"
  end.

(** [ContainerdRuntime.parseCPULimit].  The millicore branch is
    integer arithmetic; [strconv.ParseFloat] and the conversion
    [int64(cpu * 1000)] of the other branch are floating point and are
    taken as given. *)
Section cpu.
Context {F : Type} (ParseFloat : string -> result F) (scaled : F -> Z -> Z).

Definition parseCPULimit (cpuLimit : string) : result Z :=
  if gostrings.HasSuffix cpuLimit "m" then
    match strconv.ParseInt (gostrings.take (String.length cpuLimit - 1) cpuLimit) with
    | (milliCPU, None) => Ok milliCPU
    | (_, Some strconv.ErrSyntax) => Err "strconv.ParseInt: invalid syntax"
    | (_, Some strconv.ErrRange) => Err "strconv.ParseInt: value out of range"
    end
  else
    match ParseFloat cpuLimit with
    | Err e => Err e
    | Ok cpu => Ok (scaled cpu 1000)
    end.
End cpu.

#[global] Instance containerd_runtime : ContainerRuntime Client := {|
  runtime.CreateContainer := CreateContainer;
  runtime.StartContainer := StartContainer;
  runtime.StopContainer := StopContainer;
  runtime.RemoveContainer := RemoveContainer;
  runtime.ListContainers := ListContainers;
  runtime.PullImage := PullImage;
  runtime.GetSystemInfo := GetSystemInfo;
  runtime.HealthCheck := HealthCheck
|}.

End containerd.

(** ** Package [docker]: the parts of the second driver the core's
    contract rests on *)
Module docker.
Import runtime.

(** The [Labels] of the [container.Config] that [CreateContainer]
    builds: the two pod labels, then every default label on top. *)
Definition container_labels (config : RuntimeConfig) (spec : api.Container) (podName : string)
  : gmap string string :=
  DefaultLabels config
  ∪ {[ "synthesis.pod" := podName; "synthesis.container" := api.Container_Name spec ]}.

(** [DockerRuntime.parseMemoryLimit]; the product is an [int64]
    product. *)
Definition parseMemoryLimit (memLimit : string) : result Z :=
  let '(multiplier, memLimit) :=
    if gostrings.HasSuffix memLimit "Ki" then
      (1024, gostrings.take (String.length memLimit - 2) memLimit)
    else if gostrings.HasSuffix memLimit "Mi" then
      (1024 * 1024, gostrings.take (String.length memLimit - 2) memLimit)
    else if gostrings.HasSuffix memLimit "Gi" then
      (1024 * 1024 * 1024, gostrings.take (String.length memLimit - 2) memLimit)
    else (1, memLimit) in
  match strconv.ParseInt memLimit with
  | (mem, None) => Ok (wrap64 (mem * multiplier))
  | (_, Some strconv.ErrSyntax) => Err "strconv.ParseInt: invalid syntax"
  | (_, Some strconv.ErrRange) => Err "strconv.ParseInt: value out of range"
  end.

(** [DockerRuntime.parseCPULimit]: nano-CPUs; the product of the
    millicore branch is an [int64] product, the other branch is
    floating point and taken as given. *)
Section cpu.
Context {F : Type} (ParseFloat : string -> result F) (scaled : F -> Z -> Z).

Definition parseCPULimit (cpuLimit : string) : result Z :=
  if gostrings.HasSuffix cpuLimit "m" then
    match strconv.ParseInt (gostrings.take (String.length cpuLimit - 1) cpuLimit) with
    | (milliCPU, None) => Ok (wrap64 (milliCPU * 1000000))
    | (_, Some strconv.ErrSyntax) => Err "strconv.ParseInt: invalid syntax"
    | (_, Some strconv.ErrRange) => Err "strconv.ParseInt: value out of range"
    end
  else
    match ParseFloat cpuLimit with
    | Err e => Err e
    | Ok cpu => Ok (scaled cpu 1000000000)
    end.
End cpu.

End docker.

(** ** The JSON codec

    [encoding/json] (and the YAML front end) is outside the repository;
    the code is embedded over any codec of a resource type. *)
Class Codec (T : Type) := {
  Marshal : T -> result string;
  Unmarshal : string -> result T;
  UnmarshalYAML : string -> result T
}.

(** ** Package [storage]: one file per resource under the data directory *)
Module storage.
Import runtime.

(** *** The file system under the data directory

    A directory entry is a regular file, whose bytes may be unreadable,
    or a subdirectory.  Each kind's directory may be missing,
    unreadable or read-only; [root] is [None] while the data directory
    itself does not exist. *)
Inductive FileNode :=
| RegularFile (data : option string)
| SubDirectory.

Record DirState := {
  readable : bool;
  writable : bool;
  children : gmap string FileNode
}.

Record FileSystem := {
  can_mkdir : bool;
  root : option (gmap string DirState)
}.

Definition empty_dir : DirState :=
  {| readable := true; writable := true; children := ∅ |}.

Definition lookup_dir (fs : FileSystem) (category : string) : option DirState :=
  root fs ≫= (fun ds => ds !! category).

Definition with_dir (category : string) (d : DirState) (fs : FileSystem) : FileSystem :=
  {| can_mkdir := can_mkdir fs;
     root := Some (<[category := d]> (default ∅ (root fs))) |}.

Definition with_children (ch : gmap string FileNode) (d : DirState) : DirState :=
  {| readable := readable d; writable := writable d; children := ch |}.

(** How a file operation fails: the path does not exist (ENOENT), or
    anything else (permissions, a directory in the way). *)
Inductive PathError := NotExist | OtherError.

(** [os.MkdirAll(dataDir)]. *)
Definition MkdirAll_root (fs : FileSystem) : error * FileSystem :=
  match root fs with
  | Some _ => (None, fs)
  | None =>
      if can_mkdir fs then (None, {| can_mkdir := true; root := Some ∅ |})
      else (Some "mkdir: permission denied", fs)
  end.

(** [os.MkdirAll(filepath.Join(dataDir, subdir))], the data directory
    being there. *)
Definition MkdirAll (subdir : string) (fs : FileSystem) : error * FileSystem :=
  match lookup_dir fs subdir with
  | Some _ => (None, fs)
  | None =>
      if can_mkdir fs then (None, with_dir subdir empty_dir fs)
      else (Some "mkdir: permission denied", fs)
  end.

(** [ioutil.ReadDir]: the entries, sorted by file name, each with its
    [IsDir]. *)
Definition ReadDir (fs : FileSystem) (category : string) : result (list (string * bool)) :=
  match lookup_dir fs category with
  | None => Err "no such file or directory"
  | Some d =>
      if readable d then
        Ok ((fun name => (name, match children d !! name with
                                | Some SubDirectory => true
                                | _ => false
                                end))
              <$> merge_sort String.le (map_to_list (children d)).*1)
      else Err "permission denied"
  end.

(** [ioutil.ReadFile] of [<category>/<file>]. *)
Definition ReadFile (fs : FileSystem) (category file : string) : string + PathError :=
  match lookup_dir fs category with
  | None => inr NotExist
  | Some d =>
      match children d !! file with
      | None => inr NotExist
      | Some (RegularFile (Some data)) => inl data
      | Some (RegularFile None) => inr OtherError
      | Some SubDirectory => inr OtherError
      end
  end.

(** [ioutil.WriteFile] of [<category>/<file>]. *)
Definition WriteFile (category file data : string) (fs : FileSystem) : error * FileSystem :=
  match lookup_dir fs category with
  | None => (Some "no such file or directory", fs)
  | Some d =>
      if negb (writable d) then (Some "permission denied", fs)
      else
        match children d !! file with
        | Some SubDirectory => (Some "is a directory", fs)
        | _ =>
            (None, with_dir category
                     (with_children (<[file := RegularFile (Some data)]> (children d)) d) fs)
        end
  end.

(** [os.Remove] of [<category>/<file>]. *)
Definition Remove (category file : string) (fs : FileSystem)
  : option PathError * FileSystem :=
  match lookup_dir fs category with
  | None => (Some NotExist, fs)
  | Some d =>
      match children d !! file with
      | None => (Some NotExist, fs)
      | Some _ =>
          if negb (writable d) then (Some OtherError, fs)
          else (None, with_dir category (with_children (delete file (children d)) d) fs)
      end
  end.

(** [filepath.Ext]: the suffix from the last dot of the last path
    element on, empty without such a dot. *)
Fixpoint Ext (name : string) : string :=
  match name with
  | EmptyString => EmptyString
  | String c rest =>
      match Ext rest with
      | EmptyString =>
          if existsb (Ascii.eqb "/") (list_ascii_of_string rest) then EmptyString
          else if Ascii.eqb c "." then name else EmptyString
      | e => e
      end
  end.

(** *** The [FileStorage] *)

Definition subdirs : list string :=
  ["pods"; "deployments"; "statefulsets"; "services"; "nodes"].

Fixpoint mkdirs (dirs : list string) (fs : FileSystem) : result FileSystem :=
  match dirs with
  | [] => Ok fs
  | subdir :: rest =>
      match MkdirAll subdir fs with
      | (Some e, _) => Err ("failed to create subdirectory " +:+ subdir +:+ ": " +:+ e)
      | (None, fs) => mkdirs rest fs
      end
  end.

(** [NewFileStorage]. *)
Definition NewFileStorage (fs : FileSystem) : result FileSystem :=
  match MkdirAll_root fs with
  | (Some e, _) => Err ("failed to create data directory: " +:+ e)
  | (None, fs) => mkdirs subdirs fs
  end.

Section objects.
Context {T : Type} `{!Codec T}.

(** [storeObject]. *)
Definition storeObject (category name : string) (obj : T) (fs : FileSystem)
  : error * FileSystem :=
  match Marshal obj with
  | Err e => (Some ("failed to marshal object: " +:+ e), fs)
  | Ok data =>
      match WriteFile category (name +:+ ".json") data fs with
      | (Some e, fs) => (Some ("failed to write file: " +:+ e), fs)
      | (None, fs) => (None, fs)
      end
  end.

(** [getObject]. *)
Definition getObject (category name : string) (fs : FileSystem) : result T :=
  match ReadFile fs category (name +:+ ".json") with
  | inr NotExist => Err ("object not found: " +:+ name)
  | inr OtherError => Err "failed to read file: permission denied"
  | inl data =>
      match Unmarshal data with
      | Err e => Err ("failed to unmarshal object: " +:+ e)
      | Ok obj => Ok obj
      end
  end.

(** The loop of every [List...]: files that do not load are skipped. *)
Definition loadAll (category : string) (files : list string) (fs : FileSystem) : list T :=
  omap (fun file =>
          match getObject category file fs with
          | Err _ => None
          | Ok obj => Some obj
          end) files.
End objects.

(** [deleteObject]: ENOENT is not an error. *)
Definition deleteObject (category name : string) (fs : FileSystem) : error * FileSystem :=
  match Remove category (name +:+ ".json") fs with
  | (Some OtherError, fs) => (Some "failed to delete file: permission denied", fs)
  | (_, fs) => (None, fs)
  end.

(** [listFiles]: the names, without extension, of the regular entries
    whose extension is [.json]. *)
Definition listFiles (category : string) (fs : FileSystem) : result (list string) :=
  match ReadDir fs category with
  | Err e => Err ("failed to read directory: " +:+ e)
  | Ok files =>
      Ok (omap (fun '(name, isDir) =>
                  if negb isDir && String.eqb (Ext name) ".json"
                  then Some (gostrings.take (String.length name - 5) name)
                  else None) files)
  end.

Section kinds.
Context `{!Codec api.Pod, !Codec api.Deployment, !Codec api.StatefulSet,
          !Codec api.Service, !Codec api.Node}.

Definition StorePod (pod : api.Pod) := storeObject "pods" (api.name_of pod) pod.
Definition StoreDeployment (d : api.Deployment) := storeObject "deployments" (api.name_of d) d.
Definition StoreStatefulSet (ss : api.StatefulSet) :=
  storeObject "statefulsets" (api.name_of ss) ss.
Definition StoreService (svc : api.Service) := storeObject "services" (api.name_of svc) svc.
Definition StoreNode (node : api.Node) := storeObject "nodes" (api.name_of node) node.

Definition ListPods (fs : FileSystem) : result (list api.Pod) :=
  match listFiles "pods" fs with
  | Err e => Err e
  | Ok files => Ok (loadAll "pods" files fs)
  end.
Definition ListDeployments (fs : FileSystem) : result (list api.Deployment) :=
  match listFiles "deployments" fs with
  | Err e => Err e
  | Ok files => Ok (loadAll "deployments" files fs)
  end.
Definition ListStatefulSets (fs : FileSystem) : result (list api.StatefulSet) :=
  match listFiles "statefulsets" fs with
  | Err e => Err e
  | Ok files => Ok (loadAll "statefulsets" files fs)
  end.
Definition ListServices (fs : FileSystem) : result (list api.Service) :=
  match listFiles "services" fs with
  | Err e => Err e
  | Ok files => Ok (loadAll "services" files fs)
  end.
Definition ListNodes (fs : FileSystem) : result (list api.Node) :=
  match listFiles "nodes" fs with
  | Err e => Err e
  | Ok files => Ok (loadAll "nodes" files fs)
  end.

Definition DeletePod := deleteObject "pods".
Definition DeleteDeployment := deleteObject "deployments".
Definition DeleteStatefulSet := deleteObject "statefulsets".
Definition DeleteService := deleteObject "services".
Definition DeleteNode := deleteObject "nodes".

Definition GetPod (name : string) (fs : FileSystem) : result api.Pod :=
  getObject "pods" name fs.
Definition GetDeployment (name : string) (fs : FileSystem) : result api.Deployment :=
  getObject "deployments" name fs.
Definition GetStatefulSet (name : string) (fs : FileSystem) : result api.StatefulSet :=
  getObject "statefulsets" name fs.
Definition GetService (name : string) (fs : FileSystem) : result api.Service :=
  getObject "services" name fs.
Definition GetNode (name : string) (fs : FileSystem) : result api.Node :=
  getObject "nodes" name fs.
End kinds.

End storage.

(** ** Package [server]: state, API handlers, start-up and the control
    loops *)
Module server.
Import runtime storage.

Record Config := {
  ListenAddr : string;
  Debug : bool;
  DataDir : string;
  Runtime : RuntimeConfig
}.

(** The body of a scale request, [{spec: {replicas}}]. *)
Record ScaleRequest := { Scale_Replicas : Z }.

(** What a handler is given: the content type, the URL path, the
    [name] path variable and the body bytes. *)
Record Request := {
  ContentType : string;
  URLPath : string;
  VarName : string;
  Body : string
}.

(** What [writeJSON]/[writeError] encode. *)
Inductive Payload :=
| PodJSON (pod : api.Pod)
| DeploymentJSON (deployment : api.Deployment)
| StatefulSetJSON (statefulset : api.StatefulSet)
| ServiceJSON (service : api.Service)
| NodeJSON (node : api.Node)
| PodListJSON (items : list api.Pod)
| DeploymentListJSON (items : list api.Deployment)
| StatefulSetListJSON (items : list api.StatefulSet)
| ServiceListJSON (items : list api.Service)
| NodeListJSON (items : list api.Node)
| ScaleJSON (replicas : Z)
| ErrorJSON (message : string) (details : option string)
| NoContent.

Record Response := { StatusCode : Z; Sent : Payload }.

Definition StatusOK : Z := 200.
Definition StatusCreated : Z := 201.
Definition StatusNoContent : Z := 204.
Definition StatusBadRequest : Z := 400.
Definition StatusNotFound : Z := 404.

(** [writeJSON] after [WriteHeader(status)]; without a [WriteHeader]
    the status is 200. *)
Definition writeJSON (status : Z) (data : Payload) : Response :=
  {| StatusCode := status; Sent := data |}.

Section state.
Context {R : Type}.

(** The [Server]: configuration, runtime, storage and the five maps
    (the lock is not modelled: calls are taken one at a time). *)
Record Server := {
  config : Config;
  rt : R;
  store : FileSystem;
  pods : gmap string api.Pod;
  deployments : gmap string api.Deployment;
  statefulsets : gmap string api.StatefulSet;
  services : gmap string api.Service;
  nodes : gmap string api.Node
}.

Definition with_rt (r : R) (s : Server) : Server :=
  {| config := config s; rt := r; store := store s; pods := pods s;
     deployments := deployments s; statefulsets := statefulsets s;
     services := services s; nodes := nodes s |}.
Definition with_store (fs : FileSystem) (s : Server) : Server :=
  {| config := config s; rt := rt s; store := fs; pods := pods s;
     deployments := deployments s; statefulsets := statefulsets s;
     services := services s; nodes := nodes s |}.
Definition with_pods (m : gmap string api.Pod) (s : Server) : Server :=
  {| config := config s; rt := rt s; store := store s; pods := m;
     deployments := deployments s; statefulsets := statefulsets s;
     services := services s; nodes := nodes s |}.
Definition with_deployments (m : gmap string api.Deployment) (s : Server) : Server :=
  {| config := config s; rt := rt s; store := store s; pods := pods s;
     deployments := m; statefulsets := statefulsets s;
     services := services s; nodes := nodes s |}.
Definition with_statefulsets (m : gmap string api.StatefulSet) (s : Server) : Server :=
  {| config := config s; rt := rt s; store := store s; pods := pods s;
     deployments := deployments s; statefulsets := m;
     services := services s; nodes := nodes s |}.
Definition with_services (m : gmap string api.Service) (s : Server) : Server :=
  {| config := config s; rt := rt s; store := store s; pods := pods s;
     deployments := deployments s; statefulsets := statefulsets s;
     services := m; nodes := nodes s |}.
Definition with_nodes (m : gmap string api.Node) (s : Server) : Server :=
  {| config := config s; rt := rt s; store := store s; pods := pods s;
     deployments := deployments s; statefulsets := statefulsets s;
     services := services s; nodes := m |}.

(** [writeError]: the details only in debug mode. *)
Definition writeError (s : Server) (status : Z) (message : string) (err : error) : Response :=
  {| StatusCode := status;
     Sent := ErrorJSON message (if Debug (config s) then err else None) |}.
End state.
Arguments Server R : clear implicits.

(** [decodeManifest]: YAML by content type or path suffix, else JSON. *)
Definition decodeManifest {T} `{!Codec T} (r : Request) : result T :=
  if gostrings.Contains (ContentType r) "application/yaml"
     || gostrings.HasSuffix (URLPath r) ".yaml"
  then UnmarshalYAML (Body r)
  else Unmarshal (Body r).

(** The defaults; [now] is [time.Now()]. *)
Definition setDefaultsForPod (now : Z) (pod : api.Pod) : api.Pod :=
  let pod := if String.eqb (api.APIVersion (api.Type_ pod)) ""
             then api.with_APIVersion "v1" pod else pod in
  let pod := if String.eqb (api.Kind (api.Type_ pod)) ""
             then api.with_Kind "Pod" pod else pod in
  match api.CreationTimestamp (api.Meta pod) with
  | None => api.with_CreationTimestamp (Some now) pod
  | Some _ => pod
  end.

Definition setDefaultsForDeployment (now : Z) (deployment : api.Deployment) : api.Deployment :=
  let d := if String.eqb (api.APIVersion (api.Type_ deployment)) ""
           then api.with_APIVersion "apps/v1" deployment else deployment in
  let d := if String.eqb (api.Kind (api.Type_ d)) ""
           then api.with_Kind "Deployment" d else d in
  let d := match api.CreationTimestamp (api.Meta d) with
           | None => api.with_CreationTimestamp (Some now) d
           | Some _ => d
           end in
  match api.Replicas (api.Spec d) with
  | None => api.with_Spec (api.with_Replicas (Some 1) (api.Spec d)) d
  | Some _ => d
  end.

Definition setDefaultsForStatefulSet (now : Z) (ss : api.StatefulSet) : api.StatefulSet :=
  let ss := if String.eqb (api.APIVersion (api.Type_ ss)) ""
            then api.with_APIVersion "apps/v1" ss else ss in
  let ss := if String.eqb (api.Kind (api.Type_ ss)) ""
            then api.with_Kind "StatefulSet" ss else ss in
  let ss := match api.CreationTimestamp (api.Meta ss) with
            | None => api.with_CreationTimestamp (Some now) ss
            | Some _ => ss
            end in
  match api.SS_Replicas (api.Spec ss) with
  | None => api.with_Spec (api.with_SS_Replicas (Some 1) (api.Spec ss)) ss
  | Some _ => ss
  end.

Definition setDefaultsForService (now : Z) (service : api.Service) : api.Service :=
  let svc := if String.eqb (api.APIVersion (api.Type_ service)) ""
             then api.with_APIVersion "v1" service else service in
  let svc := if String.eqb (api.Kind (api.Type_ svc)) ""
             then api.with_Kind "Service" svc else svc in
  match api.CreationTimestamp (api.Meta svc) with
  | None => api.with_CreationTimestamp (Some now) svc
  | Some _ => svc
  end.

(** *** The API handlers

    Every handler takes the request (and the clock where the defaults
    need it) and the server, and gives the response and the server
    after it.  A storage error is only logged, so the error of a
    [Store...] or [Delete...] call is dropped and its file system
    kept. *)
Section handlers.
Context {R : Type} `{!ContainerRuntime R}.
Context `{!Codec api.Pod, !Codec api.Deployment, !Codec api.StatefulSet,
          !Codec api.Service, !Codec api.Node, !Codec ScaleRequest}.
(** An untyped manifest, [map[string]interface{}], and its
    [manifest["kind"].(string)]. *)
Context {Manifest : Type} `{!Codec Manifest} (kindOf : Manifest -> option string).

#[local] Abbreviation Server := (Server R).
Definition Handler := Z -> Request -> Server -> Response * Server.

(** Pods *)

Definition listPodsHandler : Handler := fun now r s =>
  (writeJSON StatusOK (PodListJSON (map_to_list (pods s)).*2), s).

Definition createPodHandler : Handler := fun now r s =>
  match decodeManifest r with
  | Err e => (writeError s StatusBadRequest "Invalid manifest" (Some e), s)
  | Ok pod =>
      let pod := setDefaultsForPod now pod in
      let s := with_pods (<[api.name_of pod := pod]> (pods s)) s in
      let s := with_store (StorePod pod (store s)).2 s in
      (writeJSON StatusCreated (PodJSON pod), s)
  end.

Definition getPodHandler : Handler := fun now r s =>
  match pods s !! VarName r with
  | None => (writeError s StatusNotFound "Pod not found" None, s)
  | Some pod => (writeJSON StatusOK (PodJSON pod), s)
  end.

Definition updatePodHandler : Handler := fun now r s =>
  let name := VarName r in
  match decodeManifest r with
  | Err e => (writeError s StatusBadRequest "Invalid manifest" (Some e), s)
  | Ok pod =>
      let pod := setDefaultsForPod now (api.with_Name name pod) in
      let s := with_pods (<[name := pod]> (pods s)) s in
      let s := with_store (StorePod pod (store s)).2 s in
      (writeJSON StatusOK (PodJSON pod), s)
  end.

Definition deletePodHandler : Handler := fun now r s =>
  let name := VarName r in
  let s := with_pods (delete name (pods s)) s in
  let s := with_store (DeletePod name (store s)).2 s in
  (writeJSON StatusNoContent NoContent, s).

(** Deployments *)

Definition listDeploymentsHandler : Handler := fun now r s =>
  (writeJSON StatusOK (DeploymentListJSON (map_to_list (deployments s)).*2), s).

Definition createDeploymentHandler : Handler := fun now r s =>
  match decodeManifest r with
  | Err e => (writeError s StatusBadRequest "Invalid manifest" (Some e), s)
  | Ok deployment =>
      let deployment := setDefaultsForDeployment now deployment in
      let s := with_deployments
                 (<[api.name_of deployment := deployment]> (deployments s)) s in
      let s := with_store (StoreDeployment deployment (store s)).2 s in
      (writeJSON StatusCreated (DeploymentJSON deployment), s)
  end.

Definition getDeploymentHandler : Handler := fun now r s =>
  match deployments s !! VarName r with
  | None => (writeError s StatusNotFound "Deployment not found" None, s)
  | Some deployment => (writeJSON StatusOK (DeploymentJSON deployment), s)
  end.

Definition updateDeploymentHandler : Handler := fun now r s =>
  let name := VarName r in
  match decodeManifest r with
  | Err e => (writeError s StatusBadRequest "Invalid manifest" (Some e), s)
  | Ok deployment =>
      let deployment := setDefaultsForDeployment now (api.with_Name name deployment) in
      let s := with_deployments (<[name := deployment]> (deployments s)) s in
      let s := with_store (StoreDeployment deployment (store s)).2 s in
      (writeJSON StatusOK (DeploymentJSON deployment), s)
  end.

Definition deleteDeploymentHandler : Handler := fun now r s =>
  let name := VarName r in
  let s := with_deployments (delete name (deployments s)) s in
  let s := with_store (DeleteDeployment name (store s)).2 s in
  (writeJSON StatusNoContent NoContent, s).

(** The scale request is decoded as JSON whatever the content type;
    the replica count is written only if the deployment exists, and
    the answer is the same either way. *)
Definition scaleDeploymentHandler : Handler := fun now r s =>
  let name := VarName r in
  match Unmarshal (Body r) with
  | Err e => (writeError s StatusBadRequest "Invalid scale request" (Some e), s)
  | Ok scaleReq =>
      let s :=
        match deployments s !! name with
        | Some deployment =>
            with_deployments
              (<[name := api.with_Spec
                           (api.with_Replicas (Some (Scale_Replicas scaleReq))
                                              (api.Spec deployment))
                           deployment]> (deployments s)) s
        | None => s
        end in
      (writeJSON StatusOK (ScaleJSON (Scale_Replicas scaleReq)), s)
  end.

(** StatefulSets *)

Definition listStatefulSetsHandler : Handler := fun now r s =>
  (writeJSON StatusOK (StatefulSetListJSON (map_to_list (statefulsets s)).*2), s).

Definition createStatefulSetHandler : Handler := fun now r s =>
  match decodeManifest r with
  | Err e => (writeError s StatusBadRequest "Invalid manifest" (Some e), s)
  | Ok statefulset =>
      let statefulset := setDefaultsForStatefulSet now statefulset in
      let s := with_statefulsets
                 (<[api.name_of statefulset := statefulset]> (statefulsets s)) s in
      let s := with_store (StoreStatefulSet statefulset (store s)).2 s in
      (writeJSON StatusCreated (StatefulSetJSON statefulset), s)
  end.

Definition getStatefulSetHandler : Handler := fun now r s =>
  match statefulsets s !! VarName r with
  | None => (writeError s StatusNotFound "StatefulSet not found" None, s)
  | Some ss => (writeJSON StatusOK (StatefulSetJSON ss), s)
  end.

Definition updateStatefulSetHandler : Handler := fun now r s =>
  let name := VarName r in
  match decodeManifest r with
  | Err e => (writeError s StatusBadRequest "Invalid manifest" (Some e), s)
  | Ok statefulset =>
      let statefulset := setDefaultsForStatefulSet now (api.with_Name name statefulset) in
      let s := with_statefulsets (<[name := statefulset]> (statefulsets s)) s in
      let s := with_store (StoreStatefulSet statefulset (store s)).2 s in
      (writeJSON StatusOK (StatefulSetJSON statefulset), s)
  end.

Definition deleteStatefulSetHandler : Handler := fun now r s =>
  let name := VarName r in
  let s := with_statefulsets (delete name (statefulsets s)) s in
  let s := with_store (DeleteStatefulSet name (store s)).2 s in
  (writeJSON StatusNoContent NoContent, s).

Definition scaleStatefulSetHandler : Handler := fun now r s =>
  let name := VarName r in
  match Unmarshal (Body r) with
  | Err e => (writeError s StatusBadRequest "Invalid scale request" (Some e), s)
  | Ok scaleReq =>
      let s :=
        match statefulsets s !! name with
        | Some ss =>
            with_statefulsets
              (<[name := api.with_Spec
                           (api.with_SS_Replicas (Some (Scale_Replicas scaleReq))
                                                 (api.Spec ss))
                           ss]> (statefulsets s)) s
        | None => s
        end in
      (writeJSON StatusOK (ScaleJSON (Scale_Replicas scaleReq)), s)
  end.

(** Services *)

Definition listServicesHandler : Handler := fun now r s =>
  (writeJSON StatusOK (ServiceListJSON (map_to_list (services s)).*2), s).

Definition createServiceHandler : Handler := fun now r s =>
  match decodeManifest r with
  | Err e => (writeError s StatusBadRequest "Invalid manifest" (Some e), s)
  | Ok service =>
      let service := setDefaultsForService now service in
      let s := with_services (<[api.name_of service := service]> (services s)) s in
      let s := with_store (StoreService service (store s)).2 s in
      (writeJSON StatusCreated (ServiceJSON service), s)
  end.

Definition getServiceHandler : Handler := fun now r s =>
  match services s !! VarName r with
  | None => (writeError s StatusNotFound "Service not found" None, s)
  | Some service => (writeJSON StatusOK (ServiceJSON service), s)
  end.

Definition updateServiceHandler : Handler := fun now r s =>
  let name := VarName r in
  match decodeManifest r with
  | Err e => (writeError s StatusBadRequest "Invalid manifest" (Some e), s)
  | Ok service =>
      let service := setDefaultsForService now (api.with_Name name service) in
      let s := with_services (<[name := service]> (services s)) s in
      let s := with_store (StoreService service (store s)).2 s in
      (writeJSON StatusOK (ServiceJSON service), s)
  end.

Definition deleteServiceHandler : Handler := fun now r s =>
  let name := VarName r in
  let s := with_services (delete name (services s)) s in
  let s := with_store (DeleteService name (store s)).2 s in
  (writeJSON StatusNoContent NoContent, s).

(** Nodes: read only *)

Definition listNodesHandler : Handler := fun now r s =>
  (writeJSON StatusOK (NodeListJSON (map_to_list (nodes s)).*2), s).

Definition getNodeHandler : Handler := fun now r s =>
  match nodes s !! VarName r with
  | None => (writeError s StatusNotFound "Node not found" None, s)
  | Some node => (writeJSON StatusOK (NodeJSON node), s)
  end.

(** The kind-dispatching handlers decode an untyped manifest, read
    its kind, encode it again ([json.Marshal], error dropped) and
    decode the bytes at the kind's type. *)
Definition reencode (manifest : Manifest) : string :=
  match Marshal manifest with
  | Ok data => data
  | Err _ => ""
  end.

(** [getGenericWorkloadHandler]: the name is looked up among the
    deployments, then the stateful sets, then the pods. *)
Definition getGenericWorkloadHandler : Handler := fun now r s =>
  let name := VarName r in
  match deployments s !! name with
  | Some deployment => (writeJSON StatusOK (DeploymentJSON deployment), s)
  | None =>
      match statefulsets s !! name with
      | Some statefulset => (writeJSON StatusOK (StatefulSetJSON statefulset), s)
      | None =>
          match pods s !! name with
          | Some pod => (writeJSON StatusOK (PodJSON pod), s)
          | None => (writeError s StatusNotFound "Workload not found" None, s)
          end
      end
  end.

(** [deleteGenericWorkloadHandler]: the name is deleted from each of
    the three maps that holds it. *)
Definition deleteGenericWorkloadHandler : Handler := fun now r s =>
  let name := VarName r in
  let '(deleted, s) :=
    match deployments s !! name with
    | Some _ =>
        let s := with_deployments (delete name (deployments s)) s in
        (true, with_store (DeleteDeployment name (store s)).2 s)
    | None => (false, s)
    end in
  let '(deleted, s) :=
    match statefulsets s !! name with
    | Some _ =>
        let s := with_statefulsets (delete name (statefulsets s)) s in
        (true, with_store (DeleteStatefulSet name (store s)).2 s)
    | None => (deleted, s)
    end in
  let '(deleted, s) :=
    match pods s !! name with
    | Some _ =>
        let s := with_pods (delete name (pods s)) s in
        (true, with_store (DeletePod name (store s)).2 s)
    | None => (deleted, s)
    end in
  if deleted then (writeJSON StatusNoContent NoContent, s)
  else (writeError s StatusNotFound "Workload not found" None, s).

Definition createGenericWorkloadHandler : Handler := fun now r s =>
  match decodeManifest r with
  | Err e => (writeError s StatusBadRequest "Invalid manifest" (Some e), s)
  | Ok manifest =>
      match kindOf manifest with
      | None => (writeError s StatusBadRequest "Missing or invalid 'kind' field" None, s)
      | Some kind =>
          let data := reencode manifest in
          if String.eqb kind "Deployment" then
            match Unmarshal data with
            | Err e => (writeError s StatusBadRequest "Invalid Deployment manifest" (Some e), s)
            | Ok deployment =>
                let deployment := setDefaultsForDeployment now deployment in
                let s := with_deployments
                           (<[api.name_of deployment := deployment]> (deployments s)) s in
                let s := with_store (StoreDeployment deployment (store s)).2 s in
                (writeJSON StatusCreated (DeploymentJSON deployment), s)
            end
          else if String.eqb kind "StatefulSet" then
            match Unmarshal data with
            | Err e => (writeError s StatusBadRequest "Invalid StatefulSet manifest" (Some e), s)
            | Ok statefulset =>
                let statefulset := setDefaultsForStatefulSet now statefulset in
                let s := with_statefulsets
                           (<[api.name_of statefulset := statefulset]> (statefulsets s)) s in
                let s := with_store (StoreStatefulSet statefulset (store s)).2 s in
                (writeJSON StatusCreated (StatefulSetJSON statefulset), s)
            end
          else if String.eqb kind "Pod" then
            match Unmarshal data with
            | Err e => (writeError s StatusBadRequest "Invalid Pod manifest" (Some e), s)
            | Ok pod =>
                let pod := setDefaultsForPod now pod in
                let s := with_pods (<[api.name_of pod := pod]> (pods s)) s in
                let s := with_store (StorePod pod (store s)).2 s in
                (writeJSON StatusCreated (PodJSON pod), s)
            end
          else (writeError s StatusBadRequest ("Unsupported workload kind: " +:+ kind) None, s)
      end
  end.

Definition updateGenericWorkloadHandler : Handler := fun now r s =>
  let name := VarName r in
  match decodeManifest r with
  | Err e => (writeError s StatusBadRequest "Invalid manifest" (Some e), s)
  | Ok manifest =>
      match kindOf manifest with
      | None => (writeError s StatusBadRequest "Missing or invalid 'kind' field" None, s)
      | Some kind =>
          let data := reencode manifest in
          if String.eqb kind "Deployment" then
            match Unmarshal data with
            | Err e => (writeError s StatusBadRequest "Invalid Deployment manifest" (Some e), s)
            | Ok deployment =>
                let deployment :=
                  setDefaultsForDeployment now (api.with_Name name deployment) in
                let s := with_deployments (<[name := deployment]> (deployments s)) s in
                let s := with_store (StoreDeployment deployment (store s)).2 s in
                (writeJSON StatusOK (DeploymentJSON deployment), s)
            end
          else if String.eqb kind "StatefulSet" then
            match Unmarshal data with
            | Err e => (writeError s StatusBadRequest "Invalid StatefulSet manifest" (Some e), s)
            | Ok statefulset =>
                let statefulset :=
                  setDefaultsForStatefulSet now (api.with_Name name statefulset) in
                let s := with_statefulsets (<[name := statefulset]> (statefulsets s)) s in
                let s := with_store (StoreStatefulSet statefulset (store s)).2 s in
                (writeJSON StatusOK (StatefulSetJSON statefulset), s)
            end
          else if String.eqb kind "Pod" then
            match Unmarshal data with
            | Err e => (writeError s StatusBadRequest "Invalid Pod manifest" (Some e), s)
            | Ok pod =>
                let pod := setDefaultsForPod now (api.with_Name name pod) in
                let s := with_pods (<[name := pod]> (pods s)) s in
                let s := with_store (StorePod pod (store s)).2 s in
                (writeJSON StatusOK (PodJSON pod), s)
            end
          else (writeError s StatusBadRequest ("Unsupported workload kind: " +:+ kind) None, s)
      end
  end.

Definition applyManifestHandler : Handler := fun now r s =>
  match decodeManifest r with
  | Err e => (writeError s StatusBadRequest "Invalid manifest" (Some e), s)
  | Ok manifest =>
      match kindOf manifest with
      | None => (writeError s StatusBadRequest "Missing or invalid 'kind' field" None, s)
      | Some kind =>
          let data := reencode manifest in
          if String.eqb kind "Pod" then
            match Unmarshal data with
            | Err e => (writeError s StatusBadRequest "Invalid Pod manifest" (Some e), s)
            | Ok pod =>
                let pod := setDefaultsForPod now pod in
                let s := with_pods (<[api.name_of pod := pod]> (pods s)) s in
                let s := with_store (StorePod pod (store s)).2 s in
                (writeJSON StatusOK (PodJSON pod), s)
            end
          else if String.eqb kind "Deployment" then
            match Unmarshal data with
            | Err e => (writeError s StatusBadRequest "Invalid Deployment manifest" (Some e), s)
            | Ok deployment =>
                let deployment := setDefaultsForDeployment now deployment in
                let s := with_deployments
                           (<[api.name_of deployment := deployment]> (deployments s)) s in
                let s := with_store (StoreDeployment deployment (store s)).2 s in
                (writeJSON StatusOK (DeploymentJSON deployment), s)
            end
          else if String.eqb kind "StatefulSet" then
            match Unmarshal data with
            | Err e => (writeError s StatusBadRequest "Invalid StatefulSet manifest" (Some e), s)
            | Ok statefulset =>
                let statefulset := setDefaultsForStatefulSet now statefulset in
                let s := with_statefulsets
                           (<[api.name_of statefulset := statefulset]> (statefulsets s)) s in
                let s := with_store (StoreStatefulSet statefulset (store s)).2 s in
                (writeJSON StatusOK (StatefulSetJSON statefulset), s)
            end
          else if String.eqb kind "Service" then
            match Unmarshal data with
            | Err e => (writeError s StatusBadRequest "Invalid Service manifest" (Some e), s)
            | Ok service =>
                let service := setDefaultsForService now service in
                let s := with_services (<[api.name_of service := service]> (services s)) s in
                let s := with_store (StoreService service (store s)).2 s in
                (writeJSON StatusOK (ServiceJSON service), s)
            end
          else (writeError s StatusBadRequest ("Unsupported resource kind: " +:+ kind) None, s)
      end
  end.
End handlers.

(** *** Routes, start-up and the node reporter *)

(** The routes of [SetupRoutes] that read or write the five maps (the
    health, container and system routes and the listing of all
    workloads are left out). *)
Inductive Route :=
| GET_pods | POST_pods | GET_pod | PUT_pod | DELETE_pod
| GET_services | POST_services | GET_service | PUT_service | DELETE_service
| GET_workload | PUT_workload | DELETE_workload | POST_workloads
| GET_nodes | GET_node
| GET_deployments | POST_deployments | GET_deployment | PUT_deployment
| DELETE_deployment | PUT_deployment_scale
| GET_statefulsets | POST_statefulsets | GET_statefulset | PUT_statefulset
| DELETE_statefulset | PUT_statefulset_scale
| POST_apply.

Section lifecycle.
Context {R : Type} `{!ContainerRuntime R}.
Context `{!Codec api.Pod, !Codec api.Deployment, !Codec api.StatefulSet,
          !Codec api.Service, !Codec api.Node, !Codec ScaleRequest}.
Context {Manifest : Type} `{!Codec Manifest} (kindOf : Manifest -> option string).

#[local] Abbreviation Server := (Server R).

Definition SetupRoutes (route : Route) : Handler (R := R) :=
  match route with
  | GET_pods => listPodsHandler
  | POST_pods => createPodHandler
  | GET_pod => getPodHandler
  | PUT_pod => updatePodHandler
  | DELETE_pod => deletePodHandler
  | GET_services => listServicesHandler
  | POST_services => createServiceHandler
  | GET_service => getServiceHandler
  | PUT_service => updateServiceHandler
  | DELETE_service => deleteServiceHandler
  | GET_workload => getGenericWorkloadHandler
  | PUT_workload => updateGenericWorkloadHandler kindOf
  | DELETE_workload => deleteGenericWorkloadHandler
  | POST_workloads => createGenericWorkloadHandler kindOf
  | GET_nodes => listNodesHandler
  | GET_node => getNodeHandler
  | GET_deployments => listDeploymentsHandler
  | POST_deployments => createDeploymentHandler
  | GET_deployment => getDeploymentHandler
  | PUT_deployment => updateDeploymentHandler
  | DELETE_deployment => deleteDeploymentHandler
  | PUT_deployment_scale => scaleDeploymentHandler
  | GET_statefulsets => listStatefulSetsHandler
  | POST_statefulsets => createStatefulSetHandler
  | GET_statefulset => getStatefulSetHandler
  | PUT_statefulset => updateStatefulSetHandler
  | DELETE_statefulset => deleteStatefulSetHandler
  | PUT_statefulset_scale => scaleStatefulSetHandler
  | POST_apply => applyManifestHandler kindOf
  end.

(** [for _, x := range xs { m[x.Name] = x }]. *)
Definition install {A B} (xs : list (api.Object A B)) (m : gmap string (api.Object A B))
  : gmap string (api.Object A B) :=
  foldl (fun m x => <[api.name_of x := x]> m) m xs.

(** [loadState]: the four kinds in turn; a listing error is
    returned. *)
Definition loadState (s : Server) : result Server :=
  match ListPods (store s) with
  | Err e => Err ("failed to load pods: " +:+ e)
  | Ok pods_ =>
      let s := with_pods (install pods_ (pods s)) s in
      match ListDeployments (store s) with
      | Err e => Err ("failed to load deployments: " +:+ e)
      | Ok deployments_ =>
          let s := with_deployments (install deployments_ (deployments s)) s in
          match ListStatefulSets (store s) with
          | Err e => Err ("failed to load statefulsets: " +:+ e)
          | Ok statefulsets_ =>
              let s := with_statefulsets (install statefulsets_ (statefulsets s)) s in
              match ListServices (store s) with
              | Err e => Err ("failed to load services: " +:+ e)
              | Ok services_ => Ok (with_services (install services_ (services s)) s)
              end
          end
      end
  end.

(** [NewServer], over the file system the data directory lives in. *)
Definition NewServer (cfg : Config) (runtime : R) (fs : FileSystem) : result Server :=
  match NewFileStorage fs with
  | Err e => Err ("failed to initialize storage: " +:+ e)
  | Ok fs =>
      let server := {| config := cfg; rt := runtime; store := fs;
                       pods := ∅; deployments := ∅; statefulsets := ∅;
                       services := ∅; nodes := ∅ |} in
      match loadState server with
      | Err e => Err ("failed to load state: " +:+ e)
      | Ok server => Ok server
      end
  end.

(** The process after [runServer]'s start-up steps: it died in a
    [log.Fatalf], or it serves. *)
Inductive Process :=
| Fatal (message : string)
| Serving (srv : Server).

(** [runServer] up to the point where the server is created;
    [runtimeType] is the configured [runtime.type] and [runtime] the
    runtime [NewContainerdRuntime] connected to. *)
Definition runServer (runtimeType : string) (cfg : Config) (runtime : R) (fs : FileSystem)
  : Process :=
  if negb (String.eqb runtimeType "containerd") then
    Fatal ("Unsupported runtime type: " +:+ runtimeType +:+ " (only containerd is supported)")
  else
    match HealthCheck runtime with
    | (Some e, _) => Fatal ("Container runtime health check failed: " +:+ e)
    | (None, runtime) =>
        match NewServer cfg runtime fs with
        | Err e => Fatal ("Failed to create server: " +:+ e)
        | Ok srv => Serving srv
        end
    end.

(** The [api.Node] that [updateNodeStatus] builds from the system
    info. *)
Definition local_node (now : Z) (info : SystemInfo) : api.Node :=
  api.Build_Object
    {| api.APIVersion := "v1"; api.Kind := "Node" |}
    {| api.Name := "local-node"; api.CreationTimestamp := None; api.Labels := ∅ |}
    {| api.Unschedulable := false |}
    {| api.Capacity := {[ api.ResourceCPU := NCPU info; api.ResourceMemory := MemTotal info ]};
       api.Allocatable := {[ api.ResourceCPU := NCPU info; api.ResourceMemory := MemTotal info ]};
       api.Conditions :=
         [ {| api.Cond_Type := api.NodeReady;
              api.Cond_Status := api.ConditionTrue;
              api.LastHeartbeatTime := now;
              api.LastTransitionTime := now;
              api.Reason := "NodeReady";
              api.Message := "Node is ready" |} ];
       api.NodeInfo :=
              {| api.MachineID := "local";
                 api.SystemUUID := "local";
                 api.BootID := "local";
                 api.Node_KernelVersion := KernelVersion info;
                 api.OSImage := OperatingSystem info;
                 api.ContainerRuntimeVersion := RuntimeVersion info;
                 api.Node_Architecture := Architecture info;
                 api.Node_OperatingSystem := OperatingSystem info |} |}.

(** [updateNodeStatus]: one tick of the node reporter. *)
Definition updateNodeStatus (now : Z) (s : Server) : Server :=
  match GetSystemInfo (rt s) with
  | (Err _, r) => with_rt r s
  | (Ok info, r) =>
      let s := with_rt r s in
      with_nodes (<["local-node" := local_node now info]> (nodes s)) s
  end.
End lifecycle.

(** *** The control loops *)

(** How a call of a control loop ends: it returns, or the goroutine
    panics (and with it the process). *)
Inductive outcome (A : Type) : Type :=
| Returned (a : A)
| Panicked (message : string).
Arguments Returned {A} a.
Arguments Panicked {A} message.

Section controllers.
Context {R : Type} `{!ContainerRuntime R}.

#[local] Abbreviation Server := (Server R).

(** The loop of [createPodFromTemplate] over the template's
    containers.  The log line after a successful start slices
    [container.ID[:12]], which panics on a shorter id. *)
Fixpoint createContainers (podName : string) (containers : list api.Container) (r : R)
  : outcome error * R :=
  match containers with
  | [] => (Returned None, r)
  | containerSpec :: rest =>
      let '(_, r) := PullImage (api.Image containerSpec) r in
      match CreateContainer containerSpec podName r with
      | (Err e, r) =>
          (Returned (Some ("failed to create container "
                           +:+ api.Container_Name containerSpec +:+ ": " +:+ e)), r)
      | (Ok container, r) =>
          match StartContainer (ID container) r with
          | (Some e, r) =>
              let '(_, r) := RemoveContainer (ID container) r in
              (Returned (Some ("failed to start container "
                               +:+ ID container +:+ ": " +:+ e)), r)
          | (None, r) =>
              if (String.length (ID container) <? 12)%nat
              then (Panicked "slice bounds out of range", r)
              else createContainers podName rest r
          end
      end
  end.

(** [fmt.Sprintf("%s-%d", workloadName, replica)]. *)
Definition podName (workloadName : string) (replica : Z) : string :=
  workloadName +:+ "-" +:+ pretty replica.

(** [createPodFromTemplate]. *)
Definition createPodFromTemplate (workloadName : string) (template : api.PodTemplateSpec)
    (replica : Z) (r : R) : outcome error * R :=
  createContainers (podName workloadName replica)
                   (api.Containers (api.Template_Spec template)) r.

(** The scale-up loop, [for i := 0; i < needed; i++], entered with
    [i] and [needed - i] rounds to go; an error of a round is logged
    and the loop goes on. *)
Fixpoint scaleUp (workloadName : string) (template : api.PodTemplateSpec)
    (currentReplicas i : Z) (rounds : nat) (r : R) : outcome unit * R :=
  match rounds with
  | O => (Returned tt, r)
  | S rounds' =>
      match createPodFromTemplate workloadName template (currentReplicas + i) r with
      | (Panicked m, r) => (Panicked m, r)
      | (Returned _, r) => scaleUp workloadName template currentReplicas (i + 1) rounds' r
      end
  end.

(** The body of the scale-down loop over [currentContainers[i]],
    [i < excess && i < len(currentContainers)]: stop with a timeout
    of 30, and remove unless the stop failed. *)
Fixpoint scaleDown (victims : list ContainerInfo) (r : R) : R :=
  match victims with
  | [] => r
  | container :: rest =>
      match StopContainer (ID container) 30 r with
      | (Some _, r) => scaleDown rest r
      | (None, r) => scaleDown rest (RemoveContainer (ID container) r).2
      end
  end.

(** What both reconcilers do once the containers are listed;
    [desiredReplicas] and [currentReplicas] are [int32]s. *)
Definition reconcileReplicas (workloadName : string) (template : api.PodTemplateSpec)
    (replicas : option Z) (currentContainers : list ContainerInfo) (r : R)
  : outcome error * R :=
  let desiredReplicas := default 1 replicas in
  let currentReplicas := wrap32 (Z.of_nat (length currentContainers)) in
  let '(up, r) :=
    if currentReplicas <? desiredReplicas then
      let needed := wrap32 (desiredReplicas - currentReplicas) in
      scaleUp workloadName template currentReplicas 0 (Z.to_nat needed) r
    else (Returned tt, r) in
  match up with
  | Panicked m => (Panicked m, r)
  | Returned _ =>
      if desiredReplicas <? currentReplicas then
        let excess := wrap32 (currentReplicas - desiredReplicas) in
        (Returned None, scaleDown (take (Z.to_nat excess) currentContainers) r)
      else (Returned None, r)
  end.

(** [reconcileDeployment]. *)
Definition reconcileDeployment (deployment : api.Deployment) (r : R) : outcome error * R :=
  match ListContainers
          (label_filter {[ "synthesis.deployment" := api.name_of deployment ]}) r with
  | (Err e, r) => (Returned (Some ("failed to list containers: " +:+ e)), r)
  | (Ok currentContainers, r) =>
      reconcileReplicas (api.name_of deployment)
                        (api.Template (api.Spec deployment))
                        (api.Replicas (api.Spec deployment))
                        currentContainers r
  end.

(** [reconcileStatefulSet]. *)
Definition reconcileStatefulSet (statefulset : api.StatefulSet) (r : R) : outcome error * R :=
  match ListContainers
          (label_filter {[ "synthesis.statefulset" := api.name_of statefulset ]}) r with
  | (Err e, r) => (Returned (Some ("failed to list containers: " +:+ e)), r)
  | (Ok currentContainers, r) =>
      reconcileReplicas (api.name_of statefulset)
                        (api.SS_Template (api.Spec statefulset))
                        (api.SS_Replicas (api.Spec statefulset))
                        currentContainers r
  end.

Fixpoint reconcileEach {W} (reconcile : W -> R -> outcome error * R) (ws : list W) (r : R)
  : outcome unit * R :=
  match ws with
  | [] => (Returned tt, r)
  | w :: rest =>
      match reconcile w r with
      | (Panicked m, r) => (Panicked m, r)
      | (Returned _, r) => reconcileEach reconcile rest r
      end
  end.

(** [reconcileWorkloads]: one tick of the workload controller.  Go
    ranges over the two maps in an unspecified order; the order is
    the argument. *)
Definition reconcileWorkloads (ds : list api.Deployment) (sss : list api.StatefulSet)
    (s : Server) : outcome unit * Server :=
  match reconcileEach reconcileDeployment ds (rt s) with
  | (Panicked m, r) => (Panicked m, with_rt r s)
  | (Returned _, r) =>
      let '(o, r) := reconcileEach reconcileStatefulSet sss r in
      (o, with_rt r s)
  end.

(** [matchesSelector]. *)
Definition matchesSelector (containerLabels selector : gmap string string) : bool :=
  forallb (fun '(key, value) => String.eqb (index containerLabels key) value)
          (map_to_list selector).

(** [findTargetContainers]. *)
Definition findTargetContainers (selector : gmap string string) (r : R)
  : result (list ContainerInfo) * R :=
  match ListContainers (label_filter {[ "managed-by" := "synthesis" ]}) r with
  | (Err e, r) => (Err e, r)
  | (Ok allContainers, r) =>
      (Ok (List.filter (fun container => matchesSelector (CI_Labels container) selector)
                       allContainers), r)
  end.

(** [updateServiceStatus]: the stored service of that name gets the
    loopback ingress if the service is a NodePort service; the
    containers are not looked at. *)
Definition updateServiceStatus (service : api.Service) (containers : list ContainerInfo)
    (s : Server) : Server :=
  match services s !! api.name_of service with
  | Some stored =>
      if String.eqb (api.Svc_Type (api.Spec service)) api.ServiceTypeNodePort then
        let ingress := {| api.IP := "127.0.0.1"; api.Hostname := "" |} in
        with_services
          (<[api.name_of service :=
               api.with_Status {| api.Ingress := [ingress] |} stored]> (services s)) s
      else s
  | None => s
  end.

(** [reconcileService]. *)
Definition reconcileService (service : api.Service) (s : Server) : error * Server :=
  match findTargetContainers (api.Svc_Selector (api.Spec service)) (rt s) with
  | (Err e, r) => (Some ("failed to find target containers: " +:+ e), with_rt r s)
  | (Ok targetContainers, r) =>
      (None, updateServiceStatus service targetContainers (with_rt r s))
  end.

(** [reconcileServices]: one tick of the service controller, over
    the snapshot it copied from the map. *)
Definition reconcileServices (snapshot : list api.Service) (s : Server) : Server :=
  foldl (fun s service => (reconcileService service s).2) s snapshot.

(** A snapshot of a map: its values in some order. *)
Definition snapshot_of {V} (m : gmap string V) (snapshot : list V) : Prop :=
  snapshot ≡ₚ (map_to_list m).*2.
End controllers.

End server.

(** ** Sample data

    Concrete resources, codecs, daemons and file systems on which the
    definitions are run. *)
Module fixtures.
Import runtime storage server.

Definition meta (name : string) : api.ObjectMeta :=
  {| api.Name := name; api.CreationTimestamp := None; api.Labels := ∅ |}.
Definition untyped : api.TypeMeta := {| api.APIVersion := ""; api.Kind := "" |}.

Definition nginx : api.Container :=
  {| api.Container_Name := "nginx"; api.Image := "nginx:1.25"; api.Env := [] |}.
Definition template : api.PodTemplateSpec :=
  {| api.Template_Meta := meta ""; api.Template_Spec := {| api.Containers := [nginx] |} |}.

Definition pod (name : string) : api.Pod :=
  api.Build_Object untyped (meta name) {| api.Containers := [nginx] |} {| api.Phase := "" |}.
Definition deployment (replicas : option Z) (name : string) : api.Deployment :=
  api.Build_Object untyped (meta name)
    {| api.Replicas := replicas; api.Selector := ∅; api.Template := template |}
    {| api.ReadyReplicas := 0 |}.
Definition statefulset (replicas : option Z) (name : string) : api.StatefulSet :=
  api.Build_Object untyped (meta name)
    {| api.SS_Replicas := replicas; api.SS_Selector := ∅; api.SS_Template := template;
       api.ServiceName := "" |}
    {| api.SS_ReadyReplicas := 0 |}.
Definition service (type : string) (selector : gmap string string) (name : string)
  : api.Service :=
  api.Build_Object untyped (meta name)
    {| api.Svc_Selector := selector; api.Svc_Type := type;
       api.Ports := [ {| api.Port := 80; api.Protocol := "TCP" |} ] |}
    {| api.Ingress := [] |}.
Definition node (name : string) : api.Node :=
  api.Build_Object untyped (meta name) {| api.Unschedulable := false |}
    {| api.Capacity := ∅; api.Allocatable := ∅; api.Conditions := [];
       api.NodeInfo := {| api.MachineID := ""; api.SystemUUID := ""; api.BootID := "";
                          api.Node_KernelVersion := ""; api.OSImage := "";
                          api.ContainerRuntimeVersion := ""; api.Node_Architecture := "";
                          api.Node_OperatingSystem := "" |} |}.

(** A toy codec: a resource is written as its name, and the empty
    text does not parse. *)
Definition named {T} (make : string -> T) (data : string) : result T :=
  if String.eqb data "" then Err "unexpected end of JSON input" else Ok (make data).

#[export] Instance pod_codec : Codec api.Pod :=
  {| Marshal p := Ok (api.name_of p); Unmarshal := named pod; UnmarshalYAML := named pod |}.
#[export] Instance deployment_codec : Codec api.Deployment :=
  {| Marshal d := Ok (api.name_of d); Unmarshal := named (deployment None);
     UnmarshalYAML := named (deployment None) |}.
#[export] Instance statefulset_codec : Codec api.StatefulSet :=
  {| Marshal d := Ok (api.name_of d); Unmarshal := named (statefulset None);
     UnmarshalYAML := named (statefulset None) |}.
#[export] Instance service_codec : Codec api.Service :=
  {| Marshal d := Ok (api.name_of d);
     Unmarshal := named (service api.ServiceTypeClusterIP ∅);
     UnmarshalYAML := named (service api.ServiceTypeClusterIP ∅) |}.
#[export] Instance node_codec : Codec api.Node :=
  {| Marshal d := Ok (api.name_of d); Unmarshal := named node; UnmarshalYAML := named node |}.

Definition scale_of (data : string) : result ScaleRequest :=
  match strconv.ParseInt data with
  | (n, None) => Ok {| Scale_Replicas := n |}
  | _ => Err "invalid character"
  end.
#[export] Instance scale_codec : Codec ScaleRequest :=
  {| Marshal r := Ok (pretty (Scale_Replicas r)); Unmarshal := scale_of;
     UnmarshalYAML := scale_of |}.

(** An untyped manifest is its text; its kind is the part before the
    first slash, if there is a slash. *)
Fixpoint before_slash (s : string) : option string :=
  match s with
  | EmptyString => None
  | String c rest =>
      if Ascii.eqb c "/" then Some EmptyString
      else String c <$> before_slash rest
  end.
#[export] Instance manifest_codec : Codec string :=
  {| Marshal m := Ok m; Unmarshal := named id; UnmarshalYAML := named id |}.

Definition request (name body : string) : Request :=
  {| ContentType := "application/json"; URLPath := ""; VarName := name; Body := body |}.

(** Daemons. *)
Definition daemon (table : list containerd.container) : containerd.Client :=
  {| containerd.serving := true; containerd.version := "v1.7";
     containerd.images := ∅; containerd.registry := {["nginx:1.25"]};
     containerd.table := table |}.
Definition unreachable_daemon : containerd.Client :=
  {| containerd.serving := false; containerd.version := "v1.7";
     containerd.images := ∅; containerd.registry := ∅; containerd.table := [] |}.
Definition running (id : string) (labels : gmap string string) : containerd.container :=
  {| containerd.c_id := id; containerd.c_image := "nginx:1.25";
     containerd.c_labels := labels; containerd.c_task := Some containerd.Running |}.

(** A running container with an owner label, as an earlier run or
    another tool may have left it. *)
Definition owned (owner_key owner pod_name : string) : containerd.container :=
  running (pod_name +:+ "-nginx")
          {[ owner_key := owner; "synthesis.pod" := pod_name;
             "synthesis.container" := "nginx"; "managed-by" := "synthesis";
             "app" := "web" ]}.

(** The deployment [frontend] with pods 1 and 2 but no pod 0. *)
Definition frontend_gap : containerd.Client :=
  daemon [ owned "synthesis.deployment" "frontend" "frontend-1";
           owned "synthesis.deployment" "frontend" "frontend-2" ].

(** The stateful set [database] with pods 0, 1 and 2, listed in that
    order. *)
Definition database_three : containerd.Client :=
  daemon [ owned "synthesis.statefulset" "database" "database-0";
           owned "synthesis.statefulset" "database" "database-1";
           owned "synthesis.statefulset" "database" "database-2" ].

(** File systems: one on which nothing can be created or written, a
    fresh one, and one whose [pods] directory cannot be read. *)
Definition dead_fs : FileSystem := {| can_mkdir := false; root := None |}.
Definition fresh_fs : FileSystem := {| can_mkdir := true; root := None |}.
Definition locked_dir : DirState := {| readable := false; writable := true; children := ∅ |}.
Definition fs_unreadable_pods : FileSystem :=
  {| can_mkdir := true; root := Some {[ "pods" := locked_dir ]} |}.
(** A [pods] directory with a good file, a file that does not parse
    (it is empty), a file that cannot be read, a file of another
    extension and a subdirectory; and a node file. *)
Definition fs_mixed : FileSystem :=
  {| can_mkdir := true;
     root := Some {[ "pods" :=
                       {| readable := true; writable := true;
                          children := {[ "web.json" := RegularFile (Some "web");
                                         "bad.json" := RegularFile (Some "");
                                         "locked.json" := RegularFile None;
                                         "notes.txt" := RegularFile (Some "n");
                                         "old.json" := SubDirectory ]} |};
                     "nodes" :=
                       {| readable := true; writable := true;
                          children := {[ "local-node.json" :=
                                           RegularFile (Some "local-node") ]} |} ]} |}.

Definition cfg : Config :=
  {| ListenAddr := ":8080"; Debug := false; DataDir := "./data";
     Runtime := {| SocketPath := "/run/containerd/containerd.sock"; Timeout := 30;
                   DefaultNetwork := "synthesis";
                   DefaultLabels := {[ "managed-by" := "synthesis" ]} |} |}.

(** A server with empty maps over a runtime and a file system. *)
Definition blank {R} (r : R) (fs : FileSystem) : Server R :=
  {| config := cfg; rt := r; store := fs; pods := ∅; deployments := ∅;
     statefulsets := ∅; services := ∅; nodes := ∅ |}.

(** A server that stores the service [web-svc] of the given type,
    selecting [app=web], over the three containers above. *)
Definition web_svc (type : string) : api.Service :=
  service type {[ "app" := "web" ]} "web-svc".
Definition serving_web (type : string) : Server containerd.Client :=
  with_services {[ "web-svc" := web_svc type ]} (blank database_three fresh_fs).

(** What the daemon lists for the stateful set [database]. *)
Definition database_listing : list ContainerInfo :=
  Eval vm_compute in
    match containerd.ListContainers
            (label_filter {[ "synthesis.statefulset" := "database" ]}) database_three with
    | (Ok cs, _) => cs
    | (Err _, _) => []
    end.

(** The mixed data directory once [NewFileStorage] has made the
    missing directories. *)
Definition fs_mixed_ready : FileSystem :=
  Eval vm_compute in
    match NewFileStorage fs_mixed with
    | Ok fs => fs
    | Err _ => fs_mixed
    end.


(** *** Further sample data *)

(** A pod as the server stores it, and a codec that writes a pod as
    its name and reads a name as that pod. *)
Definition stamped_pod (name : string) : api.Pod := setDefaultsForPod 0 (pod name).
Definition stamped_pod_codec : Codec api.Pod :=
  {| Marshal p := Ok (api.name_of p); Unmarshal := named stamped_pod;
     UnmarshalYAML := named stamped_pod |}.

(** The server started over the mixed data directory, which holds the
    pod [web]. *)
Definition started : Server containerd.Client :=
  Eval vm_compute in
    match NewServer cfg (daemon []) fs_mixed with
    | Ok s => s
    | Err _ => blank (daemon []) fs_mixed
    end.

(** A server that holds the deployment [web] with one replica. *)
Definition serving_deployment : Server containerd.Client :=
  with_deployments {[ "web" := deployment (Some 1) "web" ]} (blank (daemon []) dead_fs).

(** A fresh data directory once the storage is set up, and the server
    that starts over it after [POST /pods] of the pod [web] at time 7. *)
Definition fs_ready : FileSystem :=
  Eval vm_compute in
    match NewFileStorage fresh_fs with
    | Ok fs => fs
    | Err _ => fresh_fs
    end.
Definition restarted : Server containerd.Client :=
  Eval vm_compute in
    match NewServer (Codec0 := stamped_pod_codec) cfg (daemon [])
            (store (createPodHandler (Codec0 := stamped_pod_codec) 7 (request "" "web")
                      (blank (daemon []) fs_ready)).2) with
    | Ok s => s
    | Err _ => blank (daemon []) fs_ready
    end.


(** A float parser that accepts nothing, for limits in millicores. *)
Definition no_float (s : string) : result unit := Err "strconv.ParseFloat: invalid syntax".

End fixtures.

(** ** Vocabulary of the statements *)

(** The routes that create or update a resource. *)
Definition writes (route : server.Route) : bool :=
  match route with
  | server.POST_pods | server.PUT_pod
  | server.POST_services | server.PUT_service
  | server.POST_deployments | server.PUT_deployment
  | server.POST_statefulsets | server.PUT_statefulset
  | server.POST_workloads | server.PUT_workload
  | server.POST_apply => true
  | _ => false
  end.

(** The routes by which the resource that a response carries is read,
    by name and in the list of its kind, and that name. *)
Definition read_back (sent : server.Payload)
  : option (server.Route * server.Route * string) :=
  match sent with
  | server.PodJSON pod => Some (server.GET_pod, server.GET_pods, api.name_of pod)
  | server.DeploymentJSON d =>
      Some (server.GET_deployment, server.GET_deployments, api.name_of d)
  | server.StatefulSetJSON ss =>
      Some (server.GET_statefulset, server.GET_statefulsets, api.name_of ss)
  | server.ServiceJSON svc => Some (server.GET_service, server.GET_services, api.name_of svc)
  | _ => None
  end.

(** A resource is an item of a list response. *)
Definition listed_in (sent listing : server.Payload) : Prop :=
  match sent, listing with
  | server.PodJSON pod, server.PodListJSON items => pod ∈ items
  | server.DeploymentJSON d, server.DeploymentListJSON items => d ∈ items
  | server.StatefulSetJSON ss, server.StatefulSetListJSON items => ss ∈ items
  | server.ServiceJSON svc, server.ServiceListJSON items => svc ∈ items
  | _, _ => False
  end.

(** Two servers that agree on everything but the storage. *)
Definition same_memory {R} (s1 s2 : server.Server R) : Prop :=
  server.config s1 = server.config s2 /\ server.rt s1 = server.rt s2 /\
  server.pods s1 = server.pods s2 /\ server.deployments s1 = server.deployments s2 /\
  server.statefulsets s1 = server.statefulsets s2 /\
  server.services s1 = server.services s2 /\ server.nodes s1 = server.nodes s2.

(** The multiplier the specification gives each unit suffix. *)
Definition unit_multiplier (suffix : string) : Z :=
  if String.eqb suffix "Ki" then 1024
  else if String.eqb suffix "Mi" then 1024 ^ 2
  else if String.eqb suffix "Gi" then 1024 ^ 3
  else 1.

(** The unit suffix of a limit, tried in the order of the code. *)
Definition unit_suffix (memLimit : string) : string :=
  if gostrings.HasSuffix memLimit "Ki" then "Ki"
  else if gostrings.HasSuffix memLimit "Mi" then "Mi"
  else if gostrings.HasSuffix memLimit "Gi" then "Gi"
  else "".

(** The four directories that start-up reads. *)
Definition loaded_kinds : list string := ["pods"; "deployments"; "statefulsets"; "services"].

(** Every directory that start-up reads can be read. *)
Definition readable_dirs (fs : storage.FileSystem) : bool :=
  forallb (fun category => is_ok (storage.ReadDir fs category)) loaded_kinds.

(** The names [listFiles] gives for a directory that can be read. *)
Definition listed (fs : storage.FileSystem) (category : string) : list string :=
  match storage.listFiles category fs with
  | Ok files => files
  | Err _ => []
  end.

(** The type and status of a node's conditions. *)
Definition condition_summary (node : api.Node) : list (string * string) :=
  (fun c => (api.Cond_Type c, api.Cond_Status c)) <$> api.Conditions (api.Status node).

(** A map of resources in which every resource is stored under its
    own name, as every handler and [loadState] store it. *)
Definition keyed_by_name {A B} (m : gmap string (api.Object A B)) : Prop :=
  forall (key : string) (o : api.Object A B), m !! key = Some o -> api.name_of o = key.

(** What a tick of the service controller makes of a stored service,
    [up] telling whether the runtime answered the listing. *)
Definition status_rule (up : bool) (svc : api.Service) : api.Service :=
  if up && String.eqb (api.Svc_Type (api.Spec svc)) api.ServiceTypeNodePort
  then api.with_Status {| api.Ingress := [ {| api.IP := "127.0.0.1"; api.Hostname := "" |} ] |} svc
  else svc.

(** The calls a scale-down makes for its victims, in their order: each
    is stopped with a timeout of 30 and, unless the stop failed,
    removed right after. *)
Inductive scale_down_calls : list runtime.ContainerInfo -> list runtime.Call -> Prop :=
| sdc_done : scale_down_calls [] []
| sdc_stop_failed (c : runtime.ContainerInfo) (cs : list runtime.ContainerInfo)
    (calls : list runtime.Call) :
    scale_down_calls cs calls ->
    scale_down_calls (c :: cs) (runtime.CallStop (runtime.ID c) 30 :: calls)
| sdc_stopped (c : runtime.ContainerInfo) (cs : list runtime.ContainerInfo)
    (calls : list runtime.Call) :
    scale_down_calls cs calls ->
    scale_down_calls (c :: cs)
      (runtime.CallStop (runtime.ID c) 30 :: runtime.CallRemove (runtime.ID c) :: calls).

(** The pod names of the create calls of a log, in order. *)
Definition created_pods (calls : list runtime.Call) : list string :=
  omap (fun call => match call with
                    | runtime.CallCreate _ podName => Some podName
                    | _ => None
                    end) calls.

(** The ids of the stop calls of a log, in order. *)
Definition stopped_ids (calls : list runtime.Call) : list string :=
  omap (fun call => match call with
                    | runtime.CallStop containerID _ => Some containerID
                    | _ => None
                    end) calls.

(** The lowest ordinal of [0, desired) that is not in use, as the
    specification words the choice of a new pod's ordinal. *)
Definition lowest_unused (used : list Z) (desired : Z) : option Z :=
  List.find (fun ordinal => negb (existsb (Z.eqb ordinal) used)) (seqZ 0 desired).

(** Every pod of the list is named by the workload and an ordinal
    counted up from the number of listed containers. *)
Definition names_follow_count (workloadName : string) (current desired : Z)
    (pods : list string) : Prop :=
  Forall (fun pod => exists i, 0 <= i < desired - current /\
                               pod = server.podName workloadName (current + i)) pods.

(** Every ordinal from the number of listed containers up to the
    desired count names a pod of the list. *)
Definition every_ordinal_named (workloadName : string) (current desired : Z)
    (pods : list string) : Prop :=
  forall i, 0 <= i < desired - current -> server.podName workloadName (current + i) ∈ pods.

(** An outcome that is a return. *)
Definition returned {A} (o : server.outcome A) : bool :=
  match o with server.Returned _ => true | server.Panicked _ => false end.

(** The pod labels of a listing, and its length; an error lists
    nothing. *)
Definition listed_pods (listing : result (list runtime.ContainerInfo)) : list string :=
  match listing with
  | Ok cs => (fun c => runtime.index (runtime.CI_Labels c) "synthesis.pod") <$> cs
  | Err _ => []
  end.
Definition listing_length (listing : result (list runtime.ContainerInfo)) : nat :=
  match listing with
  | Ok cs => length cs
  | Err _ => O
  end.

(** ** Vocabulary of the further properties *)

(** A name without path separator: the file of an object of that name
    lies in the directory of its kind. *)
Definition plain_name (name : string) : bool :=
  negb (existsb (Ascii.eqb "/") (list_ascii_of_string name)).

(** The file of an object's name holds a regular file. *)
Definition has_file (d : storage.DirState) (name : string) : Prop :=
  exists data, storage.children d !! (name +:+ ".json") = Some (storage.RegularFile data).

(** An object that decodes from its own encoding. *)
Definition round_trips {T} `{!Codec T} (obj : T) : Prop :=
  forall data, Marshal obj = Ok data -> Unmarshal data = Ok obj.

(** Every map of the server stores every resource under its own name. *)
Definition well_keyed {R} (s : server.Server R) : Prop :=
  keyed_by_name (server.pods s) /\ keyed_by_name (server.deployments s) /\
  keyed_by_name (server.statefulsets s) /\ keyed_by_name (server.services s) /\
  keyed_by_name (server.nodes s).

(** Every file of a kind's directory that loads holds an object named
    as the file, as [storeObject] writes it. *)
Definition files_named {A B} `{!Codec (api.Object A B)} (category : string)
    (fs : storage.FileSystem) : Prop :=
  forall (file : string) (o : api.Object A B),
    storage.getObject category file fs = Ok o -> api.name_of o = file.

Section runs.
Context {R : Type} `{!runtime.ContainerRuntime R}.
Context `{!Codec api.Pod, !Codec api.Deployment, !Codec api.StatefulSet,
          !Codec api.Service, !Codec api.Node, !Codec server.ScaleRequest}.
Context {Manifest : Type} `{!Codec Manifest} (kindOf : Manifest -> option string).

(** What the server's goroutines do to its state, one at a time: a
    request is handled, the node reporter ticks, the service
    controller reconciles a service of its snapshot, the workload
    controller ticks. *)
Inductive step : server.Server R -> server.Server R -> Prop :=
| step_request (route : server.Route) (now : Z) (r : server.Request) (s : server.Server R) :
    step s (server.SetupRoutes kindOf route now r s).2
| step_node (now : Z) (s : server.Server R) :
    step s (server.updateNodeStatus now s)
| step_service (service : api.Service) (s : server.Server R) :
    step s (server.reconcileService service s).2
| step_workloads (ds : list api.Deployment) (sss : list api.StatefulSet)
    (s : server.Server R) :
    step s (server.reconcileWorkloads ds sss s).2.

(** The states a server goes through from its start. *)
Inductive reachable : server.Server R -> Prop :=
| reachable_start (cfg : server.Config) (runtime : R) (fs : storage.FileSystem)
    (s : server.Server R) :
    server.NewServer cfg runtime fs = Ok s -> reachable s
| reachable_step (s s' : server.Server R) :
    reachable s -> step s s' -> reachable s'.
End runs.

(** The read route of the kind a delete route deletes. *)
Definition read_of_delete (route : server.Route) : option server.Route :=
  match route with
  | server.DELETE_pod => Some server.GET_pod
  | server.DELETE_deployment => Some server.GET_deployment
  | server.DELETE_statefulset => Some server.GET_statefulset
  | server.DELETE_service => Some server.GET_service
  | server.DELETE_workload => Some server.GET_workload
  | _ => None
  end.

(** The name of the resource a response carries, if it carries one. *)
Definition sent_name (sent : server.Payload) : option string :=
  match sent with
  | server.PodJSON pod => Some (api.name_of pod)
  | server.DeploymentJSON d => Some (api.name_of d)
  | server.StatefulSetJSON ss => Some (api.name_of ss)
  | server.ServiceJSON svc => Some (api.name_of svc)
  | server.NodeJSON node => Some (api.name_of node)
  | _ => None
  end.

(** A JSON request for the same name with another body. *)
Definition as_json (r : server.Request) (data : string) : server.Request :=
  {| server.ContentType := "application/json"; server.URLPath := "";
     server.VarName := server.VarName r; server.Body := data |}.

(** A kind-dispatching route does what a typed route does: the server
    after it is the same; it rejects what the typed route rejects and
    otherwise sends the same resource. *)
Definition same_outcome {R} (generic typed : server.Response * server.Server R) : Prop :=
  generic.2 = typed.2 /\
  (server.StatusCode typed.1 = 400 -> server.StatusCode generic.1 = 400) /\
  (server.StatusCode typed.1 <> 400 -> server.Sent generic.1 = server.Sent typed.1).

(** The calls that bring up the containers of pods: for each container
    the image is pulled and the container created; a created container
    is started; a container whose start failed is removed right
    away. *)
Inductive bring_up_calls : list runtime.Call -> Prop :=
| buc_done : bring_up_calls []
| buc_create_failed (spec : api.Container) (podName : string) (calls : list runtime.Call) :
    bring_up_calls calls ->
    bring_up_calls (runtime.CallPull (api.Image spec) :: runtime.CallCreate spec podName
                    :: calls)
| buc_started (spec : api.Container) (podName containerID : string)
    (calls : list runtime.Call) :
    bring_up_calls calls ->
    bring_up_calls (runtime.CallPull (api.Image spec) :: runtime.CallCreate spec podName
                    :: runtime.CallStart containerID :: calls)
| buc_start_failed (spec : api.Container) (podName containerID : string)
    (calls : list runtime.Call) :
    bring_up_calls calls ->
    bring_up_calls (runtime.CallPull (api.Image spec) :: runtime.CallCreate spec podName
                    :: runtime.CallStart containerID :: runtime.CallRemove containerID
                    :: calls).

(** The filters of the list calls of a log, in order. *)
Definition listed_filters (calls : list runtime.Call) : list runtime.ContainerFilter :=
  omap (fun call => match call with
                    | runtime.CallList filters => Some filters
                    | _ => None
                    end) calls.

(** The filter by which each reconciler lists its containers. *)
Definition deployment_filter (deployment : api.Deployment) : runtime.ContainerFilter :=
  runtime.label_filter {[ "synthesis.deployment" := api.name_of deployment ]}.
Definition statefulset_filter (statefulset : api.StatefulSet) : runtime.ContainerFilter :=
  runtime.label_filter {[ "synthesis.statefulset" := api.name_of statefulset ]}.

(** Every pair of a selector is a label of the container, a label
    that is missing reading as the empty string. *)
Definition selects (selector labels : gmap string string) : Prop :=
  forall key value, selector !! key = Some value -> runtime.index labels key = value.

(** What [InspectContainer] reports of an entry of the daemon's
    table. *)
Definition info_of (k : containerd.container) : runtime.ContainerInfo :=
  {| runtime.ID := containerd.c_id k;
     runtime.CI_Name := containerd.c_id k;
     runtime.CI_Image := containerd.c_image k;
     runtime.CI_Status :=
       match containerd.c_task k with
       | Some taskStatus => containerd.convertProcessStatus taskStatus
       | None => runtime.ContainerStatusCreated
       end;
     runtime.CI_Labels := containerd.c_labels k |}.

(** The unit suffixes of a memory limit. *)
Definition unit_suffixes : list string := [""; "Ki"; "Mi"; "Gi"].

(** * Properties *)

Import runtime storage server fixtures.

(** ** Strings and integers *)

Lemma gostrings_take_drop (n : nat) (s : string) :
  gostrings.take n s +:+ gostrings.drop n s = s.
Proof.
  revert s. induction n as [|n IH]; intros [|c s]; try reflexivity.
  change (String c (gostrings.take n s +:+ gostrings.drop n s) = String c s).
  f_equal. apply IH.
Qed.

Lemma HasSuffix_split (s suffix : string) :
  gostrings.HasSuffix s suffix = true ->
  s = gostrings.take (String.length s - String.length suffix) s +:+ suffix.
Proof.
  unfold gostrings.HasSuffix. intros H.
  apply andb_true_iff in H as [_ H]. apply String.eqb_eq in H.
  pose proof (gostrings_take_drop (String.length s - String.length suffix) s) as E.
  rewrite H in E. now symmetry.
Qed.

Lemma wrap64_id (x : Z) : in_int64 x -> wrap64 x = x.
Proof.
  unfold in_int64, int64_min, int64_max, wrap64, wrap. intros H.
  rewrite Z.mod_small; lia.
Qed.

Lemma wrap32_id (x : Z) : in_int32 x -> wrap32 x = x.
Proof.
  unfold in_int32, int32_min, int32_max, wrap32, wrap. intros H.
  rewrite Z.mod_small; lia.
Qed.

Lemma wrap64_range (x : Z) : in_int64 (wrap64 x).
Proof.
  unfold in_int64, int64_min, int64_max, wrap64, wrap.
  pose proof (Z.mod_pos_bound (x + 2 ^ (64 - 1)) (2 ^ 64)). lia.
Qed.

Lemma digits_range (s : string) (n un : Z) (err : option strconv.NumError) :
  0 <= n <= strconv.maxUint64 ->
  strconv.digits n s = (un, err) ->
  0 <= un <= strconv.maxUint64 /\ (err = Some strconv.ErrRange -> un = strconv.maxUint64).
Proof.
  unfold strconv.maxUint64.
  revert n. induction s as [|c s IH]; cbn [strconv.digits]; intros n Hn.
  - intros [= <- <-]. split; [exact Hn|discriminate].
  - unfold strconv.digit, strconv.maxUint64.
    destruct (_ && _) eqn:Hc; [|intros [= <- <-]; split; [lia|discriminate]].
    apply andb_true_iff in Hc as [Hc1 Hc2].
    destruct (_ <=? n) eqn:Hcut; [intros [= <- <-]; split; [lia|reflexivity]|].
    destruct (_ <? _) eqn:Hmax; [intros [= <- <-]; split; [lia|reflexivity]|].
    apply IH. lia.
Qed.

Lemma ParseUint_range (s : string) (un : Z) (err : option strconv.NumError) :
  strconv.ParseUint s = (un, err) ->
  0 <= un <= strconv.maxUint64 /\ (err = Some strconv.ErrRange -> un = strconv.maxUint64).
Proof.
  unfold strconv.ParseUint.
  destruct s as [|c s]; [intros [= <- <-]; unfold strconv.maxUint64; split; [lia|discriminate]|].
  apply digits_range. unfold strconv.maxUint64. lia.
Qed.

(** An accepted integer is a signed 64-bit value. *)
Lemma ParseInt_range (s : string) (n : Z) :
  strconv.ParseInt s = (n, None) -> in_int64 n.
Proof.
  unfold strconv.ParseInt, in_int64, int64_min, int64_max.
  destruct s as [|c rest]; [discriminate|].
  destruct (strconv.ParseUint _) as [un err] eqn:HU.
  apply ParseUint_range in HU as [Hun Herr]. unfold strconv.maxUint64 in *.
  destruct err as [[]|]; [discriminate| |].
  - rewrite Herr by reflexivity.
    destruct (Ascii.eqb c "-"); simpl; discriminate.
  - destruct (Ascii.eqb c "-"); simpl.
    + destruct (2 ^ 63 <? un) eqn:Hc; [discriminate|]. intros [= <-]. lia.
    + destruct (2 ^ 63 <=? un) eqn:Hc; [discriminate|]. intros [= <-]. lia.
Qed.

(** *** [ParseInt] reads back what [%d] prints *)

Lemma digit_pretty_N_char (x : N) :
  (x < 10)%N -> strconv.digit (pretty_N_char x) = Some (Z.of_N x).
Proof.
  intros H.
  assert (x = 0 \/ x = 1 \/ x = 2 \/ x = 3 \/ x = 4 \/ x = 5 \/ x = 6 \/ x = 7 \/ x = 8
          \/ x = 9)%N as Hc by lia.
  repeat (destruct Hc as [->|Hc]; [reflexivity|]). subst x. reflexivity.
Qed.

Lemma digit_is_no_sign (c : ascii) (d : Z) :
  strconv.digit c = Some d -> Ascii.eqb c "+" = false /\ Ascii.eqb c "-" = false.
Proof.
  destruct c as [[] [] [] [] [] [] [] []]; cbn; intros H; try discriminate H; auto.
Qed.

Lemma digits_pretty_N_go (x : N) :
  exists k : Z,
    0 <= k /\
    forall (n : Z) (s : string),
      0 <= n -> n * 10 ^ k + Z.of_N x <= strconv.maxUint64 ->
      strconv.digits n (pretty_N_go x s) = strconv.digits (n * 10 ^ k + Z.of_N x) s.
Proof.
  induction (N.lt_wf_0 x) as [x _ IH].
  destruct (decide (x = 0)%N) as [->|Hx].
  - exists 0. split; [lia|]. intros n s Hn _. rewrite pretty_N_go_0. f_equal. lia.
  - destruct (IH (x `div` 10)%N) as (k & Hk & Hrec); [apply N.div_lt; lia|].
    exists (k + 1). split; [lia|]. intros n s Hn Hmax.
    rewrite Z.pow_add_r, Z.pow_1_r in Hmax |- * by lia.
    assert (0 <= n * 10 ^ k) as Hpow by (apply Z.mul_nonneg_nonneg; lia).
    pose proof (N.div_mod x 10 ltac:(lia)) as Hdm.
    pose proof (N.mod_lt x 10 ltac:(lia)) as Hm.
    rewrite pretty_N_go_step by lia.
    assert (Z.of_N x = 10 * Z.of_N (x `div` 10) + Z.of_N (x `mod` 10)
            /\ 0 <= Z.of_N (x `div` 10) /\ 0 <= Z.of_N (x `mod` 10) < 10) as (Hx' & Hq & Hr).
    { split; [|split; [apply N2Z.is_nonneg|split; [apply N2Z.is_nonneg|]]].
      - rewrite Hdm at 1. now rewrite N2Z.inj_add, N2Z.inj_mul.
      - change 10 with (Z.of_N 10). now apply N2Z.inj_lt. }
    pose proof (digit_pretty_N_char _ Hm) as Hdig.
    unfold strconv.maxUint64 in Hmax, Hrec.
    change (2 ^ 64 - 1) with 18446744073709551615 in Hmax, Hrec.
    rewrite Hx' in Hmax |- *.
    set (q := Z.of_N (x `div` 10)) in *. set (m := Z.of_N (x `mod` 10)) in *.
    set (a := n * 10 ^ k) in *. clearbody q m a.
    rewrite Hrec by lia.
    cbn [strconv.digits]. rewrite Hdig.
    unfold strconv.maxUint64. change ((2 ^ 64 - 1) / 10 + 1) with 1844674407370955162.
    change (2 ^ 64 - 1) with 18446744073709551615.
    destruct (_ <=? _) eqn:Hcut; [apply Z.leb_le in Hcut; lia|].
    destruct (_ <? _) eqn:Htop; [apply Z.ltb_lt in Htop; lia|].
    f_equal. lia.
Qed.

Lemma ParseUint_pretty (x : N) :
  Z.of_N x <= strconv.maxUint64 -> strconv.ParseUint (pretty x) = (Z.of_N x, None).
Proof.
  intros Hmax. unfold pretty, pretty_N.
  destruct (decide (x = 0)%N) as [->|Hx]; [reflexivity|].
  destruct (digits_pretty_N_go x) as (k & _ & Hrec).
  specialize (Hrec 0 "" ltac:(lia) ltac:(lia)). cbn [strconv.digits] in Hrec.
  rewrite Z.mul_0_l, Z.add_0_l in Hrec.
  unfold strconv.ParseUint. destruct (pretty_N_go x "") as [|c rest]; [|exact Hrec].
  cbn in Hrec. injection Hrec as Hrec. lia.
Qed.

(** Every signed 64-bit integer, printed in decimal, is accepted and
    parses to itself. *)
Lemma ParseInt_pretty (z : Z) :
  in_int64 z -> strconv.ParseInt (pretty z) = (z, None).
Proof.
  unfold in_int64, int64_min, int64_max. intros Hz.
  destruct z as [|p|p]; [reflexivity| |].
  - change (pretty (Z.pos p)) with (pretty (N.pos p)).
    pose proof (ParseUint_pretty (N.pos p)) as HU. unfold strconv.maxUint64 in HU.
    specialize (HU ltac:(lia)).
    unfold strconv.ParseInt. destruct (pretty (N.pos p)) as [|c rest]; [discriminate HU|].
    assert (exists d, strconv.digit c = Some d) as [d Hd].
    { unfold strconv.ParseUint in HU. cbn [strconv.digits] in HU.
      destruct (strconv.digit c); [eauto|discriminate HU]. }
    destruct (digit_is_no_sign c d Hd) as [-> ->]. rewrite HU. cbn [negb andb].
    change (Z.of_N (N.pos p)) with (Z.pos p).
    destruct (2 ^ 63 <=? Z.pos p) eqn:Hc; [apply Z.leb_le in Hc; lia|reflexivity].
  - change (pretty (Z.neg p)) with (String "-" (pretty (N.pos p))).
    pose proof (ParseUint_pretty (N.pos p)) as HU. unfold strconv.maxUint64 in HU.
    specialize (HU ltac:(lia)).
    unfold strconv.ParseInt. cbn [Ascii.eqb Bool.eqb]. rewrite HU. cbn [negb andb].
    change (Z.of_N (N.pos p)) with (Z.pos p).
    destruct (2 ^ 63 <? Z.pos p) eqn:Hc; [apply Z.ltb_lt in Hc; lia|reflexivity].
Qed.

(** ** Memory limits (C8) *)

Lemma parseMemoryLimit_same (memLimit : string) :
  containerd.parseMemoryLimit memLimit = docker.parseMemoryLimit memLimit.
Proof. reflexivity. Qed.

Lemma unit_suffix_split (memLimit : string) :
  memLimit = gostrings.take (String.length memLimit - String.length (unit_suffix memLimit)) memLimit
             +:+ unit_suffix memLimit.
Proof.
  unfold unit_suffix.
  destruct (gostrings.HasSuffix memLimit "Ki") eqn:HK; [now apply HasSuffix_split|].
  destruct (gostrings.HasSuffix memLimit "Mi") eqn:HM; [now apply HasSuffix_split|].
  destruct (gostrings.HasSuffix memLimit "Gi") eqn:HG; [now apply HasSuffix_split|].
  simpl String.length. rewrite Nat.sub_0_r.
  rewrite <- (gostrings_take_drop (String.length memLimit) memLimit) at 1.
  f_equal. clear. induction memLimit as [|c s IH]; simpl; auto.
Qed.

Lemma parseMemoryLimit_unfold (memLimit : string) :
  docker.parseMemoryLimit memLimit =
  match strconv.ParseInt
          (gostrings.take (String.length memLimit - String.length (unit_suffix memLimit))
                          memLimit) with
  | (mem, None) => Ok (wrap64 (mem * unit_multiplier (unit_suffix memLimit)))
  | (_, Some strconv.ErrSyntax) => Err "strconv.ParseInt: invalid syntax"
  | (_, Some strconv.ErrRange) => Err "strconv.ParseInt: value out of range"
  end.
Proof.
  unfold docker.parseMemoryLimit, unit_suffix.
  destruct (gostrings.HasSuffix memLimit "Ki"); [reflexivity|].
  destruct (gostrings.HasSuffix memLimit "Mi"); [reflexivity|].
  destruct (gostrings.HasSuffix memLimit "Gi"); [reflexivity|].
  simpl String.length. rewrite Nat.sub_0_r.
  replace (gostrings.take (String.length memLimit) memLimit) with memLimit; [reflexivity|].
  clear. induction memLimit as [|c s IH]; simpl; congruence.
Qed.

(** C8, as amended.  A limit that either driver accepts splits into a
    body and its unit suffix (Ki, Mi, Gi or none); the body parses as a
    signed 64-bit decimal integer [n]; the value is the 64-bit
    two's-complement product of [n] and the suffix's multiplier (1,
    1024, 1024^2, 1024^3), which is the product itself whenever that
    fits in 64 bits. *)
Theorem parseMemoryLimit_value (memLimit : string) (v : Z) :
  docker.parseMemoryLimit memLimit = Ok v ->
  containerd.parseMemoryLimit memLimit = Ok v /\
  exists (body : string) (n : Z),
    memLimit = body +:+ unit_suffix memLimit /\
    strconv.ParseInt body = (n, None) /\
    in_int64 n /\
    unit_multiplier (unit_suffix memLimit) ∈ [1; 1024; 1024 ^ 2; 1024 ^ 3] /\
    v = wrap64 (n * unit_multiplier (unit_suffix memLimit)) /\
    (in_int64 (n * unit_multiplier (unit_suffix memLimit)) ->
     v = n * unit_multiplier (unit_suffix memLimit)).
Proof.
  intros H. split; [now rewrite parseMemoryLimit_same|].
  rewrite parseMemoryLimit_unfold in H.
  set (body := gostrings.take _ memLimit) in H.
  destruct (strconv.ParseInt body) as [n [[]|]] eqn:HP; try discriminate.
  injection H as <-.
  exists body, n. split; [apply unit_suffix_split|].
  split; [exact HP|]. split.
  - now apply ParseInt_range with body.
  - split; [|split; [reflexivity|intros Hr; now apply wrap64_id]].
    unfold unit_multiplier, unit_suffix.
    destruct (gostrings.HasSuffix memLimit "Ki"); simpl; [set_solver|].
    destruct (gostrings.HasSuffix memLimit "Mi"); simpl; [set_solver|].
    destruct (gostrings.HasSuffix memLimit "Gi"); simpl; set_solver.
Qed.

(** The theorem at the limit ["512Mi"]. *)
Lemma parseMemoryLimit_value_witness :
  docker.parseMemoryLimit "512Mi" = Ok 536870912 /\
  containerd.parseMemoryLimit "512Mi" = Ok 536870912.
Proof.
  split; [vm_compute; reflexivity|].
  apply (parseMemoryLimit_value "512Mi" 536870912). vm_compute. reflexivity.
Defined.

(** C8 as stated fails where the product leaves 64 bits: the limit
    ["8589934592Gi"] is accepted, its leading integer is 2^33 and the
    multiplier 1024^3, and the parsed value is -2^63, not 2^63. *)
Lemma parseMemoryLimit_overflow :
  docker.parseMemoryLimit "8589934592Gi" = Ok (-9223372036854775808) /\
  containerd.parseMemoryLimit "8589934592Gi" = Ok (-9223372036854775808) /\
  strconv.ParseInt "8589934592" = (8589934592, None) /\
  8589934592 * 1024 ^ 3 = 9223372036854775808.
Proof. vm_compute. repeat split; reflexivity. Qed.

Example parse_1Gi : docker.parseMemoryLimit "1Gi" = Ok 1073741824.
Proof. vm_compute. reflexivity. Qed.
Example parse_1024 : docker.parseMemoryLimit "1024" = Ok 1024.
Proof. vm_compute. reflexivity. Qed.
Example parse_signed : docker.parseMemoryLimit "-3Ki" = Ok (-3072).
Proof. vm_compute. reflexivity. Qed.
Example parse_only_suffix : is_ok (docker.parseMemoryLimit "Ki") = false.
Proof. vm_compute. reflexivity. Qed.
Example parse_fraction : is_ok (docker.parseMemoryLimit "1.5Gi") = false.
Proof. vm_compute. reflexivity. Qed.
Example parse_range : is_ok (docker.parseMemoryLimit "9223372036854775808") = false.
Proof. vm_compute. reflexivity. Qed.


(** ** The API handlers (C5, C9) *)

Section api_properties.
Context {R : Type} `{!ContainerRuntime R}.
Context `{!Codec api.Pod, !Codec api.Deployment, !Codec api.StatefulSet,
          !Codec api.Service, !Codec api.Node, !Codec ScaleRequest}.
Context {Manifest : Type} `{!Codec Manifest} (kindOf : Manifest -> option string).

(** C9.  A scale request that decodes, for a name that is not in the
    map of its kind: the scale route answers 200 with the requested
    replica count, as for a name that exists, and returns the server
    (maps, storage, runtime) exactly as it was. *)
Theorem scale_of_absent_name (now : Z) (r : Request) (s : Server R) (scaleReq : ScaleRequest) :
  Unmarshal (Body r) = Ok scaleReq ->
  (deployments s !! VarName r = None ->
   SetupRoutes kindOf PUT_deployment_scale now r s
   = ({| StatusCode := 200; Sent := ScaleJSON (Scale_Replicas scaleReq) |}, s)) /\
  (statefulsets s !! VarName r = None ->
   SetupRoutes kindOf PUT_statefulset_scale now r s
   = ({| StatusCode := 200; Sent := ScaleJSON (Scale_Replicas scaleReq) |}, s)).
Proof.
  intros Hreq. cbn [SetupRoutes].
  unfold scaleDeploymentHandler, scaleStatefulSetHandler. cbv zeta.
  rewrite Hreq. split; intros ->; reflexivity.
Qed.

Lemma name_of_setDefaultsForPod (now : Z) (pod : api.Pod) :
  api.name_of (setDefaultsForPod now pod) = api.name_of pod.
Proof.
  unfold setDefaultsForPod.
  repeat case_match; reflexivity.
Qed.

Lemma name_of_setDefaultsForDeployment (now : Z) (d : api.Deployment) :
  api.name_of (setDefaultsForDeployment now d) = api.name_of d.
Proof.
  unfold setDefaultsForDeployment.
  repeat case_match; reflexivity.
Qed.

Lemma name_of_setDefaultsForStatefulSet (now : Z) (ss : api.StatefulSet) :
  api.name_of (setDefaultsForStatefulSet now ss) = api.name_of ss.
Proof.
  unfold setDefaultsForStatefulSet.
  repeat case_match; reflexivity.
Qed.

Lemma name_of_setDefaultsForService (now : Z) (svc : api.Service) :
  api.name_of (setDefaultsForService now svc) = api.name_of svc.
Proof.
  unfold setDefaultsForService.
  repeat case_match; reflexivity.
Qed.

Lemma name_of_with_Name {A B} (name : string) (o : api.Object A B) :
  api.name_of (api.with_Name name o) = name.
Proof. reflexivity. Qed.

(** Split on what a handler decodes, in the goal and, in step, in every
    other run of the same handler that the goal mentions. *)
Ltac split_decoding :=
  repeat match goal with
         | |- context [match decodeManifest ?r with _ => _ end] =>
             destruct (decodeManifest r) eqn:?
         | |- context [match kindOf ?m with _ => _ end] => destruct (kindOf m) eqn:?
         | |- context [if String.eqb ?a ?b then _ else _] => destruct (String.eqb a b) eqn:?
         | |- context [match Unmarshal ?d with _ => _ end] => destruct (Unmarshal d) eqn:?
         end.

Ltac rejected := left; split; reflexivity.

Lemma inserted_is_listed {V} (m : gmap string V) (key : string) (v : V) :
  v ∈ (map_to_list (<[key := v]> m)).*2.
Proof.
  apply list_elem_of_fmap. exists (key, v). split; [reflexivity|].
  apply elem_of_map_to_list, lookup_insert_eq.
Qed.

Ltac accepted get list :=
  right; split; [auto|];
  eexists get, list, _; split; [reflexivity|]; split;
  [ intros now' r' Hname; cbn [SetupRoutes];
    unfold getPodHandler, getDeploymentHandler, getStatefulSetHandler, getServiceHandler;
    rewrite Hname; cbn [pods deployments statefulsets services with_store with_pods
                        with_deployments with_statefulsets with_services fst snd];
    rewrite ?name_of_setDefaultsForPod, ?name_of_setDefaultsForDeployment,
      ?name_of_setDefaultsForStatefulSet, ?name_of_setDefaultsForService, ?name_of_with_Name;
    rewrite lookup_insert_eq; reflexivity
  | intros now' r'; cbn [SetupRoutes];
    unfold listPodsHandler, listDeploymentsHandler, listStatefulSetsHandler,
      listServicesHandler, writeJSON;
    eexists; split; [reflexivity|];
    cbn [listed_in pods deployments statefulsets services with_store with_pods
                   with_deployments with_statefulsets with_services fst snd];
    apply inserted_is_listed ].

(** C5.  For every route that creates or updates a resource, whatever
    the request and the server: the response and the server's memory
    are the same whatever state the storage is in (so also when the
    snapshot cannot be written); and either the manifest was rejected
    while decoding (400, nothing changed), or the response is a 200 or
    201 carrying the accepted resource, and from then on the read
    route of its kind answers 200 with that same resource under its
    name, and the list route of its kind with a list that holds it. *)
Theorem write_survives_storage_failure
    (route : Route) (now : Z) (r : Request) (s : Server R) :
  writes route = true ->
  (forall fs : FileSystem,
     (SetupRoutes kindOf route now r (with_store fs s)).1 = (SetupRoutes kindOf route now r s).1 /\
     same_memory (SetupRoutes kindOf route now r (with_store fs s)).2
                 (SetupRoutes kindOf route now r s).2) /\
  ((StatusCode (SetupRoutes kindOf route now r s).1 = 400 /\
    (SetupRoutes kindOf route now r s).2 = s)
   \/
   ((StatusCode (SetupRoutes kindOf route now r s).1 = 200 \/
     StatusCode (SetupRoutes kindOf route now r s).1 = 201) /\
    exists (get list : Route) (name : string),
      read_back (Sent (SetupRoutes kindOf route now r s).1) = Some (get, list, name) /\
      (forall (now' : Z) (r' : Request),
         VarName r' = name ->
         SetupRoutes kindOf get now' r' (SetupRoutes kindOf route now r s).2
         = ({| StatusCode := 200; Sent := Sent (SetupRoutes kindOf route now r s).1 |},
            (SetupRoutes kindOf route now r s).2)) /\
      (forall (now' : Z) (r' : Request),
         exists items,
           SetupRoutes kindOf list now' r' (SetupRoutes kindOf route now r s).2
           = ({| StatusCode := 200; Sent := items |}, (SetupRoutes kindOf route now r s).2) /\
           listed_in (Sent (SetupRoutes kindOf route now r s).1) items))).
Proof.
  intros Hw.
  destruct route; try discriminate Hw; cbn [SetupRoutes];
    unfold createPodHandler, updatePodHandler, createServiceHandler, updateServiceHandler,
      createDeploymentHandler, updateDeploymentHandler, createStatefulSetHandler,
      updateStatefulSetHandler, createGenericWorkloadHandler, updateGenericWorkloadHandler,
      applyManifestHandler, writeError, writeJSON; cbv zeta;
    split_decoding; cbn [fst snd StatusCode Sent];
    (split; [intros fs; split; [reflexivity|repeat split; reflexivity]|]);
    first [ rejected
          | accepted GET_pod GET_pods | accepted GET_deployment GET_deployments
          | accepted GET_statefulset GET_statefulsets | accepted GET_service GET_services ].
Qed.

(** The kind-agnostic read answers with the deployment of a name before
    a stateful set or a pod of that name. *)
Lemma generic_read_prefers_deployments (now : Z) (r : Request) (s : Server R)
    (deployment : api.Deployment) :
  deployments s !! VarName r = Some deployment ->
  SetupRoutes kindOf GET_workload now r s
  = ({| StatusCode := 200; Sent := DeploymentJSON deployment |}, s).
Proof.
  intros H. cbn [SetupRoutes]. unfold getGenericWorkloadHandler. cbv zeta. now rewrite H.
Qed.
End api_properties.

(** ** Start-up and the node reporter (C4, C7, C10) *)

Section lifecycle_properties.
Context {R : Type} `{!ContainerRuntime R}.
Context `{!Codec api.Pod, !Codec api.Deployment, !Codec api.StatefulSet,
          !Codec api.Service, !Codec api.Node, !Codec ScaleRequest}.

Lemma listFiles_ok (category : string) (fs : FileSystem) :
  is_ok (listFiles category fs) = is_ok (ReadDir fs category).
Proof. unfold listFiles. now destruct (ReadDir fs category). Qed.

(** A file is in the loaded list exactly if it is listed and loads:
    the others are skipped. *)
Lemma loadAll_skips {T} `{!Codec T} (category : string) (files : list string)
    (fs : FileSystem) (obj : T) :
  obj ∈ loadAll category files fs <->
  exists file, file ∈ files /\ getObject category file fs = Ok obj.
Proof.
  unfold loadAll. rewrite list_elem_of_omap. split.
  - intros (file & Hin & Hload). exists file. split; [exact Hin|].
    destruct (getObject category file fs); congruence.
  - intros (file & Hin & Hload). exists file. split; [exact Hin|]. now rewrite Hload.
Qed.

Lemma loadState_closed_form (s : Server R) :
  readable_dirs (store s) = true ->
  loadState s =
  Ok {| config := config s; rt := rt s; store := store s;
        pods := install (loadAll "pods" (listed (store s) "pods") (store s)) (pods s);
        deployments :=
          install (loadAll "deployments" (listed (store s) "deployments") (store s))
                  (deployments s);
        statefulsets :=
          install (loadAll "statefulsets" (listed (store s) "statefulsets") (store s))
                  (statefulsets s);
        services :=
          install (loadAll "services" (listed (store s) "services") (store s)) (services s);
        nodes := nodes s |}.
Proof.
  unfold readable_dirs, loaded_kinds. cbn [forallb].
  rewrite <- !listFiles_ok, !andb_true_iff. intros (Hp & Hd & Hs & Hv & _).
  unfold loadState, ListPods, ListDeployments, ListStatefulSets, ListServices, listed.
  cbn [store with_pods with_deployments with_statefulsets with_services].
  destruct (listFiles "pods" (store s)); [|discriminate].
  destruct (listFiles "deployments" (store s)); [|discriminate].
  destruct (listFiles "statefulsets" (store s)); [|discriminate].
  destruct (listFiles "services" (store s)); [|discriminate].
  reflexivity.
Qed.

Lemma loadState_fails (s : Server R) :
  readable_dirs (store s) = false -> is_ok (loadState s) = false.
Proof.
  unfold readable_dirs, loaded_kinds. cbn [forallb].
  rewrite <- !listFiles_ok. intros H.
  unfold loadState, ListPods, ListDeployments, ListStatefulSets, ListServices.
  cbn [store with_pods with_deployments with_statefulsets with_services].
  destruct (listFiles "pods" (store s)); [|reflexivity].
  destruct (listFiles "deployments" (store s)); [|reflexivity].
  destruct (listFiles "statefulsets" (store s)); [|reflexivity].
  destruct (listFiles "services" (store s)); [|reflexivity].
  discriminate H.
Qed.

(** C4, as amended.  Once the storage is set up and the runtime is
    healthy, start-up depends on the four directories only.  If each
    can be read, the server starts, whatever the files hold: its maps
    are the objects of the listed files that read and parse, a file
    that does not being skipped, and its node map is empty.  If one of
    them cannot be read, the listing error is returned by [loadState]
    and [NewServer], and [runServer] ends the process. *)
Theorem startup_load (cfg : Config) (runtime : R) (fs fs' : FileSystem) :
  NewFileStorage fs = Ok fs' ->
  (HealthCheck runtime).1 = None ->
  (forall (category : string) (files : list string) (pod : api.Pod),
     pod ∈ loadAll category files fs' <->
     exists file, file ∈ files /\ getObject category file fs' = Ok pod) /\
  if readable_dirs fs' then
    runServer "containerd" cfg runtime fs =
    Serving {| config := cfg; rt := (HealthCheck runtime).2; store := fs';
               pods := install (loadAll "pods" (listed fs' "pods") fs') ∅;
               deployments := install (loadAll "deployments" (listed fs' "deployments") fs') ∅;
               statefulsets :=
                 install (loadAll "statefulsets" (listed fs' "statefulsets") fs') ∅;
               services := install (loadAll "services" (listed fs' "services") fs') ∅;
               nodes := ∅ |}
  else
    is_ok (NewServer cfg (HealthCheck runtime).2 fs) = false /\
    exists message, runServer "containerd" cfg runtime fs = Fatal message.
Proof.
  intros Hfs Hhealth. split; [intros; apply loadAll_skips|].
  unfold runServer. cbn [String.eqb Ascii.eqb Bool.eqb negb].
  destruct (HealthCheck runtime) as [err runtime'] eqn:Hh. cbn in Hhealth. subst err.
  cbn [snd]. unfold NewServer. rewrite Hfs.
  destruct (readable_dirs fs') eqn:Hdirs.
  - rewrite loadState_closed_form by exact Hdirs. reflexivity.
  - pose proof (loadState_fails
                  {| config := cfg; rt := runtime'; store := fs'; pods := ∅; deployments := ∅;
                     statefulsets := ∅; services := ∅; nodes := ∅ |} Hdirs) as Hfail.
    destruct (loadState _); [discriminate Hfail|].
    split; [reflexivity|eexists; reflexivity].
Qed.

(** C10.  A tick of the node reporter leaves the storage as it was;
    [loadState] leaves the node map as it was; and a server created
    over the storage that any server leaves behind, node files
    included, starts with an empty node map. *)
Theorem nodes_are_memory_only (now : Z) (s : Server R) :
  store (updateNodeStatus now s) = store s /\
  (forall s' : Server R, loadState s = Ok s' -> nodes s' = nodes s /\ store s' = store s) /\
  (forall (cfg : Config) (runtime : R) (srv : Server R),
     NewServer cfg runtime (store (updateNodeStatus now s)) = Ok srv -> nodes srv = ∅).
Proof.
  assert (forall t t' : Server R, loadState t = Ok t' -> nodes t' = nodes t /\ store t' = store t)
    as Hload.
  { intros t t'. unfold loadState.
    cbn [store with_pods with_deployments with_statefulsets with_services].
    destruct (ListPods (store t)); [|discriminate].
    destruct (ListDeployments (store t)); [|discriminate].
    destruct (ListStatefulSets (store t)); [|discriminate].
    destruct (ListServices (store t)); [|discriminate].
    intros [= <-]. split; reflexivity. }
  split; [|split].
  - unfold updateNodeStatus. destruct (GetSystemInfo (rt s)) as [[info|e] r]; reflexivity.
  - apply Hload.
  - intros cfg runtime srv. unfold NewServer.
    destruct (NewFileStorage _) as [fs'|]; [|discriminate].
    destruct (loadState _) as [srv'|] eqn:Hl; [|discriminate].
    intros [= <-]. apply Hload in Hl as [Hl _]. exact Hl.
Qed.

(** C7, as amended.  A tick whose system-info call succeeds writes,
    under the key [local-node], the node named [local-node] with the
    reported CPU count and memory as capacity and a single Ready
    condition of status True.  A tick whose call fails writes nothing:
    only the runtime's state moves on.  Either way no other key of the
    node map changes. *)
Theorem node_report_tick (now : Z) (s : Server R) :
  match GetSystemInfo (rt s) with
  | (Ok info, r) =>
      updateNodeStatus now s
      = with_nodes (<["local-node" := local_node now info]> (nodes s)) (with_rt r s) /\
      api.name_of (local_node now info) = "local-node" /\
      api.Capacity (api.Status (local_node now info)) !! api.ResourceCPU = Some (NCPU info) /\
      api.Capacity (api.Status (local_node now info)) !! api.ResourceMemory
      = Some (MemTotal info) /\
      condition_summary (local_node now info) = [(api.NodeReady, api.ConditionTrue)]
  | (Err _, r) => updateNodeStatus now s = with_rt r s
  end /\
  delete "local-node" (nodes (updateNodeStatus now s)) = delete "local-node" (nodes s).
Proof.
  unfold updateNodeStatus.
  destruct (GetSystemInfo (rt s)) as [[info|e] r].
  - split; [|cbn; apply delete_insert_eq].
    repeat split; reflexivity.
  - split; reflexivity.
Qed.
End lifecycle_properties.

(** ** The service controller (C3) *)

(** Over any runtime, the stored status does not depend on the
    containers found. *)
Lemma updateServiceStatus_ignores_containers {R} (service : api.Service)
    (found found' : list ContainerInfo) (s : Server R) :
  updateServiceStatus service found s = updateServiceStatus service found' s.
Proof. reflexivity. Qed.

Lemma containerd_ListContainers (filters : ContainerFilter) (c : containerd.Client) :
  ListContainers filters c
  = (if containerd.serving c
     then Ok (omap (fun k =>
                      match containerd.InspectContainer (containerd.c_id k) c with
                      | Err _ => None
                      | Ok info =>
                          if containerd.matchesFilters info filters then Some info else None
                      end) (containerd.table c))
     else Err ("failed to list containers: " +:+ containerd.unavailable), c).
Proof.
  cbn [ListContainers containerd.containerd_runtime]. unfold containerd.ListContainers.
  now destruct (containerd.serving c).
Qed.

Lemma keyed_names {A B} (m : gmap string (api.Object A B)) :
  keyed_by_name m -> api.name_of <$> (map_to_list m).*2 = (map_to_list m).*1.
Proof.
  intros Hk. rewrite <- list_fmap_compose.
  apply list_fmap_ext. intros i [key o] Hi. cbn.
  apply Hk. apply elem_of_map_to_list. eapply list_elem_of_lookup_2. exact Hi.
Qed.

Lemma reconcileService_step (svc : api.Service) (s : Server containerd.Client) :
  services s !! api.name_of svc = Some svc ->
  (reconcileService svc s).2
  = with_services (<[api.name_of svc := status_rule (containerd.serving (rt s)) svc]>
                     (services s)) s.
Proof.
  intros Hs. destruct s as [cfg c fs ps ds sss svcs ns]. cbn in Hs |- *.
  unfold reconcileService, findTargetContainers, status_rule. cbn [rt].
  rewrite containerd_ListContainers.
  destruct (containerd.serving c); cbn.
  - unfold updateServiceStatus. cbn. rewrite Hs.
    destruct (String.eqb _ _); cbn; [reflexivity|].
    unfold with_services. cbn. now rewrite insert_id.
  - unfold with_services. cbn. now rewrite insert_id.
Qed.

Lemma reconcileServices_lookup (l : list api.Service) (s : Server containerd.Client) :
  (forall svc, svc ∈ l -> services s !! api.name_of svc = Some svc) ->
  NoDup (api.name_of <$> l) ->
  exists m,
    reconcileServices l s = with_services m s /\
    forall key,
      m !! key = if decide (key ∈ api.name_of <$> l)
                 then status_rule (containerd.serving (rt s)) <$> services s !! key
                 else services s !! key.
Proof.
  revert s. induction l as [|a l IH]; intros s Hin Hnd.
  - exists (services s). split; [now destruct s|].
    intros key. rewrite decide_False; [reflexivity|]. cbn. apply not_elem_of_nil.
  - rewrite fmap_cons in Hnd. apply NoDup_cons in Hnd as [Ha Hnd].
    assert (services s !! api.name_of a = Some a) as Hsa by (apply Hin; left).
    unfold reconcileServices. cbn [foldl]. fold (reconcileServices l (reconcileService a s).2).
    rewrite reconcileService_step by exact Hsa.
    destruct (IH (with_services (<[api.name_of a := status_rule (containerd.serving (rt s)) a]>
                                   (services s)) s)) as (m & Hm & Hlook).
    { intros svc Hsvc. cbn. rewrite lookup_insert_ne; [apply Hin; now right|].
      intros Heq. apply Ha. rewrite Heq. apply list_elem_of_fmap_2. exact Hsvc. }
    { exact Hnd. }
    exists m. split; [rewrite Hm; reflexivity|].
    intros key. rewrite Hlook. cbn [services rt with_services].
    rewrite fmap_cons.
    destruct (decide (key = api.name_of a)) as [->|Hne].
    + rewrite decide_False by exact Ha.
      rewrite decide_True by left.
      rewrite lookup_insert_eq, Hsa. reflexivity.
    + rewrite lookup_insert_ne by congruence.
      destruct (decide (key ∈ api.name_of <$> l)) as [Hk|Hk].
      * rewrite decide_True by (now right). reflexivity.
      * rewrite decide_False; [reflexivity|].
        intros Hc. apply elem_of_cons in Hc as [Hc|Hc]; [congruence|contradiction].
Qed.

(** C3, as amended.  One tick of the service controller over the
    containerd runtime, from a snapshot of the stored services: every
    stored service of type NodePort gets the single ingress 127.0.0.1
    as its status, provided the runtime answered the listing; every
    other service keeps the status it had; nothing else in the server
    changes.  The containers that match a selector do not enter the
    stored status. *)
Theorem service_tick_status (snapshot : list api.Service) (s : Server containerd.Client) :
  keyed_by_name (services s) ->
  snapshot_of (services s) snapshot ->
  reconcileServices snapshot s
  = with_services (status_rule (containerd.serving (rt s)) <$> services s) s.
Proof.
  intros Hkeyed Hsnap. unfold snapshot_of in Hsnap.
  destruct (reconcileServices_lookup snapshot s) as (m & Hm & Hlook).
  - intros svc Hsvc. rewrite Hsnap in Hsvc.
    apply list_elem_of_fmap in Hsvc as ([key o] & -> & Hko). cbn.
    apply elem_of_map_to_list in Hko. rewrite (Hkeyed _ _ Hko). exact Hko.
  - rewrite Hsnap, keyed_names by exact Hkeyed. apply NoDup_fst_map_to_list.
  - rewrite Hm. f_equal. apply map_eq. intros key. rewrite Hlook, lookup_fmap.
    destruct (decide _) as [Hk|Hk]; [reflexivity|].
    destruct (services s !! key) as [o|] eqn:Ho; [|reflexivity].
    exfalso. apply Hk. rewrite Hsnap, keyed_names by exact Hkeyed.
    apply list_elem_of_fmap. exists (key, o). split; [reflexivity|].
    now apply elem_of_map_to_list.
Qed.

(** ** The workload controller (C1, C2, C6) *)

Section workload_properties.
Context {R : Type} `{!ContainerRuntime R}.

(** A recorded call is the call on the runtime inside, and one more
    entry in the log. *)
Lemma record_eq {A} (call : Call) (op : R -> A * R) (rr : Recorded R) :
  record call op rr = ((op (inner rr)).1, Build_Recorded (op (inner rr)).2 (calls rr ++ [call])).
Proof. unfold record. now destruct (op (inner rr)). Qed.

(** Recording changes nothing: a control loop over the recording
    runtime returns what it returns over the runtime inside, and leaves
    that runtime in the same state. *)
Lemma recorded_scaleDown (victims : list ContainerInfo) (rr : Recorded R) :
  inner (scaleDown victims rr) = scaleDown victims (inner rr).
Proof.
  revert rr. induction victims as [|c victims IH]; intros rr; [reflexivity|].
  cbn [scaleDown StopContainer RemoveContainer recorded_runtime].
  rewrite record_eq.
  destruct (StopContainer (ID c) 30 (inner rr)) as [[e|] r1]; cbn [fst snd].
  - now rewrite IH.
  - rewrite record_eq. cbn [fst snd inner]. now rewrite IH.
Qed.

Lemma recorded_createContainers (pod : string) (containers : list api.Container)
    (rr : Recorded R) :
  ((createContainers pod containers rr).1, inner (createContainers pod containers rr).2)
  = createContainers pod containers (inner rr).
Proof.
  revert rr. induction containers as [|spec rest IH]; intros rr; [reflexivity|].
  cbn [createContainers PullImage CreateContainer StartContainer RemoveContainer
         recorded_runtime].
  rewrite !record_eq. cbn [fst snd inner calls].
  destruct (PullImage (api.Image spec) (inner rr)) as [e0 r1]. cbn [snd].
  destruct (CreateContainer spec pod r1) as [[info|e] r2]; cbn [fst snd]; [|reflexivity].
  rewrite record_eq. cbn [fst snd inner calls].
  destruct (StartContainer (ID info) r2) as [[e|] r3]; cbn [fst snd].
  - rewrite record_eq. cbn [fst snd inner calls].
    now destruct (RemoveContainer (ID info) r3).
  - destruct (String.length (ID info) <? 12)%nat; [reflexivity|]. apply IH.
Qed.

Lemma recorded_scaleUp (workloadName : string) (template : api.PodTemplateSpec)
    (current i : Z) (rounds : nat) (rr : Recorded R) :
  ((scaleUp workloadName template current i rounds rr).1,
   inner (scaleUp workloadName template current i rounds rr).2)
  = scaleUp workloadName template current i rounds (inner rr).
Proof.
  revert i rr. induction rounds as [|rounds IH]; intros i rr; [reflexivity|].
  cbn [scaleUp]. unfold createPodFromTemplate.
  pose proof (recorded_createContainers (podName workloadName (current + i))
                (api.Containers (api.Template_Spec template)) rr) as Hc.
  destruct (createContainers _ _ rr) as [[e|m] rr1];
    destruct (createContainers _ _ (inner rr)) as [o r1];
    cbn [fst snd] in Hc; injection Hc as <- <-; [apply IH|reflexivity].
Qed.

Lemma recorded_reconcileReplicas (workloadName : string) (template : api.PodTemplateSpec)
    (replicas : option Z) (currentContainers : list ContainerInfo) (rr : Recorded R) :
  ((reconcileReplicas workloadName template replicas currentContainers rr).1,
   inner (reconcileReplicas workloadName template replicas currentContainers rr).2)
  = reconcileReplicas workloadName template replicas currentContainers (inner rr).
Proof.
  unfold reconcileReplicas.
  destruct (_ <? default 1 replicas).
  - pose proof (recorded_scaleUp workloadName template
                  (wrap32 (Z.of_nat (length currentContainers))) 0
                  (Z.to_nat (wrap32 (default 1 replicas
                                     - wrap32 (Z.of_nat (length currentContainers))))) rr) as Hu.
    destruct (scaleUp _ _ _ _ _ rr) as [[[]|m] rr1];
      destruct (scaleUp _ _ _ _ _ (inner rr)) as [o r1];
      cbn [fst snd] in Hu; injection Hu as <- <-; [|reflexivity].
    destruct (default 1 replicas <? _); cbn [fst snd]; [|reflexivity].
    now rewrite recorded_scaleDown.
  - destruct (default 1 replicas <? _); cbn [fst snd]; [|reflexivity].
    now rewrite recorded_scaleDown.
Qed.

Lemma recorded_reconcileStatefulSet (statefulset : api.StatefulSet) (rr : Recorded R) :
  ((reconcileStatefulSet statefulset rr).1, inner (reconcileStatefulSet statefulset rr).2)
  = reconcileStatefulSet statefulset (inner rr).
Proof.
  unfold reconcileStatefulSet. cbn [ListContainers recorded_runtime].
  rewrite record_eq.
  destruct (ListContainers _ (inner rr)) as [[cs|e] r1]; cbn [fst snd]; [|reflexivity].
  apply recorded_reconcileReplicas.
Qed.

Lemma recorded_reconcileDeployment (deployment : api.Deployment) (rr : Recorded R) :
  ((reconcileDeployment deployment rr).1, inner (reconcileDeployment deployment rr).2)
  = reconcileDeployment deployment (inner rr).
Proof.
  unfold reconcileDeployment. cbn [ListContainers recorded_runtime].
  rewrite record_eq.
  destruct (ListContainers _ (inner rr)) as [[cs|e] r1]; cbn [fst snd]; [|reflexivity].
  apply recorded_reconcileReplicas.
Qed.

Lemma scaleDown_calls (victims : list ContainerInfo) (rr : Recorded R) :
  exists log,
    calls (scaleDown victims rr) = (calls rr ++ log)%list /\ scale_down_calls victims log.
Proof.
  revert rr. induction victims as [|c victims IH]; intros rr.
  - exists []. split; [now rewrite app_nil_r|constructor].
  - cbn [scaleDown StopContainer RemoveContainer recorded_runtime].
    rewrite record_eq.
    destruct (StopContainer (ID c) 30 (inner rr)) as [[e|] r1]; cbn [fst snd].
    + destruct (IH (Build_Recorded r1 (calls rr ++ [CallStop (ID c) 30]))) as (log & Hlog & Hs).
      exists (CallStop (ID c) 30 :: log). split; [|now constructor].
      rewrite Hlog. cbn [calls]. now rewrite <- app_assoc.
    + rewrite record_eq. cbn [fst snd inner calls].
      destruct (IH (Build_Recorded (RemoveContainer (ID c) r1).2
                      ((calls rr ++ [CallStop (ID c) 30]) ++ [CallRemove (ID c)])))
        as (log & Hlog & Hs).
      exists (CallStop (ID c) 30 :: CallRemove (ID c) :: log). split; [|now constructor].
      rewrite Hlog. cbn [calls]. now rewrite <- !app_assoc.
Qed.

(** C6, as amended.  A StatefulSet with more listed containers than
    desired replicas: after the listing, the reconciler takes the first
    [|actual| - desired] containers in the order the runtime listed
    them, whatever their ordinals, and for each of them in turn calls
    stop with a timeout of 30 and then, unless the stop failed,
    remove; it makes no other call and returns no error. *)
Theorem statefulset_scale_down (statefulset : api.StatefulSet) (r r' : R)
    (currentContainers : list ContainerInfo) :
  let filter := label_filter {[ "synthesis.statefulset" := api.name_of statefulset ]} in
  let desired := default 1 (api.SS_Replicas (api.Spec statefulset)) in
  let current := Z.of_nat (length currentContainers) in
  ListContainers filter r = (Ok currentContainers, r') ->
  0 <= desired < current ->
  current <= int32_max ->
  exists log,
    reconcileStatefulSet statefulset (Build_Recorded r []) =
    (Returned None,
     scaleDown (take (Z.to_nat (current - desired)) currentContainers)
               (Build_Recorded r' [CallList filter])) /\
    calls (reconcileStatefulSet statefulset (Build_Recorded r [])).2 = CallList filter :: log /\
    scale_down_calls (take (Z.to_nat (current - desired)) currentContainers) log /\
    stopped_ids log = ID <$> take (Z.to_nat (current - desired)) currentContainers.
Proof.
  intros filter desired current Hlist Hd Hc.
  assert (reconcileStatefulSet statefulset (Build_Recorded r []) =
          (Returned None,
           scaleDown (take (Z.to_nat (current - desired)) currentContainers)
                     (Build_Recorded r' [CallList filter]))) as Hrun.
  { unfold reconcileStatefulSet. cbn [ListContainers recorded_runtime].
    rewrite record_eq. cbn [inner calls]. fold filter. rewrite Hlist. cbn [fst snd app].
    unfold reconcileReplicas. fold desired. fold current.
    unfold int32_max in Hc.
    rewrite (wrap32_id current) by (unfold in_int32, int32_min, int32_max; lia).
    replace (current <? desired) with false by (symmetry; apply Z.ltb_ge; lia).
    replace (desired <? current) with true by (symmetry; apply Z.ltb_lt; lia).
    rewrite (wrap32_id (current - desired)) by (unfold in_int32, int32_min, int32_max; lia).
    reflexivity. }
  destruct (scaleDown_calls (take (Z.to_nat (current - desired)) currentContainers)
              (Build_Recorded r' [CallList filter])) as (log & Hlog & Hshape).
  exists log. rewrite Hrun. cbn [snd]. rewrite Hlog. cbn [calls app].
  repeat split; [exact Hshape|].
  clear -Hshape. induction Hshape; cbn; [reflexivity|now f_equal..].
Qed.
Lemma created_pods_app (l1 l2 : list Call) :
  created_pods (l1 ++ l2) = (created_pods l1 ++ created_pods l2)%list.
Proof. apply omap_app. Qed.

Lemma createContainers_calls (pod : string) (containers : list api.Container)
    (rr : Recorded R) :
  exists log,
    calls (createContainers pod containers rr).2 = (calls rr ++ log)%list /\
    Forall (eq pod) (created_pods log) /\
    (containers <> [] -> pod ∈ created_pods log).
Proof.
  revert rr. induction containers as [|spec rest IH]; intros rr.
  - exists []. cbn. rewrite app_nil_r. repeat split; [constructor|congruence].
  - cbn [createContainers PullImage CreateContainer StartContainer RemoveContainer
           recorded_runtime].
    rewrite !record_eq. cbn [fst snd inner calls].
    set (r1 := (PullImage (api.Image spec) (inner rr)).2).
    destruct (CreateContainer spec pod r1) as [[info|e] r2] eqn:Hc; cbn [fst snd].
    + rewrite record_eq. cbn [fst snd inner calls].
      destruct (StartContainer (ID info) r2) as [[e|] r3] eqn:Hs; cbn [fst snd].
      * rewrite record_eq. cbn [fst snd inner calls].
        eexists [_; _; _; _]. rewrite <- !app_assoc. split; [reflexivity|].
        cbn. split; [repeat constructor|intros _; left].
      * destruct (String.length (ID info) <? 12)%nat; cbn [snd calls].
        -- eexists [_; _; _]. rewrite <- !app_assoc. split; [reflexivity|].
           cbn. split; [repeat constructor|intros _; left].
        -- destruct (IH (Build_Recorded r3
                           (((calls rr ++ [CallPull (api.Image spec)])
                               ++ [CallCreate spec pod]) ++ [CallStart (ID info)])))
             as (log & Hlog & Hall & _).
           exists (CallPull (api.Image spec) :: CallCreate spec pod
                   :: CallStart (ID info) :: log).
           rewrite Hlog. cbn [calls]. rewrite <- !app_assoc. split; [reflexivity|].
           cbn. split; [now constructor|intros _; left].
    + eexists [_; _]. rewrite <- !app_assoc. split; [reflexivity|].
      cbn. split; [repeat constructor|intros _; left].
Qed.

Lemma scaleUp_calls (workloadName : string) (template : api.PodTemplateSpec)
    (current i : Z) (rounds : nat) (rr : Recorded R) :
  exists log,
    calls (scaleUp workloadName template current i rounds rr).2 = (calls rr ++ log)%list /\
    Forall (fun pod => exists j, i <= j < i + Z.of_nat rounds /\
                                 pod = podName workloadName (current + j))
           (created_pods log) /\
    (returned (scaleUp workloadName template current i rounds rr).1 = true ->
     api.Containers (api.Template_Spec template) <> [] ->
     forall j, i <= j < i + Z.of_nat rounds ->
               podName workloadName (current + j) ∈ created_pods log).
Proof.
  revert i rr. induction rounds as [|rounds IH]; intros i rr.
  - exists []. cbn. rewrite app_nil_r. repeat split; [constructor|]. intros _ _ j Hj. lia.
  - cbn [scaleUp]. unfold createPodFromTemplate.
    destruct (createContainers_calls (podName workloadName (current + i))
                (api.Containers (api.Template_Spec template)) rr) as (log1 & Hlog1 & Hall1 & Hin1).
    destruct (createContainers _ _ rr) as [[e|m] rr1]; cbn [snd] in Hlog1.
    + destruct (IH (i + 1) rr1) as (log2 & Hlog2 & Hall2 & Hin2).
      exists (log1 ++ log2)%list. rewrite Hlog2, Hlog1, <- app_assoc. split; [reflexivity|].
      rewrite created_pods_app. split.
      * apply Forall_app. split.
        -- eapply Forall_impl; [exact Hall1|]. intros pod <-. exists i. split; [lia|reflexivity].
        -- eapply Forall_impl; [exact Hall2|]. intros pod (j & Hj & ->).
           exists j. split; [lia|reflexivity].
      * intros Hret Hne j Hj. apply elem_of_app.
        destruct (decide (j = i)) as [->|Hji]; [left; now apply Hin1|].
        right. apply Hin2; [exact Hret|exact Hne|lia].
    + exists log1. cbn [snd fst returned]. split; [exact Hlog1|]. split; [|discriminate].
      eapply Forall_impl; [exact Hall1|]. intros pod <-. exists i. split; [lia|reflexivity].
Qed.

Lemma reconcileReplicas_scale_up (workloadName : string) (template : api.PodTemplateSpec)
    (replicas : option Z) (currentContainers : list ContainerInfo) (rr : Recorded R) :
  let desired := default 1 replicas in
  let current := Z.of_nat (length currentContainers) in
  current < desired <= int32_max ->
  exists log,
    calls (reconcileReplicas workloadName template replicas currentContainers rr).2
    = (calls rr ++ log)%list /\
    names_follow_count workloadName current desired (created_pods log) /\
    (returned (reconcileReplicas workloadName template replicas currentContainers rr).1 = true ->
     api.Containers (api.Template_Spec template) <> [] ->
     every_ordinal_named workloadName current desired (created_pods log)).
Proof.
  intros desired current Hd. unfold reconcileReplicas. fold desired. fold current.
  unfold int32_max in Hd.
  rewrite (wrap32_id current) by (unfold in_int32, int32_min, int32_max; lia).
  replace (current <? desired) with true by (symmetry; apply Z.ltb_lt; lia).
  replace (desired <? current) with false by (symmetry; apply Z.ltb_ge; lia).
  rewrite (wrap32_id (desired - current)) by (unfold in_int32, int32_min, int32_max; lia).
  destruct (scaleUp_calls workloadName template current 0 (Z.to_nat (desired - current)) rr)
    as (log & Hlog & Hall & Hin).
  rewrite Z2Nat.id in Hall, Hin by lia.
  destruct (scaleUp _ _ _ _ _ rr) as [[[]|m] rr1]; cbn [fst snd returned] in *.
  - exists log. split; [exact Hlog|]. split; [exact Hall|]. intros _ Hne i Hi.
    now apply Hin.
  - exists log. split; [exact Hlog|]. split; [exact Hall|]. discriminate.
Qed.

Lemma podName_inj (workloadName : string) (a b : Z) :
  podName workloadName a = podName workloadName b -> a = b.
Proof.
  unfold podName. intros H.
  apply (inj (String.app workloadName)) in H.
  apply (inj (String.app "-")) in H.
  now apply (inj pretty) in H.
Qed.

Lemma lowest_unused_packed (current desired : Z) :
  0 <= current < desired -> lowest_unused (seqZ 0 current) desired = Some current.
Proof.
  intros H. unfold lowest_unused.
  replace desired with (current + (desired - current)) by lia.
  rewrite seqZ_app by lia. rewrite Z.add_0_l.
  assert (forall l1 l2,
             Forall (fun o => o ∈ seqZ 0 current) l1 ->
             List.find (fun o => negb (existsb (Z.eqb o) (seqZ 0 current))) (l1 ++ l2)
             = List.find (fun o => negb (existsb (Z.eqb o) (seqZ 0 current))) l2) as Hskip.
  { intros l1 l2 Hall. induction Hall as [|o l1 Ho _ IH]; [reflexivity|]. cbn.
    replace (existsb (Z.eqb o) (seqZ 0 current)) with true; [exact IH|].
    symmetry. apply existsb_exists. exists o. split; [|apply Z.eqb_refl].
    now apply list_elem_of_In. }
  rewrite Hskip by (apply Forall_forall; auto).
  rewrite (seqZ_cons current) by lia. cbn.
  replace (existsb (Z.eqb current) (seqZ 0 current)) with false; [reflexivity|].
  symmetry. apply not_true_is_false. intros Hex.
  apply existsb_exists in Hex as (o & Ho & Heq). apply Z.eqb_eq in Heq. subst o.
  apply list_elem_of_In, elem_of_seqZ in Ho. lia.
Qed.

(** C2, as amended.  A workload with fewer listed containers than
    desired replicas: every pod the reconciler creates is named
    [<W.name>-<|actual| + i>] for an [i] in [0, desired - |actual|),
    the ordinal being counted up from the number of listed containers
    and not looked up among the existing names; when the reconciler
    returns and the template has a container, every such ordinal
    names a created pod.  The ordinal [|actual|] is the lowest unused
    one when the existing pods hold the ordinals below it. *)
Theorem scale_up_pod_names (deployment : api.Deployment) (statefulset : api.StatefulSet)
    (r r' : R) (currentContainers : list ContainerInfo) :
  let current := Z.of_nat (length currentContainers) in
  let of_deployment := reconcileDeployment deployment (Build_Recorded r []) in
  let of_statefulset := reconcileStatefulSet statefulset (Build_Recorded r []) in
  (ListContainers (label_filter {[ "synthesis.deployment" := api.name_of deployment ]}) r
   = (Ok currentContainers, r') ->
   current < default 1 (api.Replicas (api.Spec deployment)) <= int32_max ->
   names_follow_count (api.name_of deployment) current
     (default 1 (api.Replicas (api.Spec deployment))) (created_pods (calls of_deployment.2)) /\
   (returned of_deployment.1 = true ->
    api.Containers (api.Template_Spec (api.Template (api.Spec deployment))) <> [] ->
    every_ordinal_named (api.name_of deployment) current
      (default 1 (api.Replicas (api.Spec deployment))) (created_pods (calls of_deployment.2))) /\
   lowest_unused (seqZ 0 current) (default 1 (api.Replicas (api.Spec deployment)))
   = Some current) /\
  (ListContainers (label_filter {[ "synthesis.statefulset" := api.name_of statefulset ]}) r
   = (Ok currentContainers, r') ->
   current < default 1 (api.SS_Replicas (api.Spec statefulset)) <= int32_max ->
   names_follow_count (api.name_of statefulset) current
     (default 1 (api.SS_Replicas (api.Spec statefulset)))
     (created_pods (calls of_statefulset.2)) /\
   (returned of_statefulset.1 = true ->
    api.Containers (api.Template_Spec (api.SS_Template (api.Spec statefulset))) <> [] ->
    every_ordinal_named (api.name_of statefulset) current
      (default 1 (api.SS_Replicas (api.Spec statefulset)))
      (created_pods (calls of_statefulset.2))) /\
   lowest_unused (seqZ 0 current) (default 1 (api.SS_Replicas (api.Spec statefulset)))
   = Some current).
Proof.
  intros current of_deployment of_statefulset. split; intros Hlist Hd.
  - subst of_deployment. unfold reconcileDeployment.
    cbn [ListContainers recorded_runtime]. rewrite record_eq. cbn [inner calls].
    rewrite Hlist. cbn [fst snd app].
    destruct (reconcileReplicas_scale_up (api.name_of deployment)
                (api.Template (api.Spec deployment)) (api.Replicas (api.Spec deployment))
                currentContainers (Build_Recorded r' [CallList (label_filter
                  {[ "synthesis.deployment" := api.name_of deployment ]})]) Hd)
      as (log & Hlog & Hall & Hin).
    rewrite Hlog. cbn [calls]. rewrite created_pods_app. cbn [created_pods omap app].
    split; [exact Hall|]. split; [exact Hin|]. apply lowest_unused_packed. fold current. lia.
  - subst of_statefulset. unfold reconcileStatefulSet.
    cbn [ListContainers recorded_runtime]. rewrite record_eq. cbn [inner calls].
    rewrite Hlist. cbn [fst snd app].
    destruct (reconcileReplicas_scale_up (api.name_of statefulset)
                (api.SS_Template (api.Spec statefulset)) (api.SS_Replicas (api.Spec statefulset))
                currentContainers (Build_Recorded r' [CallList (label_filter
                  {[ "synthesis.statefulset" := api.name_of statefulset ]})]) Hd)
      as (log & Hlog & Hall & Hin).
    rewrite Hlog. cbn [calls]. rewrite created_pods_app. cbn [created_pods omap app].
    split; [exact Hall|]. split; [exact Hin|]. apply lowest_unused_packed. fold current. lia.
Qed.
End workload_properties.

(** The theorem on a server without workloads, asked to scale [web] to
    5 replicas. *)
Lemma scale_of_absent_name_witness :
  scaleDeploymentHandler 0 (request "web" "5") (blank unreachable_daemon dead_fs)
    = ({| StatusCode := 200; Sent := ScaleJSON 5 |}, blank unreachable_daemon dead_fs) /\
  scaleStatefulSetHandler 0 (request "web" "5") (blank unreachable_daemon dead_fs)
    = ({| StatusCode := 200; Sent := ScaleJSON 5 |}, blank unreachable_daemon dead_fs).
Proof.
  destruct (scale_of_absent_name before_slash 0 (request "web" "5")
              (blank unreachable_daemon dead_fs) {| Scale_Replicas := 5 |}) as [Hd Hs];
    [vm_compute; reflexivity|].
  split; [apply Hd|apply Hs]; reflexivity.
Defined.

(** The theorem on a server whose storage cannot be written at all:
    [POST /pods] of the pod [web]. *)
Lemma write_survives_storage_failure_witness :
  (StorePod (pod "web") dead_fs).1 = Some "failed to write file: no such file or directory" /\
  exists resp s',
    createPodHandler 0 (request "" "web") (blank unreachable_daemon dead_fs) = (resp, s') /\
    StatusCode resp = 201 /\
    getPodHandler 1 (request "web" "") s' = ({| StatusCode := 200; Sent := Sent resp |}, s').
Proof.
  split; [vm_compute; reflexivity|].
  destruct (write_survives_storage_failure before_slash POST_pods 0 (request "" "web")
              (blank unreachable_daemon dead_fs) eq_refl)
    as [_ [[H _]|[_ (get & list & name & Hb & Hr & _)]]].
  - vm_compute in H. discriminate H.
  - eexists _, _. split; [reflexivity|]. split; [reflexivity|].
    vm_compute in Hb. injection Hb as <- <- <-.
    apply (Hr 1 (request "web" "")). reflexivity.
Defined.

(** ** The definitions at work *)

(** The labels a created container gets name no owner. *)
Lemma created_labels_have_no_owner (spec : api.Container) (pod_name : string) :
  containerd.container_labels spec pod_name !! "synthesis.deployment" = None /\
  containerd.container_labels spec pod_name !! "synthesis.statefulset" = None.
Proof.
  unfold containerd.container_labels.
  split; rewrite !lookup_insert_ne by discriminate; apply lookup_singleton_ne; discriminate.
Qed.

Lemma docker_labels_have_no_owner (config : RuntimeConfig) (spec : api.Container)
    (pod_name : string) :
  DefaultLabels config !! "synthesis.deployment" = None ->
  docker.container_labels config spec pod_name !! "synthesis.deployment" = None.
Proof.
  intros H. unfold docker.container_labels. apply lookup_union_None. split; [exact H|].
  rewrite !lookup_insert_ne by discriminate. apply lookup_singleton_ne. discriminate.
Qed.

(** So no listing by a non-empty owner name ever returns a container as
    it was created. *)
Lemma created_container_matches_no_owner (spec : api.Container) (pod_name owner : string)
    (info : ContainerInfo) :
  CI_Labels info = containerd.container_labels spec pod_name ->
  owner <> "" ->
  containerd.matchesFilters info (label_filter {[ "synthesis.deployment" := owner ]}) = false.
Proof.
  intros Hl Ho. unfold containerd.matchesFilters, label_filter. cbn.
  rewrite map_to_list_singleton. cbn. unfold index. rewrite Hl.
  rewrite (proj1 (created_labels_have_no_owner spec pod_name)). cbn.
  destruct owner; [congruence|reflexivity].
Qed.

(** C1 on the deployment [frontend] with one replica, over a daemon
    without containers.  The first tick creates the container
    [frontend-0-nginx] with the labels [synthesis.pod],
    [synthesis.container] and [managed-by], and no owner label.  The
    listing of the next tick, by [synthesis.deployment=frontend],
    returns nothing although the container is there, and the tick
    sets out to create the pod [frontend-0] again. *)
Theorem created_container_is_not_counted :
  (reconcileDeployment (deployment (Some 1) "frontend") (daemon [])).1 = Returned None /\
  (fun k => (containerd.c_id k, containerd.c_labels k))
    <$> containerd.table (reconcileDeployment (deployment (Some 1) "frontend") (daemon [])).2
  = [("frontend-0-nginx",
      {[ "synthesis.pod" := "frontend-0"; "synthesis.container" := "nginx";
         "managed-by" := "synthesis" ]})] /\
  listing_length
    (ListContainers (label_filter {[ "managed-by" := "synthesis" ]})
       (reconcileDeployment (deployment (Some 1) "frontend") (daemon [])).2).1 = 1%nat /\
  (ListContainers (label_filter {[ "synthesis.deployment" := "frontend" ]})
     (reconcileDeployment (deployment (Some 1) "frontend") (daemon [])).2).1 = Ok [] /\
  created_pods
    (calls (reconcileDeployment (deployment (Some 1) "frontend")
              (Build_Recorded
                 (reconcileDeployment (deployment (Some 1) "frontend") (daemon [])).2 [])).2)
  = ["frontend-0"].
Proof. repeat apply conj; vm_compute; reflexivity. Qed.

(** C2 as stated fails on a gap.  The deployment [frontend] wants 3
    replicas and the pods [frontend-1] and [frontend-2] are listed: the
    lowest unused ordinal is 0, yet the one pod the reconciler sets out
    to create is [frontend-2], the name of a listed pod, and the create
    call fails on it, so the daemon still holds the two old containers
    and no new one. *)
Lemma new_pod_takes_count_not_gap :
  listed_pods (ListContainers (label_filter {[ "synthesis.deployment" := "frontend" ]})
                 frontend_gap).1 = ["frontend-1"; "frontend-2"] /\
  lowest_unused [1; 2] 3 = Some 0 /\
  podName "frontend" 0 = "frontend-0" /\
  created_pods (calls (reconcileDeployment (deployment (Some 3) "frontend")
                         (Build_Recorded frontend_gap [])).2) = ["frontend-2"] /\
  containerd.c_id <$> containerd.table
                        (inner (reconcileDeployment (deployment (Some 3) "frontend")
                                  (Build_Recorded frontend_gap [])).2)
  = ["frontend-1-nginx"; "frontend-2-nginx"].
Proof. repeat apply conj; vm_compute; reflexivity. Qed.

(** The theorem on the deployment [frontend] with 3 replicas over a
    daemon without containers: the pods are [frontend-0], [frontend-1]
    and [frontend-2]. *)
Lemma scale_up_pod_names_witness :
  names_follow_count "frontend" 0 3
    (created_pods (calls (reconcileDeployment (deployment (Some 3) "frontend")
                            (Build_Recorded (daemon []) [])).2)) /\
  every_ordinal_named "frontend" 0 3
    (created_pods (calls (reconcileDeployment (deployment (Some 3) "frontend")
                            (Build_Recorded (daemon []) [])).2)).
Proof.
  destruct (scale_up_pod_names (deployment (Some 3) "frontend")
              (statefulset (Some 3) "database") (daemon []) (daemon []) [])
    as [H _].
  destruct H as (Hall & Hin & _).
  - vm_compute. reflexivity.
  - cbn. unfold int32_max. lia.
  - split; [exact Hall|]. apply Hin; [vm_compute; reflexivity|discriminate].
Defined.

(** C6 as stated fails on the order.  The stateful set [database]
    wants 1 replica and its pods 0, 1 and 2 are listed in that order:
    the reconciler stops and removes the containers of pods 0 and 1,
    and the one it leaves is that of pod 2, the highest ordinal. *)
Lemma scale_down_takes_listing_order :
  listed_pods (ListContainers (label_filter {[ "synthesis.statefulset" := "database" ]})
                 database_three).1 = ["database-0"; "database-1"; "database-2"] /\
  stopped_ids (calls (reconcileStatefulSet (statefulset (Some 1) "database")
                        (Build_Recorded database_three [])).2)
  = ["database-0-nginx"; "database-1-nginx"] /\
  containerd.c_id <$> containerd.table
                        (inner (reconcileStatefulSet (statefulset (Some 1) "database")
                                  (Build_Recorded database_three [])).2)
  = ["database-2-nginx"].
Proof. repeat apply conj; vm_compute; reflexivity. Qed.

(** The theorem on the same stateful set. *)
Lemma statefulset_scale_down_witness :
  exists log,
    calls (reconcileStatefulSet (statefulset (Some 1) "database")
             (Build_Recorded database_three [])).2
    = CallList (label_filter {[ "synthesis.statefulset" := "database" ]}) :: log /\
    stopped_ids log = ["database-0-nginx"; "database-1-nginx"].
Proof.
  destruct (statefulset_scale_down (statefulset (Some 1) "database") database_three
              database_three database_listing)
    as (log & _ & Hcalls & _ & Hstopped).
  - vm_compute. reflexivity.
  - cbn. lia.
  - cbn. unfold int32_max. lia.
  - exists log. split; [exact Hcalls|]. rewrite Hstopped. vm_compute. reflexivity.
Defined.

(** C3 as stated fails for a ClusterIP service.  Three managed
    containers match the selector [app=web] of the stored service
    [web-svc]; after a tick of the service controller the server is
    what it was, the status of [web-svc] still without any entry. *)
Lemma clusterip_status_ignores_endpoints :
  listing_length (findTargetContainers {[ "app" := "web" ]} database_three).1 = 3%nat /\
  reconcileServices [web_svc api.ServiceTypeClusterIP] (serving_web api.ServiceTypeClusterIP)
  = serving_web api.ServiceTypeClusterIP /\
  api.Ingress (api.Status (web_svc api.ServiceTypeClusterIP)) = [].
Proof. repeat apply conj; vm_compute; reflexivity. Qed.

(** The theorem on the same server with [web-svc] of type NodePort. *)
Lemma service_tick_status_witness :
  reconcileServices [web_svc api.ServiceTypeNodePort] (serving_web api.ServiceTypeNodePort)
  = with_services (status_rule true <$> {[ "web-svc" := web_svc api.ServiceTypeNodePort ]})
                  (serving_web api.ServiceTypeNodePort).
Proof.
  apply (service_tick_status [web_svc api.ServiceTypeNodePort]
           (serving_web api.ServiceTypeNodePort)).
  - intros key o H. cbn in H. apply lookup_singleton_Some in H as [<- <-]. reflexivity.
  - unfold snapshot_of. cbn. rewrite map_to_list_singleton. reflexivity.
Defined.

(** C4 as stated fails on an unreadable directory.  The storage is set
    up and the runtime is healthy, but the [pods] directory cannot be
    read: the process ends in [log.Fatalf]. *)
Lemma unreadable_directory_is_fatal :
  is_ok (NewFileStorage fs_unreadable_pods) = true /\
  (HealthCheck (daemon [])).1 = None /\
  runServer "containerd" cfg (daemon []) fs_unreadable_pods
  = Fatal ("Failed to create server: failed to load state: failed to load pods: "
           +:+ "failed to read directory: permission denied").
Proof. repeat apply conj; vm_compute; reflexivity. Qed.

(** The theorem on a data directory whose [pods] directory holds a good
    file next to an empty file, an unreadable file, a text file and a
    subdirectory: the server starts with the one pod. *)
Lemma startup_load_witness :
  exists srv,
    runServer "containerd" cfg (daemon []) fs_mixed = Serving srv /\
    pods srv = {[ "web" := pod "web" ]} /\
    nodes srv = ∅.
Proof.
  destruct (startup_load cfg (daemon []) fs_mixed fs_mixed_ready) as [_ H];
    [vm_compute; reflexivity|reflexivity|].
  replace (readable_dirs fs_mixed_ready) with true in H by (vm_compute; reflexivity).
  eexists. split; [exact H|]. split; vm_compute; reflexivity.
Defined.

(** C7 as stated fails on a tick whose system-info call fails: nothing
    is written.  On a server without nodes there is no [local-node]
    after the tick; on a server whose last tick succeeded the node of
    that tick stays as it is, Ready condition included. *)
Lemma failed_tick_writes_no_node :
  is_ok (GetSystemInfo unreachable_daemon).1 = false /\
  nodes (updateNodeStatus 30 (blank unreachable_daemon dead_fs)) !! "local-node" = None /\
  nodes (updateNodeStatus 30
           (with_rt unreachable_daemon (updateNodeStatus 0 (blank (daemon []) dead_fs))))
  = nodes (updateNodeStatus 0 (blank (daemon []) dead_fs)) /\
  condition_summary
    <$> nodes (updateNodeStatus 30
                 (with_rt unreachable_daemon (updateNodeStatus 0 (blank (daemon []) dead_fs))))
        !! "local-node"
  = Some [("Ready", "True")].
Proof. repeat apply conj; vm_compute; reflexivity. Qed.

(** The theorem on a server over a data directory that holds a node
    file: after a tick of the node reporter and a restart, the node map
    is empty. *)
Lemma nodes_are_memory_only_witness :
  ReadFile fs_mixed "nodes" "local-node.json" = inl "local-node" /\
  exists srv,
    NewServer cfg (daemon []) (store (updateNodeStatus 0 (blank (daemon []) fs_mixed))) = Ok srv /\
    nodes srv = ∅.
Proof.
  split; [vm_compute; reflexivity|].
  destruct (NewServer cfg (daemon []) (store (updateNodeStatus 0 (blank (daemon []) fs_mixed))))
    as [srv|e] eqn:Hnew; [|vm_compute in Hnew; discriminate Hnew].
  exists srv. split; [reflexivity|].
  exact (proj2 (proj2 (nodes_are_memory_only 0 (blank (daemon []) fs_mixed)))
               cfg (daemon []) srv Hnew).
Defined.

(** Scenario S4 on the containerd driver, which reports 4 CPUs and
    8 GiB whatever the machine. *)
Example node_report_on_containerd :
  (fun node => (api.Capacity (api.Status node), condition_summary node))
    <$> nodes (updateNodeStatus 0 (blank (daemon []) dead_fs)) !! "local-node"
  = Some ({[ "cpu" := 4; "memory" := 8589934592 ]}, [("Ready", "True")]).
Proof. vm_compute. reflexivity. Qed.

(** Scenario S1 as the specification words it, on the containerd
    driver: the id of the first container, [web-0-nginx], has eleven
    characters, and the log line that slices twelve of it panics once
    the container is started. *)
Example short_id_panics :
  (reconcileDeployment (deployment (Some 3) "web") (daemon [])).1
  = Panicked "slice bounds out of range" /\
  containerd.c_id
    <$> containerd.table (reconcileDeployment (deployment (Some 3) "web") (daemon [])).2
  = ["web-0-nginx"].
Proof. split; vm_compute; reflexivity. Qed.

(** * Further properties *)

(** ** The file storage *)

(** ** Strings and file names *)

Lemma app_cons_str (c : ascii) (s t : string) : String c s +:+ t = String c (s +:+ t).
Proof. reflexivity. Qed.

Lemma length_app_str (s t : string) :
  String.length (s +:+ t) = (String.length s + String.length t)%nat.
Proof.
  induction s as [|c s IH]; [reflexivity|].
  rewrite app_cons_str. cbn [String.length]. now rewrite IH.
Qed.

Lemma app_empty_r_str (s : string) : s +:+ "" = s.
Proof. induction s as [|c s IH]; [reflexivity|]. rewrite app_cons_str. now f_equal. Qed.

Lemma app_inv_tail_str (s1 s2 t : string) : s1 +:+ t = s2 +:+ t -> s1 = s2.
Proof.
  revert s2. induction s1 as [|a s1 IH]; intros [|b s2] H.
  - reflexivity.
  - apply (f_equal String.length) in H. rewrite !length_app_str in H. cbn in H. lia.
  - apply (f_equal String.length) in H. rewrite !length_app_str in H. cbn in H. lia.
  - rewrite !app_cons_str in H. injection H as -> H. f_equal. now apply IH.
Qed.

Lemma take_app_length (p t : string) : gostrings.take (String.length p) (p +:+ t) = p.
Proof.
  induction p as [|c p IH]; [now destruct t|].
  rewrite app_cons_str. cbn [String.length gostrings.take]. now f_equal.
Qed.

Lemma Ext_json (name : string) : Ext (name +:+ ".json") = ".json".
Proof.
  induction name as [|c name IH]; [reflexivity|].
  rewrite app_cons_str. cbn [Ext]. rewrite IH. reflexivity.
Qed.

Lemma Ext_suffix (name : string) : exists p, name = p +:+ Ext name.
Proof.
  induction name as [|c rest [p IH]]; [now exists ""|].
  cbn [Ext]. destruct (Ext rest) as [|a e] eqn:He.
  - destruct (existsb _ _); [exists (String c rest); now rewrite app_empty_r_str|].
    destruct (Ascii.eqb c "."); [now exists ""|].
    exists (String c rest). now rewrite app_empty_r_str.
  - exists (String c p). rewrite app_cons_str. now rewrite <- IH.
Qed.

Lemma json_stem (name : string) :
  Ext name = ".json" ->
  gostrings.take (String.length name - 5) name +:+ ".json" = name.
Proof.
  intros He. destruct (Ext_suffix name) as [p Hp]. rewrite He in Hp.
  rewrite Hp at 1 2. rewrite length_app_str. cbn [String.length].
  replace (String.length p + 5 - 5)%nat with (String.length p) by lia.
  rewrite take_app_length. now symmetry.
Qed.

Lemma stem_json (name : string) :
  gostrings.take (String.length (name +:+ ".json") - 5) (name +:+ ".json") = name.
Proof.
  rewrite length_app_str. cbn [String.length].
  replace (String.length name + 5 - 5)%nat with (String.length name) by lia.
  apply take_app_length.
Qed.

(** ** The file system *)

Lemma lookup_dir_with_dir (category category' : string) (d : DirState) (fs : FileSystem) :
  lookup_dir (with_dir category d fs) category'
  = if decide (category = category') then Some d else lookup_dir fs category'.
Proof.
  unfold lookup_dir, with_dir. cbn.
  destruct (decide (category = category')) as [->|Hne]; [apply lookup_insert_eq|].
  rewrite lookup_insert_ne by exact Hne. now destruct (root fs).
Qed.

Lemma WriteFile_ok (category file data : string) (fs fs' : FileSystem) :
  WriteFile category file data fs = (None, fs') ->
  exists d,
    lookup_dir fs category = Some d /\ writable d = true /\
    fs' = with_dir category
            (with_children (<[file := RegularFile (Some data)]> (children d)) d) fs.
Proof.
  unfold WriteFile. destruct (lookup_dir fs category) as [d|]; [|discriminate].
  destruct (writable d) eqn:Hw; [|discriminate]. cbn [negb].
  destruct (children d !! file) as [[data'|]|]; try discriminate;
    intros [= <-]; exists d; auto.
Qed.

Lemma WriteFile_failed (category file data : string) (fs : FileSystem) :
  (WriteFile category file data fs).2
  = match (WriteFile category file data fs).1 with
    | Some _ => fs
    | None => (WriteFile category file data fs).2
    end.
Proof.
  unfold WriteFile. destruct (lookup_dir fs category) as [d|]; [|reflexivity].
  destruct (negb (writable d)); [reflexivity|].
  now destruct (children d !! file) as [[data'|]|].
Qed.

Lemma storeObject_ok {T} `{!Codec T} (category name : string) (obj : T) (fs fs' : FileSystem) :
  storeObject category name obj fs = (None, fs') ->
  exists data d,
    Marshal obj = Ok data /\ lookup_dir fs category = Some d /\ writable d = true /\
    fs' = with_dir category
            (with_children (<[name +:+ ".json" := RegularFile (Some data)]> (children d)) d) fs.
Proof.
  unfold storeObject. destruct (Marshal obj) as [data|]; [|discriminate].
  destruct (WriteFile _ _ _ _) as [[e|] fs1] eqn:HW; [discriminate|].
  intros [= <-]. apply WriteFile_ok in HW as (d & Hd & Hw & ->). now exists data, d.
Qed.

Lemma storeObject_failed {T} `{!Codec T} (category name : string) (obj : T) (fs : FileSystem)
    (e : string) :
  (storeObject category name obj fs).1 = Some e -> (storeObject category name obj fs).2 = fs.
Proof.
  unfold storeObject. destruct (Marshal obj) as [data|]; [|reflexivity].
  pose proof (WriteFile_failed category (name +:+ ".json") data fs) as HW.
  destruct (WriteFile _ _ _ _) as [[e'|] fs1]; [|discriminate]. cbn in HW |- *. now intros _.
Qed.

Lemma listFiles_readable (category : string) (fs : FileSystem) (d : DirState) :
  lookup_dir fs category = Some d -> readable d = true ->
  exists names,
    listFiles category fs = Ok names /\
    forall name, name ∈ names <-> has_file d name.
Proof.
  intros Hd Hr. unfold listFiles, ReadDir. rewrite Hd, Hr.
  eexists. split; [reflexivity|]. intros name. rewrite list_elem_of_omap. split.
  - intros ([file isDir] & Hin & Hsome).
    apply list_elem_of_fmap in Hin as (file' & [= <- ->] & Hin).
    rewrite merge_sort_Permutation in Hin.
    apply list_elem_of_fmap in Hin as ([file' node] & -> & Hin). cbn in Hsome |- *.
    apply elem_of_map_to_list in Hin. rewrite Hin in Hsome.
    destruct node as [data|]; [|discriminate]. cbn in Hsome.
    destruct (String.eqb (Ext file') ".json") eqn:He; [|discriminate].
    injection Hsome as <-. apply String.eqb_eq in He.
    exists data. now rewrite json_stem.
  - intros [data Hch]. exists (name +:+ ".json", false). split.
    + apply list_elem_of_fmap. exists (name +:+ ".json"). rewrite Hch. split; [reflexivity|].
      rewrite merge_sort_Permutation. apply list_elem_of_fmap.
      exists (name +:+ ".json", RegularFile data). split; [reflexivity|].
      now apply elem_of_map_to_list.
    + cbn. rewrite Ext_json. cbn. now rewrite stem_json.
Qed.

Lemma NoDup_omap_inj {A B} (f : A -> option B) (l : list A) :
  (forall x y z, f x = Some z -> f y = Some z -> x = y) ->
  NoDup l -> NoDup (omap f l).
Proof.
  intros Hinj. induction 1 as [|x l Hx Hl IH]; cbn; [constructor|].
  destruct (f x) as [z|] eqn:Hz; [|exact IH].
  constructor; [|exact IH]. intros Hin.
  apply list_elem_of_omap in Hin as (y & Hy & Hfy).
  rewrite (Hinj x y z Hz Hfy) in Hx. contradiction.
Qed.

Lemma listFiles_NoDup (category : string) (fs : FileSystem) (names : list string) :
  listFiles category fs = Ok names -> NoDup names.
Proof.
  unfold listFiles. destruct (ReadDir fs category) as [files|] eqn:HR; [|discriminate].
  intros [= <-]. unfold ReadDir in HR.
  destruct (lookup_dir fs category) as [d|]; [|discriminate].
  destruct (readable d); [|discriminate]. injection HR as <-.
  apply NoDup_omap_inj.
  - intros [x xd] [y yd] z Hx Hy.
    destruct (negb xd && String.eqb (Ext x) ".json") eqn:Ex; [|discriminate].
    destruct (negb yd && String.eqb (Ext y) ".json") eqn:Ey; [|discriminate].
    apply andb_true_iff in Ex as [Hxd Ex], Ey as [Hyd Ey].
    apply String.eqb_eq in Ex, Ey. injection Hx as <-. injection Hy as Hy.
    assert (x = y) as ->.
    { rewrite <- (json_stem x Ex), <- (json_stem y Ey). now rewrite Hy. }
    f_equal. destruct xd, yd; try reflexivity; discriminate.
  - apply NoDup_fmap_2.
    + intros x y [= ->]. reflexivity.
    + rewrite merge_sort_Permutation. apply NoDup_fst_map_to_list.
Qed.

Lemma ReadFile_written (category file : string) (d : DirState) (fs : FileSystem)
    (node : FileNode) (category' file' : string) :
  ReadFile (with_dir category (with_children (<[file := node]> (children d)) d) fs)
           category' file'
  = if decide (category = category')
    then if decide (file = file')
         then match node with
              | RegularFile (Some data) => inl data
              | _ => inr OtherError
              end
         else match children d !! file' with
              | None => inr NotExist
              | Some (RegularFile (Some data)) => inl data
              | Some _ => inr OtherError
              end
    else ReadFile fs category' file'.
Proof.
  unfold ReadFile. rewrite lookup_dir_with_dir.
  destruct (decide (category = category')) as [->|Hc]; [|reflexivity].
  cbn [children with_children].
  destruct (decide (file = file')) as [->|Hf].
  - rewrite lookup_insert_eq. now destruct node as [[data|]|].
  - rewrite lookup_insert_ne by exact Hf.
    now destruct (children d !! file') as [[[data|]|]|].
Qed.

Lemma storeObject_getObject {T} `{!Codec T} (category name : string) (obj : T)
    (fs fs' : FileSystem) :
  storeObject category name obj fs = (None, fs') ->
  round_trips obj ->
  getObject category name fs' = Ok obj.
Proof.
  intros Hstore Hcodec.
  apply storeObject_ok in Hstore as (data & d & Hm & Hd & Hw & ->).
  unfold getObject. rewrite ReadFile_written, !decide_True by reflexivity.
  now rewrite (Hcodec data Hm).
Qed.

Lemma storeObject_frame {T U} `{!Codec T, !Codec U} (category name : string)
    (obj : T) (fs : FileSystem) (category' name' : string) :
  (category', name') <> (category, name) ->
  getObject (T := U) category' name' (storeObject category name obj fs).2
  = getObject category' name' fs.
Proof.
  intros Hne.
  destruct (storeObject category name obj fs) as [[e|] fs'] eqn:Hs.
  - pose proof (storeObject_failed category name obj fs e) as Hf.
    rewrite Hs in Hf. cbn in Hf |- *. now rewrite Hf.
  - apply storeObject_ok in Hs as (data & d & Hm & Hd & Hw & ->). cbn [snd].
    unfold getObject. rewrite ReadFile_written.
    destruct (decide (category = category')) as [<-|Hc]; [|reflexivity].
    rewrite decide_False.
    + unfold ReadFile. rewrite Hd. reflexivity.
    + intros Heq. apply app_inv_tail_str in Heq. subst name'. now apply Hne.
Qed.

(** A file that reads is listed, wherever the listing succeeds. *)
Lemma read_file_is_listed (category name data : string) (fs : FileSystem)
    (names : list string) :
  ReadFile fs category (name +:+ ".json") = inl data ->
  listFiles category fs = Ok names ->
  name ∈ names.
Proof.
  intros Hread Hlist. unfold ReadFile in Hread.
  destruct (lookup_dir fs category) as [d|] eqn:Hd; [|discriminate].
  destruct (readable d) eqn:Hr.
  - destruct (listFiles_readable _ _ _ Hd Hr) as (names' & Hl' & Hspec).
    rewrite Hl' in Hlist. injection Hlist as <-. apply Hspec.
    destruct (children d !! (name +:+ ".json")) as [[[data'|]|]|] eqn:Hch;
      try discriminate. now exists (Some data').
  - unfold listFiles, ReadDir in Hlist. rewrite Hd, Hr in Hlist. discriminate Hlist.
Qed.

Lemma loaded_object_is_listed {T} `{!Codec T} (category name : string) (obj : T)
    (fs : FileSystem) (names : list string) :
  getObject category name fs = Ok obj ->
  listFiles category fs = Ok names ->
  name ∈ names /\ obj ∈ loadAll category names fs.
Proof.
  intros Hget Hlist.
  assert (name ∈ names) as Hin.
  { unfold getObject in Hget.
    destruct (ReadFile fs category (name +:+ ".json")) as [data|[]] eqn:Hread;
      try discriminate. eapply read_file_is_listed; eassumption. }
  split; [exact Hin|]. unfold loadAll. apply list_elem_of_omap.
  exists name. split; [exact Hin|]. now rewrite Hget.
Qed.

(** X1.  After [storeObject] has written an object without error,
    under a name without path separator, [getObject] of the same
    category and name returns that object, provided the object decodes
    from its own encoding; and every listing of the category that
    succeeds holds the name, so that the [List...] loop loads the
    object. *)
Theorem stored_object_reads_back {T} `{!Codec T} (category name : string) (obj : T)
    (fs fs' : FileSystem) :
  storeObject category name obj fs = (None, fs') ->
  round_trips obj ->
  plain_name name = true ->
  getObject category name fs' = Ok obj /\
  forall names, listFiles category fs' = Ok names ->
                name ∈ names /\ obj ∈ loadAll category names fs'.
Proof.
  intros Hstore Hcodec _.
  pose proof (storeObject_getObject _ _ _ _ _ Hstore Hcodec) as Hget.
  split; [exact Hget|]. intros names. now apply loaded_object_is_listed.
Qed.

(** X2.  Storing an object, whether the write succeeds or fails,
    changes no other object: [getObject] of any other category or
    name (names without path separator) gives what it gave before, and
    the listing of every other category is what it was. *)
Theorem store_keeps_other_objects {T U} `{!Codec T, !Codec U} (category name : string)
    (obj : T) (fs : FileSystem) (category' name' : string) :
  plain_name name = true -> plain_name name' = true ->
  (category', name') <> (category, name) ->
  getObject (T := U) category' name' (storeObject category name obj fs).2
  = getObject category' name' fs /\
  (category' <> category -> listFiles category' (storeObject category name obj fs).2
                            = listFiles category' fs).
Proof.
  intros _ _ Hne. split; [now apply storeObject_frame|]. intros Hc.
  destruct (storeObject category name obj fs) as [[e|] fs'] eqn:Hs.
  - pose proof (storeObject_failed category name obj fs e) as Hf.
    rewrite Hs in Hf. cbn in Hf |- *. now rewrite Hf.
  - apply storeObject_ok in Hs as (data & d & Hm & Hd & Hw & ->). cbn [snd].
    unfold listFiles, ReadDir. rewrite lookup_dir_with_dir.
    now rewrite decide_False by congruence.
Qed.

Lemma Remove_spec (category file : string) (fs : FileSystem) :
  Remove category file fs
  = match lookup_dir fs category with
    | None => (Some NotExist, fs)
    | Some d =>
        match children d !! file with
        | None => (Some NotExist, fs)
        | Some _ =>
            if writable d
            then (None, with_dir category (with_children (delete file (children d)) d) fs)
            else (Some OtherError, fs)
        end
    end.
Proof.
  unfold Remove. destruct (lookup_dir fs category) as [d|]; [|reflexivity].
  destruct (children d !! file); [|reflexivity]. now destruct (writable d).
Qed.

(** X3.  [deleteObject] is idempotent: a second delete returns what
    the first returned and leaves the file system as the first left
    it.  After a delete without error [getObject] reports that the
    object is not found, and deleting an object whose file does not
    exist is no error and changes nothing. *)
Theorem deleted_object_is_gone {T} `{!Codec T} (category name : string) (fs : FileSystem) :
  deleteObject category name (deleteObject category name fs).2
  = deleteObject category name fs /\
  ((deleteObject category name fs).1 = None ->
   getObject (T := T) category name (deleteObject category name fs).2
   = Err ("object not found: " +:+ name)) /\
  (ReadFile fs category (name +:+ ".json") = inr NotExist ->
   deleteObject category name fs = (None, fs)).
Proof.
  unfold deleteObject, getObject.
  pose proof (Remove_spec category (name +:+ ".json") fs) as HR. unfold ReadFile.
  destruct (lookup_dir fs category) as [d|] eqn:Hd.
  - destruct (children d !! (name +:+ ".json")) as [node|] eqn:Hn.
    + destruct (writable d) eqn:Hw; rewrite HR; cbn [fst snd].
      * rewrite Remove_spec, lookup_dir_with_dir, decide_True by reflexivity.
        cbn [children with_children]. rewrite lookup_delete_eq.
        split; [reflexivity|]. split; [reflexivity|]. now destruct node as [[data|]|].
      * rewrite Remove_spec, Hd, Hn, Hw.
        split; [reflexivity|]. split; [discriminate|]. now destruct node as [[data|]|].
    + rewrite HR. cbn [fst snd]. rewrite HR, Hd, Hn. repeat split.
  - rewrite HR. cbn [fst snd]. rewrite HR, Hd. repeat split.
Qed.

(** X4.  [listFiles] of a directory that can be read returns, each
    once, exactly the names [n] for which the directory holds a
    regular file [n.json]: subdirectories and files of another
    extension are left out.  On a directory that is missing or cannot
    be read it returns an error. *)
Theorem listFiles_lists_the_json_files (category : string) (fs : FileSystem) :
  match lookup_dir fs category with
  | Some d =>
      if readable d then
        exists names,
          listFiles category fs = Ok names /\ NoDup names /\
          forall name, name ∈ names <-> has_file d name
      else is_ok (listFiles category fs) = false
  | None => is_ok (listFiles category fs) = false
  end.
Proof.
  destruct (lookup_dir fs category) as [d|] eqn:Hd.
  - destruct (readable d) eqn:Hr.
    + destruct (listFiles_readable _ _ _ Hd Hr) as (names & Hl & Hspec).
      exists names. split; [exact Hl|]. split; [now apply listFiles_NoDup in Hl|exact Hspec].
    + unfold listFiles, ReadDir. now rewrite Hd, Hr.
  - unfold listFiles, ReadDir. now rewrite Hd.
Qed.

Lemma mkdirs_keeps (dirs : list string) (fs fs' : FileSystem) :
  mkdirs dirs fs = Ok fs' ->
  (forall category, category ∈ dirs -> is_Some (lookup_dir fs' category)) /\
  (forall category d, lookup_dir fs category = Some d -> lookup_dir fs' category = Some d).
Proof.
  revert fs. induction dirs as [|subdir dirs IH]; intros fs; cbn [mkdirs].
  - intros [= <-]. split; [intros c Hc; now apply elem_of_nil in Hc|auto].
  - unfold MkdirAll. destruct (lookup_dir fs subdir) as [d0|] eqn:H0.
    + intros Hrest. destruct (IH _ Hrest) as [Hall Hkeep]. split; [|exact Hkeep].
      intros c Hc. apply elem_of_cons in Hc as [->|Hc]; [|now apply Hall].
      rewrite (Hkeep _ _ H0). eauto.
    + destruct (can_mkdir fs); [|discriminate].
      intros Hrest. destruct (IH _ Hrest) as [Hall Hkeep]. split.
      * intros c Hc. apply elem_of_cons in Hc as [->|Hc]; [|now apply Hall].
        erewrite Hkeep; [eauto|]. rewrite lookup_dir_with_dir. now rewrite decide_True.
      * intros c d Hc. apply Hkeep. rewrite lookup_dir_with_dir.
        destruct (decide (subdir = c)) as [->|]; [congruence|exact Hc].
Qed.

Lemma mkdirs_noop (dirs : list string) (fs : FileSystem) :
  (forall category, category ∈ dirs -> is_Some (lookup_dir fs category)) ->
  mkdirs dirs fs = Ok fs.
Proof.
  induction dirs as [|subdir dirs IH]; intros Hall; [reflexivity|].
  cbn [mkdirs]. unfold MkdirAll.
  destruct (Hall subdir) as [d ->]; [left|]. apply IH. intros c Hc. apply Hall. now right.
Qed.

Lemma NewFileStorage_keeps (fs fs' : FileSystem) :
  NewFileStorage fs = Ok fs' ->
  (forall category, category ∈ subdirs -> is_Some (lookup_dir fs' category)) /\
  (forall category d, lookup_dir fs category = Some d -> lookup_dir fs' category = Some d).
Proof.
  unfold NewFileStorage, MkdirAll_root.
  destruct (root fs) as [ds|] eqn:Hroot.
  - apply mkdirs_keeps.
  - destruct (can_mkdir fs); [|discriminate]. intros H.
    apply mkdirs_keeps in H as [Hall _]. split; [exact Hall|].
    intros c d. unfold lookup_dir. rewrite Hroot. discriminate.
Qed.

(** X5.  When [NewFileStorage] succeeds, the five directories of
    the kinds exist, every directory that was there before is kept
    with its content, and [NewFileStorage] over the result changes
    nothing. *)
Theorem NewFileStorage_prepares (fs fs' : FileSystem) :
  NewFileStorage fs = Ok fs' ->
  (forall category, category ∈ subdirs -> is_Some (lookup_dir fs' category)) /\
  (forall category d, lookup_dir fs category = Some d -> lookup_dir fs' category = Some d) /\
  NewFileStorage fs' = Ok fs'.
Proof.
  intros H. destruct (NewFileStorage_keeps _ _ H) as [Hall Hkeep].
  split; [exact Hall|]. split; [exact Hkeep|].
  unfold NewFileStorage, MkdirAll_root.
  destruct (Hall "pods") as [d Hd]; [unfold subdirs; set_solver|].
  unfold lookup_dir in Hd. destruct (root fs') as [ds|] eqn:Hroot; [|discriminate Hd].
  apply mkdirs_noop. intros c Hc. specialize (Hall c Hc).
  unfold lookup_dir in Hall |- *. now rewrite Hroot in Hall |- *.
Qed.

(** ** Requests, the maps and restarts *)

Lemma keyed_insert {A B} (m : gmap string (api.Object A B)) (key : string)
    (o : api.Object A B) :
  keyed_by_name m -> api.name_of o = key -> keyed_by_name (<[key := o]> m).
Proof.
  intros Hm Ho k o' Hk. destruct (decide (key = k)) as [<-|Hne].
  - rewrite lookup_insert_eq in Hk. now injection Hk as <-.
  - rewrite lookup_insert_ne in Hk by exact Hne. now apply Hm.
Qed.

Lemma keyed_delete {A B} (m : gmap string (api.Object A B)) (key : string) :
  keyed_by_name m -> keyed_by_name (delete key m).
Proof.
  intros Hm k o Hk. apply lookup_delete_Some in Hk as [_ Hk]. now apply Hm.
Qed.

Lemma keyed_empty {A B} : keyed_by_name (∅ : gmap string (api.Object A B)).
Proof. intros k o Hk. now rewrite lookup_empty in Hk. Qed.

Lemma keyed_install {A B} (xs : list (api.Object A B)) (m : gmap string (api.Object A B)) :
  keyed_by_name m -> keyed_by_name (install xs m).
Proof.
  revert m. induction xs as [|x xs IH]; intros m Hm; [exact Hm|].
  apply IH. now apply keyed_insert.
Qed.

Section run_properties.
Context {R : Type} `{!ContainerRuntime R}.
Context {pods_as : Codec api.Pod} {deployments_as : Codec api.Deployment}
        {statefulsets_as : Codec api.StatefulSet} {services_as : Codec api.Service}
        {nodes_as : Codec api.Node} {scales_as : Codec ScaleRequest}.
Context {Manifest : Type} `{!Codec Manifest} (kindOf : Manifest -> option string).

Ltac decode_cases :=
  repeat match goal with
         | |- context [match decodeManifest ?r with _ => _ end] =>
             destruct (decodeManifest r) eqn:?
         | |- context [match kindOf ?m with _ => _ end] => destruct (kindOf m) eqn:?
         | |- context [if String.eqb ?a ?b then _ else _] => destruct (String.eqb a b) eqn:?
         | |- context [match Unmarshal ?d with _ => _ end] => destruct (Unmarshal d) eqn:?
         end.

Ltac unfold_handlers :=
  cbn [SetupRoutes];
  unfold listPodsHandler, createPodHandler, getPodHandler, updatePodHandler, deletePodHandler,
    listDeploymentsHandler, createDeploymentHandler, getDeploymentHandler,
    updateDeploymentHandler, deleteDeploymentHandler, scaleDeploymentHandler,
    listStatefulSetsHandler, createStatefulSetHandler, getStatefulSetHandler,
    updateStatefulSetHandler, deleteStatefulSetHandler, scaleStatefulSetHandler,
    listServicesHandler, createServiceHandler, getServiceHandler, updateServiceHandler,
    deleteServiceHandler, listNodesHandler, getNodeHandler, getGenericWorkloadHandler,
    deleteGenericWorkloadHandler, createGenericWorkloadHandler, updateGenericWorkloadHandler,
    applyManifestHandler, writeError, writeJSON;
  cbv zeta.

Ltac keyed_goal :=
  first [ assumption
        | apply keyed_delete; assumption
        | apply keyed_insert;
          [ assumption
          | first [ reflexivity
                  | apply name_of_setDefaultsForPod
                  | apply name_of_setDefaultsForDeployment
                  | apply name_of_setDefaultsForStatefulSet
                  | apply name_of_setDefaultsForService
                  | rewrite ?name_of_setDefaultsForPod, ?name_of_setDefaultsForDeployment,
                      ?name_of_setDefaultsForStatefulSet, ?name_of_setDefaultsForService;
                    reflexivity
                  | match goal with
                    | Hk : keyed_by_name ?m, H : ?m !! ?k = Some ?o
                      |- api.name_of (api.with_Spec _ ?o) = ?k => exact (Hk _ _ H)
                    end ] ] ].

Lemma request_keeps_keys (route : Route) (now : Z) (r : Request) (s : Server R) :
  well_keyed s -> well_keyed (SetupRoutes kindOf route now r s).2.
Proof.
  intros (Hp & Hd & Hs & Hv & Hn).
  destruct route; unfold_handlers; repeat case_match; simplify_eq;
    repeat split; cbn; keyed_goal.
Qed.

Lemma loadState_keeps_keys (s s' : Server R) :
  well_keyed s -> loadState s = Ok s' -> well_keyed s'.
Proof.
  intros (Hp & Hd & Hs & Hv & Hn). unfold loadState.
  cbn [store with_pods with_deployments with_statefulsets with_services].
  destruct (ListPods (store s)); [|discriminate].
  destruct (ListDeployments (store s)); [|discriminate].
  destruct (ListStatefulSets (store s)); [|discriminate].
  destruct (ListServices (store s)); [|discriminate].
  intros [= <-]. repeat split; cbn; try apply keyed_install; assumption.
Qed.

Lemma node_tick_keeps_keys (now : Z) (s : Server R) :
  well_keyed s -> well_keyed (updateNodeStatus now s).
Proof.
  intros (Hp & Hd & Hs & Hv & Hn). unfold updateNodeStatus.
  destruct (GetSystemInfo (rt s)) as [[info|e] r]; repeat split; cbn; try assumption.
  now apply keyed_insert.
Qed.

Lemma reconcileService_keeps_keys (service : api.Service) (s : Server R) :
  well_keyed s -> well_keyed (reconcileService service s).2.
Proof.
  intros (Hp & Hd & Hs & Hv & Hn). unfold reconcileService, findTargetContainers.
  destruct (ListContainers _ (rt s)) as [[cs|e] r]; cbn [snd]; [|now repeat split].
  unfold updateServiceStatus. cbn [services with_rt].
  destruct (services s !! api.name_of service) as [stored|] eqn:Hst; [|now repeat split].
  destruct (String.eqb _ _); [|now repeat split].
  repeat split; cbn; try assumption.
  apply keyed_insert; [assumption|]. exact (Hv _ _ Hst).
Qed.

Lemma workload_tick_keeps_keys (ds : list api.Deployment) (sss : list api.StatefulSet)
    (s : Server R) :
  well_keyed s -> well_keyed (reconcileWorkloads ds sss s).2.
Proof.
  intros Hk. unfold reconcileWorkloads.
  destruct (reconcileEach reconcileDeployment ds (rt s)) as [[[]|m] r]; [|exact Hk].
  destruct (reconcileEach reconcileStatefulSet sss r) as [o r']. exact Hk.
Qed.

(** X6.  In every state that a server reaches from [NewServer]
    through API requests, ticks of the node reporter, reconciliations
    of a service and ticks of the workload controller, each of the
    five maps holds every resource under the resource's own name. *)
Theorem resources_are_stored_under_their_names (s : Server R) :
  reachable kindOf s -> well_keyed s.
Proof.
  induction 1 as [cfg runtime fs s Hnew|s s' _ IH Hstep].
  - unfold NewServer in Hnew. destruct (NewFileStorage fs) as [fs'|]; [|discriminate].
    destruct (loadState _) as [srv|] eqn:Hload; [|discriminate]. injection Hnew as <-.
    eapply loadState_keeps_keys; [|exact Hload].
    repeat split; apply keyed_empty.
  - destruct Hstep.
    + now apply request_keeps_keys.
    + now apply node_tick_keeps_keys.
    + now apply reconcileService_keeps_keys.
    + now apply workload_tick_keeps_keys.
Qed.

Lemma deleteGeneric_absent (now : Z) (r : Request) (s : Server R) :
  deployments s !! VarName r = None ->
  statefulsets s !! VarName r = None ->
  pods s !! VarName r = None ->
  deleteGenericWorkloadHandler now r s
  = (writeError s StatusNotFound "Workload not found" None, s).
Proof.
  intros Hd Hs Hp. unfold deleteGenericWorkloadHandler. cbv zeta.
  rewrite Hd, Hs, Hp. reflexivity.
Qed.

Lemma deleteGeneric_maps (now : Z) (r : Request) (s : Server R) :
  deployments (deleteGenericWorkloadHandler now r s).2 = delete (VarName r) (deployments s) /\
  statefulsets (deleteGenericWorkloadHandler now r s).2
  = delete (VarName r) (statefulsets s) /\
  pods (deleteGenericWorkloadHandler now r s).2 = delete (VarName r) (pods s) /\
  services (deleteGenericWorkloadHandler now r s).2 = services s /\
  nodes (deleteGenericWorkloadHandler now r s).2 = nodes s /\
  StatusCode (deleteGenericWorkloadHandler now r s).1
  = if bool_decide (deployments s !! VarName r = None /\
                    statefulsets s !! VarName r = None /\ pods s !! VarName r = None)
    then 404 else 204.
Proof.
  unfold deleteGenericWorkloadHandler. cbv zeta.
  destruct (deployments s !! VarName r) as [d|] eqn:Hd;
    cbn [statefulsets with_store with_deployments];
    (destruct (statefulsets s !! VarName r) as [ss|] eqn:Hs;
     cbn [pods with_store with_deployments with_statefulsets];
     (destruct (pods s !! VarName r) as [p|] eqn:Hp;
      cbn [fst snd pods deployments statefulsets services nodes with_store with_pods
             with_deployments with_statefulsets StatusCode writeJSON writeError];
      rewrite ?(delete_id _ _ Hd), ?(delete_id _ _ Hs), ?(delete_id _ _ Hp);
      repeat split;
      try (rewrite bool_decide_eq_false_2; [reflexivity|intros (? & ? & ?); congruence]))).
Qed.

(** X7.  After a DELETE of a name, typed or generic, the read route
    of the kind answers 404 for that name, and a second DELETE leaves
    the server as the first left it.  The typed DELETE routes answer
    204 whether or not the name was there. *)
Theorem deleted_resource_is_not_found (route get : Route) (now now' : Z) (r r' : Request)
    (s : Server R) :
  read_of_delete route = Some get ->
  VarName r' = VarName r ->
  (SetupRoutes kindOf route now' r' (SetupRoutes kindOf route now r s).2).2
  = (SetupRoutes kindOf route now r s).2 /\
  StatusCode (SetupRoutes kindOf get now' r' (SetupRoutes kindOf route now r s).2).1 = 404 /\
  (route <> DELETE_workload ->
   SetupRoutes kindOf route now r s
   = ({| StatusCode := 204; Sent := NoContent |}, (SetupRoutes kindOf route now r s).2)).
Proof.
  intros Hget Hname.
  pose proof (fun c => proj1 (deleted_object_is_gone (T := api.Pod) c (VarName r)
                                (store s))) as Hagain.
  destruct route; try discriminate Hget; injection Hget as <-.
  3: { cbn [SetupRoutes].
       destruct (deleteGeneric_maps now r s) as (Hd & Hs & Hp & _).
       assert (deployments (deleteGenericWorkloadHandler now r s).2 !! VarName r' = None)
         as Hd' by (rewrite Hd, Hname; apply lookup_delete_eq).
       assert (statefulsets (deleteGenericWorkloadHandler now r s).2 !! VarName r' = None)
         as Hs' by (rewrite Hs, Hname; apply lookup_delete_eq).
       assert (pods (deleteGenericWorkloadHandler now r s).2 !! VarName r' = None)
         as Hp' by (rewrite Hp, Hname; apply lookup_delete_eq).
       split; [now rewrite deleteGeneric_absent|].
       split; [|congruence].
       unfold getGenericWorkloadHandler. cbv zeta. now rewrite Hd', Hs', Hp'. }
  all: unfold_handlers; rewrite ?Hname;
    cbn [fst snd pods deployments statefulsets services store with_pods
           with_deployments with_statefulsets with_services with_store StatusCode];
    unfold DeletePod, DeleteDeployment, DeleteStatefulSet, DeleteService;
    rewrite ?lookup_delete_eq, ?delete_delete_eq, ?Hagain;
    repeat split; reflexivity.
Qed.

Lemma deleteGeneric_rest (now : Z) (r : Request) (s : Server R) :
  config (deleteGenericWorkloadHandler now r s).2 = config s /\
  rt (deleteGenericWorkloadHandler now r s).2 = rt s.
Proof.
  unfold deleteGenericWorkloadHandler. cbv zeta.
  destruct (deployments s !! VarName r) as [d|];
    cbn [statefulsets with_store with_deployments];
    (destruct (statefulsets s !! VarName r) as [ss|];
     cbn [pods with_store with_deployments with_statefulsets];
     (destruct (pods s !! VarName r) as [p|]; split; reflexivity)).
Qed.

(** X8.  [DELETE /workloads/{name}] leaves the server's memory as
    the DELETE routes of deployments, stateful sets and pods do when
    run one after the other; it answers 404 when none of the three
    maps held the name and 204 otherwise. *)
Theorem generic_delete_is_the_three_deletes (now : Z) (r : Request) (s : Server R) :
  same_memory
    (SetupRoutes kindOf DELETE_workload now r s).2
    (SetupRoutes kindOf DELETE_pod now r
       (SetupRoutes kindOf DELETE_statefulset now r
          (SetupRoutes kindOf DELETE_deployment now r s).2).2).2 /\
  StatusCode (SetupRoutes kindOf DELETE_workload now r s).1
  = if bool_decide (deployments s !! VarName r = None /\
                    statefulsets s !! VarName r = None /\ pods s !! VarName r = None)
    then 404 else 204.
Proof.
  cbn [SetupRoutes].
  destruct (deleteGeneric_maps now r s) as (Hd & Hs & Hp & Hv & Hn & Hcode).
  destruct (deleteGeneric_rest now r s) as (Hc & Hr).
  split; [|exact Hcode].
  unfold same_memory. rewrite Hd, Hs, Hp, Hv, Hn, Hc, Hr.
  repeat split.
Qed.
(** X9.  The scale routes never write to the storage: the file
    system after a scale request is the one before it.  For a
    deployment or stateful set that exists and a body that decodes, the
    read route then returns the resource with its replica count set to
    the requested one, whatever integer that is, and nothing else
    changed. *)
Theorem scale_is_not_persisted (now : Z) (r : Request) (s : Server R) :
  store (SetupRoutes kindOf PUT_deployment_scale now r s).2 = store s /\
  store (SetupRoutes kindOf PUT_statefulset_scale now r s).2 = store s /\
  (forall (scaleReq : ScaleRequest) (deployment : api.Deployment),
     Unmarshal (Body r) = Ok scaleReq ->
     deployments s !! VarName r = Some deployment ->
     SetupRoutes kindOf GET_deployment now r (SetupRoutes kindOf PUT_deployment_scale now r s).2
     = ({| StatusCode := 200;
           Sent := DeploymentJSON
                     (api.with_Spec
                        (api.with_Replicas (Some (Scale_Replicas scaleReq))
                                           (api.Spec deployment)) deployment) |},
        (SetupRoutes kindOf PUT_deployment_scale now r s).2)) /\
  (forall (scaleReq : ScaleRequest) (statefulset : api.StatefulSet),
     Unmarshal (Body r) = Ok scaleReq ->
     statefulsets s !! VarName r = Some statefulset ->
     SetupRoutes kindOf GET_statefulset now r
       (SetupRoutes kindOf PUT_statefulset_scale now r s).2
     = ({| StatusCode := 200;
           Sent := StatefulSetJSON
                     (api.with_Spec
                        (api.with_SS_Replicas (Some (Scale_Replicas scaleReq))
                                              (api.Spec statefulset)) statefulset) |},
        (SetupRoutes kindOf PUT_statefulset_scale now r s).2)).
Proof.
  unfold_handlers. repeat split.
  - destruct (Unmarshal (Body r)); [|reflexivity].
    now destruct (deployments s !! VarName r).
  - destruct (Unmarshal (Body r)); [|reflexivity].
    now destruct (statefulsets s !! VarName r).
  - intros scaleReq d -> ->. cbn. now rewrite lookup_insert_eq.
  - intros scaleReq d -> ->. cbn. now rewrite lookup_insert_eq.
Qed.

Lemma setDefaultsForPod_twice (now now' : Z) (pod : api.Pod) :
  setDefaultsForPod now' (setDefaultsForPod now pod) = setDefaultsForPod now pod.
Proof. destruct pod as [[[|c v] [|c' k]] [n [t|] l] sp st]; reflexivity. Qed.

Lemma setDefaultsForService_twice (now now' : Z) (service : api.Service) :
  setDefaultsForService now' (setDefaultsForService now service)
  = setDefaultsForService now service.
Proof. destruct service as [[[|c v] [|c' k]] [n [t|] l] sp st]; reflexivity. Qed.

Lemma setDefaultsForDeployment_twice (now now' : Z) (deployment : api.Deployment) :
  setDefaultsForDeployment now' (setDefaultsForDeployment now deployment)
  = setDefaultsForDeployment now deployment /\
  is_Some (api.Replicas (api.Spec (setDefaultsForDeployment now deployment))).
Proof.
  destruct deployment as [[[|c v] [|c' k]] [n [t|] l] [[r|] sel tpl] st];
    (split; [reflexivity|cbn; eauto]).
Qed.

Lemma setDefaultsForStatefulSet_twice (now now' : Z) (statefulset : api.StatefulSet) :
  setDefaultsForStatefulSet now' (setDefaultsForStatefulSet now statefulset)
  = setDefaultsForStatefulSet now statefulset /\
  is_Some (api.SS_Replicas (api.Spec (setDefaultsForStatefulSet now statefulset))).
Proof.
  destruct statefulset as [[[|c v] [|c' k]] [n [t|] l] [[r|] sel tpl sn] st];
    (split; [reflexivity|cbn; eauto]).
Qed.
(** X10.  Posting a resource that the server already stores, as it
    stores it (that is, with the defaults applied), answers 201 with
    that resource and leaves the server's memory as it was, the
    creation time included: the defaults change no field that is
    set. *)
Theorem reapplying_a_stored_resource_changes_nothing (now0 now : Z) (r : Request)
    (s : Server R) :
  (forall pod : api.Pod,
     decodeManifest r = Ok (setDefaultsForPod now0 pod) ->
     pods s !! api.name_of pod = Some (setDefaultsForPod now0 pod) ->
     (SetupRoutes kindOf POST_pods now r s).1
     = {| StatusCode := 201; Sent := PodJSON (setDefaultsForPod now0 pod) |} /\
     same_memory (SetupRoutes kindOf POST_pods now r s).2 s) /\
  (forall deployment : api.Deployment,
     decodeManifest r = Ok (setDefaultsForDeployment now0 deployment) ->
     deployments s !! api.name_of deployment = Some (setDefaultsForDeployment now0 deployment) ->
     (SetupRoutes kindOf POST_deployments now r s).1
     = {| StatusCode := 201;
          Sent := DeploymentJSON (setDefaultsForDeployment now0 deployment) |} /\
     same_memory (SetupRoutes kindOf POST_deployments now r s).2 s) /\
  (forall statefulset : api.StatefulSet,
     decodeManifest r = Ok (setDefaultsForStatefulSet now0 statefulset) ->
     statefulsets s !! api.name_of statefulset
     = Some (setDefaultsForStatefulSet now0 statefulset) ->
     (SetupRoutes kindOf POST_statefulsets now r s).1
     = {| StatusCode := 201;
          Sent := StatefulSetJSON (setDefaultsForStatefulSet now0 statefulset) |} /\
     same_memory (SetupRoutes kindOf POST_statefulsets now r s).2 s) /\
  (forall service : api.Service,
     decodeManifest r = Ok (setDefaultsForService now0 service) ->
     services s !! api.name_of service = Some (setDefaultsForService now0 service) ->
     (SetupRoutes kindOf POST_services now r s).1
     = {| StatusCode := 201; Sent := ServiceJSON (setDefaultsForService now0 service) |} /\
     same_memory (SetupRoutes kindOf POST_services now r s).2 s).
Proof.
  unfold_handlers. unfold same_memory.
  split; [|split; [|split]]; intros o -> Hs; cbn.
  - rewrite setDefaultsForPod_twice, name_of_setDefaultsForPod.
    rewrite (insert_id _ _ _ Hs). repeat split.
  - rewrite (proj1 (setDefaultsForDeployment_twice _ _ _)), name_of_setDefaultsForDeployment.
    rewrite (insert_id _ _ _ Hs). repeat split.
  - rewrite (proj1 (setDefaultsForStatefulSet_twice _ _ _)),
      name_of_setDefaultsForStatefulSet.
    rewrite (insert_id _ _ _ Hs). repeat split.
  - rewrite setDefaultsForService_twice, name_of_setDefaultsForService.
    rewrite (insert_id _ _ _ Hs). repeat split.
Qed.

(** *** Restart *)

Lemma install_lookup_notin {A B} (xs : list (api.Object A B))
    (m : gmap string (api.Object A B)) (key : string) :
  key ∉ api.name_of <$> xs -> install xs m !! key = m !! key.
Proof.
  revert m. induction xs as [|x xs IH]; intros m Hk; [reflexivity|].
  rewrite fmap_cons in Hk. apply not_elem_of_cons in Hk as [Hx Hk].
  unfold install. cbn [foldl]. fold (install xs (<[api.name_of x := x]> m)).
  rewrite IH by exact Hk. now rewrite lookup_insert_ne by congruence.
Qed.

Lemma install_lookup_in {A B} (xs : list (api.Object A B))
    (m : gmap string (api.Object A B)) (x : api.Object A B) :
  NoDup (api.name_of <$> xs) -> x ∈ xs -> install xs m !! api.name_of x = Some x.
Proof.
  revert m. induction xs as [|y xs IH]; intros m Hnd Hx; [now apply elem_of_nil in Hx|].
  rewrite fmap_cons in Hnd. apply NoDup_cons in Hnd as [Hy Hnd].
  unfold install. cbn [foldl]. fold (install xs (<[api.name_of y := y]> m)).
  apply elem_of_cons in Hx as [->|Hx].
  - rewrite install_lookup_notin by exact Hy. apply lookup_insert_eq.
  - now apply IH.
Qed.

Lemma loadAll_cons {T} `{!Codec T} (category file : string) (files : list string)
    (fs : FileSystem) :
  loadAll (T := T) category (file :: files) fs
  = match getObject category file fs with
    | Ok obj => obj :: loadAll category files fs
    | Err _ => loadAll category files fs
    end.
Proof. unfold loadAll. cbn. now destruct (getObject category file fs). Qed.

Lemma loadAll_names_NoDup {A B} `{!Codec (api.Object A B)} (category : string)
    (files : list string) (fs : FileSystem) :
  files_named (A := A) (B := B) category fs ->
  NoDup files ->
  NoDup (api.name_of <$> loadAll (T := api.Object A B) category files fs).
Proof.
  intros Hnamed. induction 1 as [|file files Hfile Hnd IH]; [constructor|].
  rewrite loadAll_cons.
  destruct (getObject category file fs) as [o|e] eqn:Hget; [|exact IH].
  rewrite fmap_cons. constructor; [|exact IH].
  rewrite (Hnamed _ _ Hget). intros Hin.
  apply list_elem_of_fmap in Hin as (o' & Hname & Hin).
  apply list_elem_of_omap in Hin as (file' & Hin' & Hload).
  destruct (getObject category file' fs) as [o''|] eqn:Hget'; [|discriminate].
  injection Hload as ->. rewrite (Hnamed _ _ Hget') in Hname. now subst file'.
Qed.

(** What a start-up makes of a kind's directory whose files are named
    after their objects: an object that its file gives is in the map
    under its name. *)
Lemma loaded_under_its_name {A B} `{!Codec (api.Object A B)} (category : string)
    (fs : FileSystem) (names : list string) (o : api.Object A B) :
  listFiles category fs = Ok names ->
  files_named (A := A) (B := B) category fs ->
  getObject category (api.name_of o) fs = Ok o ->
  install (loadAll category names fs) ∅ !! api.name_of o = Some o.
Proof.
  intros Hlist Hnamed Hget.
  apply install_lookup_in.
  - apply loadAll_names_NoDup; [exact Hnamed|]. eapply listFiles_NoDup. exact Hlist.
  - eapply loaded_object_is_listed; eassumption.
Qed.

Lemma files_named_store {A B} `{!Codec (api.Object A B)} (category : string)
    (o : api.Object A B) (fs fs' : FileSystem) :
  files_named (A := A) (B := B) category fs ->
  storeObject category (api.name_of o) o fs = (None, fs') ->
  round_trips o ->
  files_named (A := A) (B := B) category fs'.
Proof.
  intros Hnamed Hstore Hcodec file o' Hget.
  destruct (decide (file = api.name_of o)) as [->|Hne].
  - rewrite (storeObject_getObject _ _ _ _ _ Hstore Hcodec) in Hget. now injection Hget as <-.
  - apply (Hnamed file).
    rewrite <- (storeObject_frame category (api.name_of o) o fs category file) by congruence.
    now rewrite Hstore.
Qed.

Lemma same_directory (category : string) (fs fs' : FileSystem) :
  lookup_dir fs category = lookup_dir fs' category ->
  listFiles category fs = listFiles category fs' /\
  forall {T} `{!Codec T} (name : string),
    getObject (T := T) category name fs = getObject category name fs'.
Proof.
  intros H. unfold listFiles, ReadDir, getObject, ReadFile. rewrite H. split; reflexivity.
Qed.

Lemma NewServer_maps (cfg : Config) (runtime : R) (fs : FileSystem) (srv : Server R) :
  NewServer cfg runtime fs = Ok srv ->
  exists fs' ps ds sss svs,
    NewFileStorage fs = Ok fs' /\
    listFiles "pods" fs' = Ok ps /\ pods srv = install (loadAll "pods" ps fs') ∅ /\
    listFiles "deployments" fs' = Ok ds /\
    deployments srv = install (loadAll "deployments" ds fs') ∅ /\
    listFiles "statefulsets" fs' = Ok sss /\
    statefulsets srv = install (loadAll "statefulsets" sss fs') ∅ /\
    listFiles "services" fs' = Ok svs /\
    services srv = install (loadAll "services" svs fs') ∅.
Proof.
  unfold NewServer. destruct (NewFileStorage fs) as [fs'|]; [|discriminate].
  unfold loadState, ListPods, ListDeployments, ListStatefulSets, ListServices.
  cbn [store with_pods with_deployments with_statefulsets with_services pods deployments
         statefulsets services].
  destruct (listFiles "pods" fs') as [ps|] eqn:Hps; [|discriminate].
  destruct (listFiles "deployments" fs') as [ds|] eqn:Hds; [|discriminate].
  destruct (listFiles "statefulsets" fs') as [sss|] eqn:Hsss; [|discriminate].
  destruct (listFiles "services" fs') as [svs|] eqn:Hsvs; [|discriminate].
  intros [= <-]. exists fs', ps, ds, sss, svs. repeat split; first [assumption|reflexivity].
Qed.

(** An object stored in a kind's directory is in the map of a server
    started over that storage. *)
Lemma stored_then_restarted {A B} `{!Codec (api.Object A B)} (category : string)
    (o : api.Object A B) (fs fs1 fs' : FileSystem) (names : list string) :
  files_named (A := A) (B := B) category fs ->
  storeObject category (api.name_of o) o fs = (None, fs1) ->
  round_trips o ->
  NewFileStorage fs1 = Ok fs' ->
  listFiles category fs' = Ok names ->
  install (loadAll category names fs') ∅ !! api.name_of o = Some o.
Proof.
  intros Hnamed Hstore Hcodec Hnew Hlist.
  pose proof (files_named_store _ _ _ _ Hnamed Hstore Hcodec) as Hnamed1.
  pose proof (storeObject_getObject _ _ _ _ _ Hstore Hcodec) as Hget1.
  assert (lookup_dir fs1 category = lookup_dir fs' category) as Hdir.
  { apply storeObject_ok in Hstore as (data & d & _ & _ & _ & ->).
    rewrite lookup_dir_with_dir, decide_True by reflexivity. symmetry.
    apply (proj2 (NewFileStorage_keeps _ _ Hnew)).
    rewrite lookup_dir_with_dir. now rewrite decide_True. }
  destruct (same_directory _ _ _ Hdir) as [Hl Hg].
  apply loaded_under_its_name; [exact Hlist| |now rewrite <- Hg].
  intros file o' Hget. apply (Hnamed1 file). now rewrite Hg.
Qed.

(** X11.  If the POST of a pod, deployment, stateful set or service
    answered with the resource, the resource's file was written (its
    name holding no path separator), the resource decodes from its own
    encoding, and the files of the kind's directory are named after
    the objects they hold, then a
    server started over the data directory the request left holds the
    resource under its name. *)
Theorem accepted_resource_survives_restart (now : Z) (r : Request) (s : Server R)
    (cfg' : Config) (runtime' : R) :
  (forall (pod : api.Pod) (srv : Server R),
     Sent (SetupRoutes kindOf POST_pods now r s).1 = PodJSON pod ->
     (StorePod pod (store s)).1 = None ->
     round_trips pod -> plain_name (api.name_of pod) = true ->
     files_named (A := api.PodSpec) (B := api.PodStatus) "pods" (store s) ->
     NewServer cfg' runtime' (store (SetupRoutes kindOf POST_pods now r s).2) = Ok srv ->
     pods srv !! api.name_of pod = Some pod) /\
  (forall (deployment : api.Deployment) (srv : Server R),
     Sent (SetupRoutes kindOf POST_deployments now r s).1 = DeploymentJSON deployment ->
     (StoreDeployment deployment (store s)).1 = None ->
     round_trips deployment -> plain_name (api.name_of deployment) = true ->
     files_named (A := api.DeploymentSpec) (B := api.DeploymentStatus) "deployments"
       (store s) ->
     NewServer cfg' runtime' (store (SetupRoutes kindOf POST_deployments now r s).2) = Ok srv ->
     deployments srv !! api.name_of deployment = Some deployment) /\
  (forall (statefulset : api.StatefulSet) (srv : Server R),
     Sent (SetupRoutes kindOf POST_statefulsets now r s).1 = StatefulSetJSON statefulset ->
     (StoreStatefulSet statefulset (store s)).1 = None ->
     round_trips statefulset -> plain_name (api.name_of statefulset) = true ->
     files_named (A := api.StatefulSetSpec) (B := api.StatefulSetStatus) "statefulsets"
       (store s) ->
     NewServer cfg' runtime' (store (SetupRoutes kindOf POST_statefulsets now r s).2)
     = Ok srv ->
     statefulsets srv !! api.name_of statefulset = Some statefulset) /\
  (forall (service : api.Service) (srv : Server R),
     Sent (SetupRoutes kindOf POST_services now r s).1 = ServiceJSON service ->
     (StoreService service (store s)).1 = None ->
     round_trips service -> plain_name (api.name_of service) = true ->
     files_named (A := api.ServiceSpec) (B := api.ServiceStatus) "services" (store s) ->
     NewServer cfg' runtime' (store (SetupRoutes kindOf POST_services now r s).2) = Ok srv ->
     services srv !! api.name_of service = Some service).
Proof.
  unfold_handlers. unfold StorePod, StoreDeployment, StoreStatefulSet, StoreService.
  split; [|split; [|split]]; intros o srv;
    (destruct (decodeManifest r) as [o0|e]; [|discriminate]);
    cbn [fst snd Sent store with_store with_pods with_deployments with_statefulsets
           with_services];
    intros [= <-] Hstore Hcodec _ Hnamed Hnew;
    apply NewServer_maps in Hnew
      as (fs' & ps & ds & sss & svs & Hfs & Hps & Ep & Hds & Ed & Hsss & Es & Hsvs & Ev);
    first [rewrite Ep|rewrite Ed|rewrite Es|rewrite Ev];
    match goal with
    | H : (storeObject ?c ?n ?o ?f).1 = None |- _ =>
        destruct (storeObject c n o f) as [err fs1] eqn:Hst; cbn [fst snd] in *; subst err
    end;
    (eapply stored_then_restarted;
     [exact Hnamed|exact Hst|exact Hcodec|exact Hfs|eassumption]).
Qed.
End run_properties.

(** ** What a request leaves alone *)

Section frame_properties.
Context {R : Type} `{!ContainerRuntime R}.
Context {pods_as : Codec api.Pod} {deployments_as : Codec api.Deployment}
        {statefulsets_as : Codec api.StatefulSet} {services_as : Codec api.Service}
        {nodes_as : Codec api.Node} {scales_as : Codec ScaleRequest}.
Context {Manifest : Type} `{!Codec Manifest} (kindOf : Manifest -> option string).

Ltac unfold_routes :=
  cbn [SetupRoutes];
  unfold listPodsHandler, createPodHandler, getPodHandler, updatePodHandler, deletePodHandler,
    listDeploymentsHandler, createDeploymentHandler, getDeploymentHandler,
    updateDeploymentHandler, deleteDeploymentHandler, scaleDeploymentHandler,
    listStatefulSetsHandler, createStatefulSetHandler, getStatefulSetHandler,
    updateStatefulSetHandler, deleteStatefulSetHandler, scaleStatefulSetHandler,
    listServicesHandler, createServiceHandler, getServiceHandler, updateServiceHandler,
    deleteServiceHandler, listNodesHandler, getNodeHandler, getGenericWorkloadHandler,
    deleteGenericWorkloadHandler, createGenericWorkloadHandler, updateGenericWorkloadHandler,
    applyManifestHandler, writeError, writeJSON;
  cbv zeta.

(** X23.  No API route calls the runtime, changes the configuration
    or writes the node map; and a request changes no entry of a map
    under a key other than the name in its path and the name of the
    resource its response carries. *)
Theorem requests_touch_one_name (route : Route) (now : Z) (r : Request) (s : Server R)
    (key : string) :
  key <> VarName r ->
  sent_name (Sent (SetupRoutes kindOf route now r s).1) <> Some key ->
  rt (SetupRoutes kindOf route now r s).2 = rt s /\
  config (SetupRoutes kindOf route now r s).2 = config s /\
  nodes (SetupRoutes kindOf route now r s).2 = nodes s /\
  pods (SetupRoutes kindOf route now r s).2 !! key = pods s !! key /\
  deployments (SetupRoutes kindOf route now r s).2 !! key = deployments s !! key /\
  statefulsets (SetupRoutes kindOf route now r s).2 !! key = statefulsets s !! key /\
  services (SetupRoutes kindOf route now r s).2 !! key = services s !! key.
Proof.
  intros Hkey.
  destruct route; unfold_routes; repeat case_match; simplify_eq;
    cbn [fst snd Sent sent_name rt config nodes pods deployments statefulsets services
           with_store with_pods with_deployments with_statefulsets with_services];
    intros Hsent;
    rewrite ?name_of_setDefaultsForPod, ?name_of_setDefaultsForDeployment,
      ?name_of_setDefaultsForStatefulSet, ?name_of_setDefaultsForService in Hsent;
    repeat split;
    try reflexivity;
    try (rewrite lookup_insert_ne by congruence; reflexivity);
    try (rewrite lookup_delete_ne by congruence; reflexivity);
    try (rewrite ?name_of_setDefaultsForPod, ?name_of_setDefaultsForDeployment,
           ?name_of_setDefaultsForStatefulSet, ?name_of_setDefaultsForService;
         rewrite lookup_insert_ne by congruence; reflexivity).
Qed.
End frame_properties.

(** ** Kind dispatch and the node map *)

Section dispatch_properties.
Context {R : Type} `{!ContainerRuntime R}.
Context {pods_as : Codec api.Pod} {deployments_as : Codec api.Deployment}
        {statefulsets_as : Codec api.StatefulSet} {services_as : Codec api.Service}
        {nodes_as : Codec api.Node} {scales_as : Codec ScaleRequest}.
Context {Manifest : Type} `{!Codec Manifest} (kindOf : Manifest -> option string).

Lemma decodeManifest_as_json {T} `{!Codec T} (r : Request) (data : string) :
  decodeManifest (T := T) (as_json r data) = Unmarshal data.
Proof. reflexivity. Qed.

Ltac dispatch :=
  cbn [SetupRoutes];
  unfold createGenericWorkloadHandler, updateGenericWorkloadHandler, applyManifestHandler,
    createPodHandler, createDeploymentHandler, createStatefulSetHandler,
    createServiceHandler, updatePodHandler, updateDeploymentHandler,
    updateStatefulSetHandler, same_outcome, writeError, writeJSON;
  cbv zeta.

(** X24.  For a manifest of kind Pod, Deployment or StatefulSet, the
    kind-dispatching routes ([POST /workloads], [POST /apply] and
    [PUT /workloads/{name}]) leave the server as the typed route of
    that kind leaves it on the re-encoded manifest; they reject what
    it rejects and otherwise send the same resource.  A Service is
    accepted by [POST /apply] only, and any other kind is answered
    400 with the server as it was. *)
Theorem generic_routes_are_the_typed_routes (now : Z) (r : Request) (s : Server R)
    (manifest : Manifest) (kind : string) :
  decodeManifest r = Ok manifest ->
  kindOf manifest = Some kind ->
  let typed := as_json r (reencode manifest) in
  (kind = "Pod" ->
   same_outcome (SetupRoutes kindOf POST_workloads now r s)
                (SetupRoutes kindOf POST_pods now typed s) /\
   same_outcome (SetupRoutes kindOf POST_apply now r s)
                (SetupRoutes kindOf POST_pods now typed s) /\
   same_outcome (SetupRoutes kindOf PUT_workload now r s)
                (SetupRoutes kindOf PUT_pod now typed s)) /\
  (kind = "Deployment" ->
   same_outcome (SetupRoutes kindOf POST_workloads now r s)
                (SetupRoutes kindOf POST_deployments now typed s) /\
   same_outcome (SetupRoutes kindOf POST_apply now r s)
                (SetupRoutes kindOf POST_deployments now typed s) /\
   same_outcome (SetupRoutes kindOf PUT_workload now r s)
                (SetupRoutes kindOf PUT_deployment now typed s)) /\
  (kind = "StatefulSet" ->
   same_outcome (SetupRoutes kindOf POST_workloads now r s)
                (SetupRoutes kindOf POST_statefulsets now typed s) /\
   same_outcome (SetupRoutes kindOf POST_apply now r s)
                (SetupRoutes kindOf POST_statefulsets now typed s) /\
   same_outcome (SetupRoutes kindOf PUT_workload now r s)
                (SetupRoutes kindOf PUT_statefulset now typed s)) /\
  (kind = "Service" ->
   same_outcome (SetupRoutes kindOf POST_apply now r s)
                (SetupRoutes kindOf POST_services now typed s) /\
   SetupRoutes kindOf POST_workloads now r s
   = (writeError s 400 "Unsupported workload kind: Service" None, s)) /\
  (kind ∉ ["Pod"; "Deployment"; "StatefulSet"; "Service"] ->
   StatusCode (SetupRoutes kindOf POST_workloads now r s).1 = 400 /\
   (SetupRoutes kindOf POST_workloads now r s).2 = s /\
   StatusCode (SetupRoutes kindOf POST_apply now r s).1 = 400 /\
   (SetupRoutes kindOf POST_apply now r s).2 = s).
Proof.
  intros Hdecode Hkind typed. subst typed.
  dispatch. rewrite !decodeManifest_as_json, Hdecode, Hkind.
  split; [|split; [|split; [|split]]].
  1-4: intros ->; cbn [String.eqb Ascii.eqb Bool.eqb];
    unfold StatusBadRequest, StatusCreated, StatusOK;
    repeat case_match; simplify_eq;
    repeat split; cbn; intros; try reflexivity; try discriminate; try congruence.
  intros Hother.
  destruct (String.eqb kind "Pod") eqn:Hp;
    [apply String.eqb_eq in Hp; subst; exfalso; apply Hother; set_solver|].
  destruct (String.eqb kind "Deployment") eqn:Hd;
    [apply String.eqb_eq in Hd; subst; exfalso; apply Hother; set_solver|].
  destruct (String.eqb kind "StatefulSet") eqn:Hs;
    [apply String.eqb_eq in Hs; subst; exfalso; apply Hother; set_solver|].
  destruct (String.eqb kind "Service") eqn:Hv;
    [apply String.eqb_eq in Hv; subst; exfalso; apply Hother; set_solver|].
  repeat split.
Qed.

End dispatch_properties.

Section node_map_properties.
Context {R : Type} `{!ContainerRuntime R}.
Context {pods_as : Codec api.Pod} {deployments_as : Codec api.Deployment}
        {statefulsets_as : Codec api.StatefulSet} {services_as : Codec api.Service}
        {nodes_as : Codec api.Node} {scales_as : Codec ScaleRequest}.
Context {Manifest : Type} `{!Codec Manifest} (kindOf : Manifest -> option string).

Lemma request_keeps_nodes (route : Route) (now : Z) (r : Request) (s : Server R) :
  nodes (SetupRoutes kindOf route now r s).2 = nodes s.
Proof.
  destruct route; cbn [SetupRoutes];
    unfold listPodsHandler, createPodHandler, getPodHandler, updatePodHandler,
      deletePodHandler, listDeploymentsHandler, createDeploymentHandler,
      getDeploymentHandler, updateDeploymentHandler, deleteDeploymentHandler,
      scaleDeploymentHandler, listStatefulSetsHandler, createStatefulSetHandler,
      getStatefulSetHandler, updateStatefulSetHandler, deleteStatefulSetHandler,
      scaleStatefulSetHandler, listServicesHandler, createServiceHandler, getServiceHandler,
      updateServiceHandler, deleteServiceHandler, listNodesHandler, getNodeHandler,
      getGenericWorkloadHandler, deleteGenericWorkloadHandler, createGenericWorkloadHandler,
      updateGenericWorkloadHandler, applyManifestHandler, writeError, writeJSON;
    cbv zeta; repeat case_match; simplify_eq; reflexivity.
Qed.

Lemma loadState_keeps_nodes (s s' : Server R) : loadState s = Ok s' -> nodes s' = nodes s.
Proof.
  unfold loadState. cbn [store with_pods with_deployments with_statefulsets with_services].
  destruct (ListPods (store s)); [|discriminate].
  destruct (ListDeployments (store s)); [|discriminate].
  destruct (ListStatefulSets (store s)); [|discriminate].
  destruct (ListServices (store s)); [|discriminate].
  now intros [= <-].
Qed.

(** X25.  The node map of every state that a server reaches holds
    at most the key [local-node], and what it holds there is a node
    that [updateNodeStatus] built: neither a request nor a controller
    writes another node. *)
Theorem only_the_local_node (s : Server R) :
  reachable kindOf s ->
  forall key node,
    nodes s !! key = Some node ->
    key = "local-node" /\ exists now info, node = local_node now info.
Proof.
  induction 1 as [cfg runtime fs s Hnew|s s' _ IH Hstep].
  - unfold NewServer in Hnew. destruct (NewFileStorage fs) as [fs'|]; [|discriminate].
    destruct (loadState _) as [srv|] eqn:Hload; [|discriminate]. injection Hnew as <-.
    apply loadState_keeps_nodes in Hload. rewrite Hload. cbn.
    intros key node Hk. now rewrite lookup_empty in Hk.
  - destruct Hstep as [route now r s|now s|service s|ds sss s].
    + now rewrite request_keeps_nodes.
    + unfold updateNodeStatus.
      destruct (GetSystemInfo (rt s)) as [[info|e] r']; [|exact IH].
      cbn. intros key node Hk. destruct (decide (key = "local-node")) as [->|Hne].
      * rewrite lookup_insert_eq in Hk. injection Hk as <-. eauto.
      * rewrite lookup_insert_ne in Hk by congruence. now apply IH.
    + unfold reconcileService, findTargetContainers.
      destruct (ListContainers _ (rt s)) as [[cs|e] r']; cbn [snd]; [|exact IH].
      unfold updateServiceStatus. cbn [services with_rt].
      destruct (services s !! api.name_of service); [|exact IH].
      destruct (String.eqb _ _); exact IH.
    + unfold reconcileWorkloads.
      destruct (reconcileEach reconcileDeployment ds (rt s)) as [[[]|m] r']; [|exact IH].
      destruct (reconcileEach reconcileStatefulSet sss r') as [o r'']. exact IH.
Qed.
End node_map_properties.

(** ** Selectors and the calls of a workload tick *)

(** ** Selectors *)

Lemma matchesSelector_selects (labels selector : gmap string string) :
  matchesSelector labels selector = true <-> selects selector labels.
Proof.
  unfold matchesSelector, selects. rewrite forallb_forall. split.
  - intros H key value Hk. apply String.eqb_eq.
    apply (H (key, value)). apply list_elem_of_In. now apply elem_of_map_to_list.
  - intros H [key value] Hin. apply String.eqb_eq. apply H.
    apply elem_of_map_to_list. now apply list_elem_of_In.
Qed.

Section selector_properties.
Context {R : Type} `{!ContainerRuntime R}.

(** X12.  [matchesSelector] holds exactly when every pair of the
    selector is a label of the container, a missing label reading as
    the empty string; the label test of the containerd driver's
    [matchesFilters] is the same test.  [findTargetContainers] returns
    the managed containers that match, in the order of the listing,
    and passes a listing error on. *)
Theorem selector_matching (selector : gmap string string) (r : R) :
  (forall labels, matchesSelector labels selector = true <-> selects selector labels) /\
  (forall info : ContainerInfo,
     containerd.matchesFilters info (label_filter selector)
     = matchesSelector (CI_Labels info) selector) /\
  match findTargetContainers selector r with
  | (Ok found, r') =>
      exists managed,
        ListContainers (label_filter {[ "managed-by" := "synthesis" ]}) r = (Ok managed, r') /\
        found = List.filter (fun info => matchesSelector (CI_Labels info) selector) managed /\
        forall info, info ∈ found <-> info ∈ managed /\ selects selector (CI_Labels info)
  | (Err e, r') =>
      ListContainers (label_filter {[ "managed-by" := "synthesis" ]}) r = (Err e, r')
  end.
Proof.
  split; [intros labels; apply matchesSelector_selects|]. split.
  - intros info. unfold containerd.matchesFilters, matchesSelector, label_filter. cbn.
    now rewrite !andb_true_r.
  - unfold findTargetContainers.
    destruct (ListContainers _ r) as [[managed|e] r']; [|reflexivity].
    exists managed. split; [reflexivity|]. split; [reflexivity|].
    intros info. rewrite <- matchesSelector_selects.
    rewrite list_elem_of_In, filter_In, <- list_elem_of_In. reflexivity.
Qed.
End selector_properties.

(** ** The workload controller *)

Section tick_properties.
Context {R : Type} `{!ContainerRuntime R}.

Lemma bring_up_app (l1 l2 : list Call) :
  bring_up_calls l1 -> bring_up_calls l2 -> bring_up_calls (l1 ++ l2).
Proof.
  intros H1 H2.
  induction H1; cbn;
    [ exact H2 | now apply buc_create_failed | now apply buc_started
    | now apply buc_start_failed ].
Qed.

Lemma createContainers_bring_up (pod : string) (containers : list api.Container)
    (rr : Recorded R) :
  exists log,
    calls (createContainers pod containers rr).2 = (calls rr ++ log)%list /\
    bring_up_calls log.
Proof.
  revert rr. induction containers as [|spec rest IH]; intros rr.
  - exists []. cbn. rewrite app_nil_r. split; [reflexivity|constructor].
  - cbn [createContainers PullImage CreateContainer StartContainer RemoveContainer
           recorded_runtime].
    rewrite !record_eq. cbn [fst snd inner calls].
    set (r1 := (PullImage (api.Image spec) (inner rr)).2).
    destruct (CreateContainer spec pod r1) as [[info|e] r2] eqn:Hc; cbn [fst snd].
    + rewrite record_eq. cbn [fst snd inner calls].
      destruct (StartContainer (ID info) r2) as [[e|] r3] eqn:Hs; cbn [fst snd].
      * rewrite record_eq. cbn [fst snd inner calls].
        eexists [_; _; _; _]. rewrite <- !app_assoc. split; [reflexivity|].
        apply buc_start_failed, buc_done.
      * destruct (String.length (ID info) <? 12)%nat; cbn [snd calls].
        -- eexists [_; _; _]. rewrite <- !app_assoc. split; [reflexivity|].
           apply buc_started, buc_done.
        -- destruct (IH (Build_Recorded r3
                           (((calls rr ++ [CallPull (api.Image spec)])
                               ++ [CallCreate spec pod]) ++ [CallStart (ID info)])))
             as (log & Hlog & Hshape).
           exists (CallPull (api.Image spec) :: CallCreate spec pod
                   :: CallStart (ID info) :: log).
           rewrite Hlog. cbn [calls]. rewrite <- !app_assoc. split; [reflexivity|].
           now apply buc_started.
    + eexists [_; _]. rewrite <- !app_assoc. split; [reflexivity|].
      apply buc_create_failed, buc_done.
Qed.

Lemma scaleUp_bring_up (workloadName : string) (template : api.PodTemplateSpec)
    (current i : Z) (rounds : nat) (rr : Recorded R) :
  exists log,
    calls (scaleUp workloadName template current i rounds rr).2 = (calls rr ++ log)%list /\
    bring_up_calls log.
Proof.
  revert i rr. induction rounds as [|rounds IH]; intros i rr.
  - exists []. cbn. rewrite app_nil_r. split; [reflexivity|constructor].
  - cbn [scaleUp]. unfold createPodFromTemplate.
    destruct (createContainers_bring_up (podName workloadName (current + i))
                (api.Containers (api.Template_Spec template)) rr) as (log1 & Hlog1 & H1).
    destruct (createContainers _ _ rr) as [[e|m] rr1]; cbn [snd] in Hlog1.
    + destruct (IH (i + 1) rr1) as (log2 & Hlog2 & H2).
      exists (log1 ++ log2)%list. rewrite Hlog2, Hlog1, <- app_assoc.
      split; [reflexivity|now apply bring_up_app].
    + exists log1. split; [exact Hlog1|exact H1].
Qed.

Lemma listed_filters_app (l1 l2 : list Call) :
  listed_filters (l1 ++ l2) = (listed_filters l1 ++ listed_filters l2)%list.
Proof. apply omap_app. Qed.

Lemma listed_filters_cons (filters : ContainerFilter) (log : list Call) :
  listed_filters (CallList filters :: log) = filters :: listed_filters log.
Proof. reflexivity. Qed.

Lemma bring_up_lists_nothing (log : list Call) :
  bring_up_calls log -> listed_filters log = [] /\ stopped_ids log = [].
Proof. induction 1 as [|? ? ? _ []|? ? ? ? _ []|? ? ? ? _ []]; cbn; auto. Qed.

Lemma scale_down_lists_nothing (victims : list ContainerInfo) (log : list Call) :
  scale_down_calls victims log ->
  listed_filters log = [] /\ created_pods log = [] /\ stopped_ids log = ID <$> victims.
Proof.
  induction 1 as [|? ? ? _ (? & ? & ?)|? ? ? _ (? & ? & ?)]; cbn; repeat split; auto;
    now f_equal.
Qed.

(** What [reconcileReplicas] adds to the log: the calls of a scale-up
    followed by the calls of a scale-down, of which at most one is not
    empty. *)
Lemma reconcileReplicas_log (workloadName : string) (template : api.PodTemplateSpec)
    (replicas : option Z) (currentContainers : list ContainerInfo) (rr : Recorded R) :
  exists log,
    calls (reconcileReplicas workloadName template replicas currentContainers rr).2
    = (calls rr ++ log)%list /\
    listed_filters log = [].
Proof.
  unfold reconcileReplicas.
  set (desired := default 1 replicas).
  set (current := wrap32 (Z.of_nat (length currentContainers))).
  destruct (current <? desired).
  - destruct (scaleUp_bring_up workloadName template current 0
                (Z.to_nat (wrap32 (desired - current))) rr) as (log1 & Hlog1 & H1).
    destruct (scaleUp _ _ _ _ _ rr) as [[[]|m] rr1]; cbn [snd] in Hlog1.
    + destruct (desired <? current); cbn [snd].
      * destruct (scaleDown_calls (take (Z.to_nat (wrap32 (current - desired)))
                                      currentContainers) rr1) as (log2 & Hlog2 & H2).
        exists (log1 ++ log2)%list. rewrite Hlog2, Hlog1, <- app_assoc.
        split; [reflexivity|]. rewrite listed_filters_app.
        rewrite (proj1 (bring_up_lists_nothing _ H1)).
        now rewrite (proj1 (scale_down_lists_nothing _ _ H2)).
      * exists log1. split; [exact Hlog1|apply (bring_up_lists_nothing _ H1)].
    + exists log1. split; [exact Hlog1|apply (bring_up_lists_nothing _ H1)].
  - destruct (desired <? current); cbn [snd].
    + destruct (scaleDown_calls (take (Z.to_nat (wrap32 (current - desired)))
                                    currentContainers) rr) as (log2 & Hlog2 & H2).
      exists log2. split; [exact Hlog2|apply (scale_down_lists_nothing _ _ H2)].
    + exists []. rewrite app_nil_r. split; reflexivity.
Qed.

Lemma reconcileEach_log {W} (reconcile : W -> Recorded R -> outcome error * Recorded R)
    (filter_of : W -> ContainerFilter) (ws : list W) (rr : Recorded R) :
  (forall w rr, exists log,
      calls (reconcile w rr).2 = (calls rr ++ CallList (filter_of w) :: log)%list /\
      listed_filters log = []) ->
  exists log rest,
    calls (reconcileEach reconcile ws rr).2 = (calls rr ++ log)%list /\
    filter_of <$> ws = (listed_filters log ++ rest)%list /\
    (returned (reconcileEach reconcile ws rr).1 = true -> rest = []).
Proof.
  intros Hone. revert rr. induction ws as [|w ws IH]; intros rr.
  - exists [], []. cbn. rewrite app_nil_r. repeat split.
  - cbn [reconcileEach]. destruct (Hone w rr) as (log1 & Hlog1 & Hnone).
    destruct (reconcile w rr) as [[e|m] rr1] eqn:Hrun; cbn [fst snd] in *.
    + destruct (IH rr1) as (log & rest & Hlog & Hrest & Hret).
      exists (CallList (filter_of w) :: log1 ++ log)%list, rest.
      split; [|split; [|exact Hret]].
      * rewrite Hlog, Hlog1, <- app_assoc. reflexivity.
      * rewrite fmap_cons, Hrest, listed_filters_cons, listed_filters_app, Hnone.
        reflexivity.
    + exists (CallList (filter_of w) :: log1), (filter_of <$> ws).
      split; [exact Hlog1|]. rewrite listed_filters_cons, Hnone.
      split; [reflexivity|discriminate].
Qed.

Lemma reconcileDeployment_log (deployment : api.Deployment) (rr : Recorded R) :
  exists log,
    calls (reconcileDeployment deployment rr).2
    = (calls rr ++ CallList (deployment_filter deployment) :: log)%list /\
    listed_filters log = [].
Proof.
  unfold reconcileDeployment. cbn [ListContainers recorded_runtime]. rewrite record_eq.
  fold (deployment_filter deployment).
  destruct (ListContainers (deployment_filter deployment) (inner rr)) as [[cs|e] r1];
    cbn [fst snd].
  - destruct (reconcileReplicas_log (api.name_of deployment)
                (api.Template (api.Spec deployment)) (api.Replicas (api.Spec deployment)) cs
                (Build_Recorded r1 (calls rr ++ [CallList (deployment_filter deployment)])))
      as (log & Hlog & Hnone).
    exists log. rewrite Hlog. cbn [calls]. now rewrite <- app_assoc.
  - exists []. split; reflexivity.
Qed.

Lemma reconcileStatefulSet_log (statefulset : api.StatefulSet) (rr : Recorded R) :
  exists log,
    calls (reconcileStatefulSet statefulset rr).2
    = (calls rr ++ CallList (statefulset_filter statefulset) :: log)%list /\
    listed_filters log = [].
Proof.
  unfold reconcileStatefulSet. cbn [ListContainers recorded_runtime]. rewrite record_eq.
  fold (statefulset_filter statefulset).
  destruct (ListContainers (statefulset_filter statefulset) (inner rr)) as [[cs|e] r1];
    cbn [fst snd].
  - destruct (reconcileReplicas_log (api.name_of statefulset)
                (api.SS_Template (api.Spec statefulset))
                (api.SS_Replicas (api.Spec statefulset)) cs
                (Build_Recorded r1 (calls rr ++ [CallList (statefulset_filter statefulset)])))
      as (log & Hlog & Hnone).
    exists log. rewrite Hlog. cbn [calls]. now rewrite <- app_assoc.
  - exists []. split; reflexivity.
Qed.

(** X13.  A tick of the workload controller lists the containers of
    every deployment and then of every stateful set, once each and in
    the order in which the workloads are visited, whenever the tick
    returns: the error of one reconciliation does not stop the
    others.  The lists made up to a panic are the first of these. *)
Theorem every_workload_is_reconciled (ds : list api.Deployment) (sss : list api.StatefulSet)
    (s : Server (Recorded R)) :
  calls (rt s) = [] ->
  exists rest,
    ((deployment_filter <$> ds) ++ (statefulset_filter <$> sss))%list
    = (listed_filters (calls (rt (reconcileWorkloads ds sss s).2)) ++ rest)%list /\
    (returned (reconcileWorkloads ds sss s).1 = true -> rest = []).
Proof.
  intros Hempty. unfold reconcileWorkloads.
  destruct (reconcileEach_log reconcileDeployment deployment_filter ds (rt s)
              reconcileDeployment_log) as (log1 & rest1 & Hlog1 & Hrest1 & Hret1).
  rewrite Hempty in Hlog1. cbn [app] in Hlog1.
  destruct (reconcileEach reconcileDeployment ds (rt s)) as [[[]|m] rr1]; cbn [fst snd] in *.
  - destruct (reconcileEach_log reconcileStatefulSet statefulset_filter sss rr1
                reconcileStatefulSet_log) as (log2 & rest2 & Hlog2 & Hrest2 & Hret2).
    destruct (reconcileEach reconcileStatefulSet sss rr1) as [o rr2]; cbn [fst snd rt with_rt] in *.
    exists rest2. rewrite Hlog2, Hlog1, listed_filters_app, Hrest1, Hrest2.
    rewrite (Hret1 eq_refl), app_nil_r, <- app_assoc. split; [reflexivity|exact Hret2].
  - exists (rest1 ++ (statefulset_filter <$> sss))%list. cbn [rt with_rt].
    rewrite Hlog1, Hrest1, <- app_assoc. split; [reflexivity|discriminate].
Qed.

(** X14.  When as many containers are listed as replicas are
    desired, both reconcilers make no call to the runtime but the
    listing and return no error; when the listing fails, they return
    the listing error and make no other call. *)
Theorem steady_state_makes_no_call (deployment : api.Deployment)
    (statefulset : api.StatefulSet) (r r' : R) :
  (forall currentContainers,
     ListContainers (deployment_filter deployment) r = (Ok currentContainers, r') ->
     Z.of_nat (length currentContainers) = default 1 (api.Replicas (api.Spec deployment)) ->
     Z.of_nat (length currentContainers) <= int32_max ->
     reconcileDeployment deployment (Build_Recorded r [])
     = (Returned None, Build_Recorded r' [CallList (deployment_filter deployment)])) /\
  (forall e,
     ListContainers (deployment_filter deployment) r = (Err e, r') ->
     reconcileDeployment deployment (Build_Recorded r [])
     = (Returned (Some ("failed to list containers: " +:+ e)),
        Build_Recorded r' [CallList (deployment_filter deployment)])) /\
  (forall currentContainers,
     ListContainers (statefulset_filter statefulset) r = (Ok currentContainers, r') ->
     Z.of_nat (length currentContainers)
     = default 1 (api.SS_Replicas (api.Spec statefulset)) ->
     Z.of_nat (length currentContainers) <= int32_max ->
     reconcileStatefulSet statefulset (Build_Recorded r [])
     = (Returned None, Build_Recorded r' [CallList (statefulset_filter statefulset)])) /\
  (forall e,
     ListContainers (statefulset_filter statefulset) r = (Err e, r') ->
     reconcileStatefulSet statefulset (Build_Recorded r [])
     = (Returned (Some ("failed to list containers: " +:+ e)),
        Build_Recorded r' [CallList (statefulset_filter statefulset)])).
Proof.
  unfold reconcileDeployment, reconcileStatefulSet, deployment_filter, statefulset_filter.
  cbn [ListContainers recorded_runtime]. rewrite !record_eq. cbn [inner calls app].
  repeat split.
  - intros cs -> Heq Hmax. cbn [fst snd]. unfold reconcileReplicas.
    rewrite wrap32_id by (unfold in_int32, int32_min, int32_max in *; lia).
    rewrite <- Heq, Z.ltb_irrefl. reflexivity.
  - intros e ->. reflexivity.
  - intros cs -> Heq Hmax. cbn [fst snd]. unfold reconcileReplicas.
    rewrite wrap32_id by (unfold in_int32, int32_min, int32_max in *; lia).
    rewrite <- Heq, Z.ltb_irrefl. reflexivity.
  - intros e ->. reflexivity.
Qed.

(** X15.  When fewer containers are listed than replicas are
    desired, the calls of either reconciler after the listing are, for
    each container, a pull of its image and a create, then a start of
    the created container, then a remove of that container if its
    start failed: nothing is stopped and nothing else is listed. *)
Theorem scale_up_only_brings_up (deployment : api.Deployment) (statefulset : api.StatefulSet)
    (r r' : R) (currentContainers : list ContainerInfo) :
  Z.of_nat (length currentContainers) <= int32_max ->
  (ListContainers (deployment_filter deployment) r = (Ok currentContainers, r') ->
   Z.of_nat (length currentContainers) < default 1 (api.Replicas (api.Spec deployment)) ->
   exists log,
     calls (reconcileDeployment deployment (Build_Recorded r [])).2
     = CallList (deployment_filter deployment) :: log /\
     bring_up_calls log /\ stopped_ids log = [] /\ listed_filters log = []) /\
  (ListContainers (statefulset_filter statefulset) r = (Ok currentContainers, r') ->
   Z.of_nat (length currentContainers) < default 1 (api.SS_Replicas (api.Spec statefulset)) ->
   exists log,
     calls (reconcileStatefulSet statefulset (Build_Recorded r [])).2
     = CallList (statefulset_filter statefulset) :: log /\
     bring_up_calls log /\ stopped_ids log = [] /\ listed_filters log = []).
Proof.
  intros Hmax.
  assert (forall name template replicas rr,
             Z.of_nat (length currentContainers) < default 1 replicas ->
             exists log,
               calls (reconcileReplicas name template replicas currentContainers rr).2
               = (calls rr ++ log)%list /\ bring_up_calls log) as Hup.
  { intros name template replicas rr Hlt. unfold reconcileReplicas.
    rewrite wrap32_id by (unfold in_int32, int32_min, int32_max in *; lia).
    replace (_ <? default 1 replicas) with true by (symmetry; apply Z.ltb_lt; lia).
    replace (default 1 replicas <? _) with false by (symmetry; apply Z.ltb_ge; lia).
    destruct (scaleUp_bring_up name template (Z.of_nat (length currentContainers)) 0
                (Z.to_nat (wrap32 (default 1 replicas
                                   - Z.of_nat (length currentContainers)))) rr)
      as (log & Hlog & Hshape).
    exists log. split; [|exact Hshape].
    now destruct (scaleUp _ _ _ _ _ rr) as [[[]|m] rr1]. }
  unfold reconcileDeployment, reconcileStatefulSet, deployment_filter, statefulset_filter.
  cbn [ListContainers recorded_runtime]. rewrite !record_eq. cbn [inner calls app].
  split; intros -> Hlt; cbn [fst snd];
    (edestruct Hup as (log & Hlog & Hshape); [exact Hlt|]);
    exists log; rewrite Hlog; cbn [calls app];
    (split; [reflexivity|]); (split; [exact Hshape|]);
    destruct (bring_up_lists_nothing _ Hshape); auto.
Qed.

End tick_properties.

(** ** The containerd driver *)

(** ** The containerd driver *)

Lemma find_by_id (l : list containerd.container) (k : containerd.container) :
  NoDup (containerd.c_id <$> l) -> k ∈ l ->
  List.find (fun k' => String.eqb (containerd.c_id k') (containerd.c_id k)) l = Some k.
Proof.
  induction l as [|a l IH]; intros Hnd Hin; [now apply elem_of_nil in Hin|].
  rewrite fmap_cons in Hnd. apply NoDup_cons in Hnd as [Ha Hnd]. cbn [List.find].
  apply elem_of_cons in Hin as [->|Hin]; [now rewrite String.eqb_refl|].
  destruct (String.eqb (containerd.c_id a) (containerd.c_id k)) eqn:He.
  - apply String.eqb_eq in He. exfalso. apply Ha. rewrite He.
    now apply list_elem_of_fmap_2.
  - now apply IH.
Qed.

Lemma InspectContainer_entry (c : containerd.Client) (k : containerd.container) :
  containerd.serving c = true ->
  NoDup (containerd.c_id <$> containerd.table c) ->
  k ∈ containerd.table c ->
  containerd.InspectContainer (containerd.c_id k) c = Ok (info_of k).
Proof.
  intros Hs Hnd Hin. unfold containerd.InspectContainer, containerd.LoadContainer.
  rewrite Hs, (find_by_id _ _ Hnd Hin). reflexivity.
Qed.

(** X17.  Over a daemon whose container ids are unique, the
    containerd driver's [ListContainers] returns what
    [InspectContainer] reports of exactly the containers that pass
    [matchesFilters], in the daemon's order, and leaves the daemon as
    it is; when the daemon cannot be reached it returns the error. *)
Theorem containerd_lists_the_matching_entries (filters : ContainerFilter)
    (c : containerd.Client) :
  NoDup (containerd.c_id <$> containerd.table c) ->
  ListContainers filters c
  = (if containerd.serving c
     then Ok (List.filter (fun info => containerd.matchesFilters info filters)
                          (info_of <$> containerd.table c))
     else Err ("failed to list containers: " +:+ containerd.unavailable), c).
Proof.
  intros Hnd. rewrite containerd_ListContainers.
  destruct (containerd.serving c) eqn:Hs; [|reflexivity]. do 2 f_equal.
  assert (forall l,
             (forall k, k ∈ l -> containerd.InspectContainer (containerd.c_id k) c
                                 = Ok (info_of k)) ->
             omap (fun k =>
                     match containerd.InspectContainer (containerd.c_id k) c with
                     | Err _ => None
                     | Ok info =>
                         if containerd.matchesFilters info filters then Some info else None
                     end) l
             = List.filter (fun info => containerd.matchesFilters info filters)
                           (info_of <$> l)) as Hl.
  { induction l as [|k l IH]; intros Hall; [reflexivity|].
    rewrite fmap_cons. cbn [List.filter]. cbn. rewrite (Hall k) by left.
    rewrite IH by (intros k' Hk'; apply Hall; now right).
    now destruct (containerd.matchesFilters (info_of k) filters). }
  apply Hl. intros k Hk. now apply InspectContainer_entry.
Qed.

Lemma CreateContainer_ID (spec : api.Container) (podName : string) (c c' : containerd.Client)
    (info : ContainerInfo) :
  containerd.CreateContainer spec podName c = (Ok info, c') ->
  ID info = podName +:+ "-" +:+ api.Container_Name spec.
Proof.
  unfold containerd.CreateContainer.
  set (containerName := podName +:+ "-" +:+ api.Container_Name spec).
  destruct (if containerd.GetImage _ c then _ else _) as [[e|] c1]; [discriminate|].
  destruct (containerd.NewContainer _ _ _ c1) as [[e|] c2] eqn:Hnew; [discriminate|].
  destruct (containerd.InspectContainer containerName c2) as [info'|] eqn:Hi; [|discriminate].
  intros [= <- <-].
  unfold containerd.InspectContainer in Hi.
  destruct (containerd.LoadContainer containerName c2) as [k|] eqn:Hload; [|discriminate].
  injection Hi as <-. cbn.
  unfold containerd.LoadContainer in Hload.
  destruct (containerd.serving c2) eqn:Hs2; [|discriminate].
  apply find_some in Hload as [_ Hid]. now apply String.eqb_eq in Hid.
Qed.

(** X18.  On the containerd driver the id of a created container is
    [<pod>-<container>]; when that id is shorter than 12 characters,
    [createPodFromTemplate] panics in [container.ID[:12]], after the
    container has been created and started. *)
Theorem short_container_id_panics (workloadName : string) (template : api.PodTemplateSpec)
    (replica : Z) (spec : api.Container) (rest : list api.Container)
    (c c1 c2 : containerd.Client) (info : ContainerInfo) :
  api.Containers (api.Template_Spec template) = spec :: rest ->
  CreateContainer spec (podName workloadName replica) (PullImage (api.Image spec) c).2
  = (Ok info, c1) ->
  StartContainer (ID info) c1 = (None, c2) ->
  (String.length (podName workloadName replica +:+ "-" +:+ api.Container_Name spec) < 12)%nat ->
  ID info = podName workloadName replica +:+ "-" +:+ api.Container_Name spec /\
  createPodFromTemplate workloadName template replica c
  = (Panicked "slice bounds out of range", c2).
Proof.
  intros Htpl Hcreate Hstart Hshort.
  pose proof Hcreate as Hid. cbn [CreateContainer containerd.containerd_runtime] in Hid.
  apply CreateContainer_ID in Hid. split; [exact Hid|].
  unfold createPodFromTemplate. rewrite Htpl. cbn [createContainers].
  destruct (PullImage (api.Image spec) c) as [e0 c0]. cbn [snd] in Hcreate.
  rewrite Hcreate, Hstart, Hid.
  replace (_ <? 12)%nat with true by (symmetry; apply Nat.ltb_lt; exact Hshort).
  reflexivity.
Qed.

(** ** The service controller, twice *)

Lemma status_rule_twice (up : bool) (svc : api.Service) :
  status_rule up (status_rule up svc) = status_rule up svc.
Proof.
  unfold status_rule. destruct up; [|reflexivity]. cbn [andb].
  destruct (String.eqb (api.Svc_Type (api.Spec svc)) api.ServiceTypeNodePort) eqn:He;
    cbn; now rewrite He.
Qed.

Lemma status_rule_name (up : bool) (svc : api.Service) :
  api.name_of (status_rule up svc) = api.name_of svc.
Proof. unfold status_rule. now destruct (_ && _). Qed.

Lemma service_tick_closed_form (snapshot : list api.Service) (s : Server containerd.Client) :
  keyed_by_name (services s) ->
  snapshot_of (services s) snapshot ->
  reconcileServices snapshot s
  = with_services (status_rule (containerd.serving (rt s)) <$> services s) s.
Proof.
  intros Hkeyed Hsnap. unfold snapshot_of in Hsnap.
  destruct (reconcileServices_lookup snapshot s) as (m & Hm & Hlook).
  - intros svc Hsvc. rewrite Hsnap in Hsvc.
    apply list_elem_of_fmap in Hsvc as ([key o] & -> & Hko). cbn.
    apply elem_of_map_to_list in Hko. rewrite (Hkeyed _ _ Hko). exact Hko.
  - rewrite Hsnap, keyed_names by exact Hkeyed. apply NoDup_fst_map_to_list.
  - rewrite Hm. f_equal. apply map_eq. intros key. rewrite Hlook, lookup_fmap.
    destruct (decide _) as [Hk|Hk]; [reflexivity|].
    destruct (services s !! key) as [o|] eqn:Ho; [|reflexivity].
    exfalso. apply Hk. rewrite Hsnap, keyed_names by exact Hkeyed.
    apply list_elem_of_fmap. exists (key, o). split; [reflexivity|].
    now apply elem_of_map_to_list.
Qed.

(** X19.  On the containerd driver a second tick of the service
    controller, from a snapshot of the services that the first tick
    left, changes nothing. *)
Theorem second_service_tick_changes_nothing (snapshot snapshot' : list api.Service)
    (s : Server containerd.Client) :
  keyed_by_name (services s) ->
  snapshot_of (services s) snapshot ->
  snapshot_of (services (reconcileServices snapshot s)) snapshot' ->
  reconcileServices snapshot' (reconcileServices snapshot s) = reconcileServices snapshot s.
Proof.
  intros Hkeyed Hsnap Hsnap'.
  rewrite (service_tick_closed_form snapshot s Hkeyed Hsnap) in Hsnap' |- *.
  rewrite service_tick_closed_form; [| |exact Hsnap'].
  - cbn [services rt with_services]. unfold with_services. cbn. f_equal.
    rewrite <- map_fmap_compose. apply map_fmap_ext. intros key svc _. cbn.
    apply status_rule_twice.
  - cbn [services with_services]. intros key svc Hl.
    rewrite lookup_fmap in Hl.
    destruct (services s !! key) as [o|] eqn:Ho; [|discriminate].
    cbn in Hl. injection Hl as <-. rewrite status_rule_name. exact (Hkeyed _ _ Ho).
Qed.

(** ** Limits and labels *)

(** ** Limits, printed and parsed *)

Lemma drop_app_length_str (p t : string) : gostrings.drop (String.length p) (p +:+ t) = t.
Proof. induction p as [|c p IH]; [now destruct t|]. rewrite app_cons_str. exact IH. Qed.

Lemma HasSuffix_app (p t t' : string) :
  String.length t = String.length t' ->
  gostrings.HasSuffix (p +:+ t) t' = String.eqb t t'.
Proof.
  intros Hlen. unfold gostrings.HasSuffix. rewrite length_app_str, <- Hlen.
  replace (String.length p + String.length t - String.length t)%nat
    with (String.length p) by lia.
  rewrite drop_app_length_str.
  replace (String.length t <=? String.length p + String.length t)%nat with true
    by (symmetry; apply Nat.leb_le; lia).
  reflexivity.
Qed.

Lemma take_app_suffix (p t : string) :
  gostrings.take (String.length (p +:+ t) - String.length t) (p +:+ t) = p.
Proof.
  rewrite length_app_str.
  replace (String.length p + String.length t - String.length t)%nat
    with (String.length p) by lia.
  apply take_app_length.
Qed.

Lemma digits_stop (s t : string) (c : ascii) (n : Z) :
  strconv.digit c = None -> (strconv.digits n (s +:+ String c t)).2 <> None.
Proof.
  intros Hc. revert n. induction s as [|a s IH]; intros n.
  - change ("" +:+ String c t) with (String c t). cbn [strconv.digits]. now rewrite Hc.
  - rewrite app_cons_str. cbn [strconv.digits].
    destruct (strconv.digit a); [|discriminate].
    destruct (_ <=? n); [discriminate|]. destruct (_ <? _); [discriminate|]. apply IH.
Qed.

Lemma ParseInt_stop (s t : string) (c : ascii) :
  strconv.digit c = None -> Ascii.eqb c "+" = false -> Ascii.eqb c "-" = false ->
  (strconv.ParseInt (s +:+ String c t)).2 <> None.
Proof.
  intros Hc Hplus Hminus.
  assert (forall s1, (strconv.ParseUint (s1 +:+ String c t)).2 <> None) as HU.
  { intros s1. unfold strconv.ParseUint.
    pose proof (digits_stop s1 t c 0 Hc) as Hd.
    destruct (s1 +:+ String c t) eqn:He; [discriminate|exact Hd]. }
  assert (forall (neg : bool) s1,
             (let '(un, err) := strconv.ParseUint (s1 +:+ String c t) in
              match err with
              | Some strconv.ErrSyntax => (0, Some strconv.ErrSyntax)
              | _ =>
                  if negb neg && (2 ^ 63 <=? un) then (2 ^ 63 - 1, Some strconv.ErrRange)
                  else if neg && (2 ^ 63 <? un) then (- 2 ^ 63, Some strconv.ErrRange)
                  else (if neg then - un else un, None)
              end).2 <> None) as Hrest.
  { intros neg s1. specialize (HU s1).
    destruct (strconv.ParseUint (s1 +:+ String c t)) as [un [[]|]] eqn:HP;
      [discriminate| |now cbn in HU].
    apply ParseUint_range in HP as [_ Hmax]. rewrite (Hmax eq_refl).
    destruct neg; discriminate. }
  destruct s as [|a s].
  - change ("" +:+ String c t) with (String c t). unfold strconv.ParseInt.
    rewrite Hplus, Hminus. apply (Hrest false "").
  - rewrite app_cons_str. unfold strconv.ParseInt.
    destruct (Ascii.eqb a "+") eqn:Ha; [|destruct (Ascii.eqb a "-") eqn:Hb].
    + apply Ascii.eqb_eq in Ha. subst a. cbn [Ascii.eqb Bool.eqb]. apply (Hrest false s).
    + apply (Hrest true s).
    + rewrite <- app_cons_str. apply (Hrest false (String a s)).
Qed.

(** A printed integer ends in no unit. *)
Lemma pretty_has_no_unit (n : Z) (c : ascii) :
  in_int64 n ->
  strconv.digit c = None -> Ascii.eqb c "+" = false -> Ascii.eqb c "-" = false ->
  gostrings.HasSuffix (pretty n) (String c "i") = false.
Proof.
  intros Hn Hc Hplus Hminus.
  destruct (gostrings.HasSuffix (pretty n) (String c "i")) eqn:Hs; [|reflexivity].
  apply HasSuffix_split in Hs.
  pose proof (ParseInt_pretty n Hn) as HP. rewrite Hs in HP.
  pose proof (ParseInt_stop (gostrings.take (String.length (pretty n) - 2) (pretty n))
                "i" c Hc Hplus Hminus) as Hstop.
  cbn [String.length] in HP. rewrite HP in Hstop. now cbn in Hstop.
Qed.

Lemma unit_suffix_printed (n : Z) (suffix : string) :
  in_int64 n -> suffix ∈ unit_suffixes -> unit_suffix (pretty n +:+ suffix) = suffix.
Proof.
  intros Hn Hin. unfold unit_suffixes in Hin.
  repeat (apply elem_of_cons in Hin as [->|Hin]); [| | | |now apply elem_of_nil in Hin].
  - rewrite app_empty_r_str. unfold unit_suffix.
    now rewrite !pretty_has_no_unit by (exact Hn || reflexivity).
  - unfold unit_suffix. now rewrite HasSuffix_app.
  - unfold unit_suffix. now rewrite !HasSuffix_app.
  - unfold unit_suffix. now rewrite !HasSuffix_app.
Qed.

(** X20.  Every signed 64-bit integer, printed in decimal and
    followed by no suffix or by Ki, Mi or Gi, is accepted by
    [parseMemoryLimit] of both drivers; the value is the integer times
    the suffix's multiplier, in 64-bit two's complement. *)
Theorem printed_memory_limit_is_accepted (n : Z) (suffix : string) :
  in_int64 n ->
  suffix ∈ unit_suffixes ->
  docker.parseMemoryLimit (pretty n +:+ suffix) = Ok (wrap64 (n * unit_multiplier suffix)) /\
  containerd.parseMemoryLimit (pretty n +:+ suffix)
  = Ok (wrap64 (n * unit_multiplier suffix)).
Proof.
  intros Hn Hin.
  assert (docker.parseMemoryLimit (pretty n +:+ suffix)
          = Ok (wrap64 (n * unit_multiplier suffix))) as Hd.
  { rewrite parseMemoryLimit_unfold, unit_suffix_printed by assumption.
    now rewrite take_app_suffix, ParseInt_pretty by exact Hn. }
  split; exact Hd.
Qed.

Section cpu_limits.
Context {F : Type} (ParseFloat ParseFloat' : string -> result F) (scaled scaled' : F -> Z -> Z).

(** X21.  For a CPU limit that ends in [m], whatever the
    floating-point branch does: the docker driver's [parseCPULimit]
    returns the containerd driver's value times 1000000, as an
    [int64] product, and fails when that one fails; the containerd
    value is the signed 64-bit integer that stands before the [m]; and
    every such integer, printed in decimal and followed by [m], is
    accepted. *)
Theorem millicore_limits (cpuLimit : string) :
  gostrings.HasSuffix cpuLimit "m" = true ->
  docker.parseCPULimit ParseFloat scaled cpuLimit
  = match containerd.parseCPULimit ParseFloat' scaled' cpuLimit with
    | Ok milliCPU => Ok (wrap64 (milliCPU * 1000000))
    | Err e => Err e
    end /\
  (forall milliCPU,
     containerd.parseCPULimit ParseFloat' scaled' cpuLimit = Ok milliCPU ->
     in_int64 milliCPU /\
     cpuLimit = gostrings.take (String.length cpuLimit - 1) cpuLimit +:+ "m" /\
     strconv.ParseInt (gostrings.take (String.length cpuLimit - 1) cpuLimit)
     = (milliCPU, None)) /\
  (forall n, in_int64 n ->
             containerd.parseCPULimit ParseFloat' scaled' (pretty n +:+ "m") = Ok n).
Proof.
  intros Hm. unfold docker.parseCPULimit, containerd.parseCPULimit. rewrite Hm.
  split; [|split].
  - now destruct (strconv.ParseInt _) as [milliCPU [[]|]].
  - intros milliCPU.
    destruct (strconv.ParseInt _) as [v [[]|]] eqn:HP; try discriminate.
    intros [= <-]. split; [now apply ParseInt_range in HP|].
    split; [now apply HasSuffix_split in Hm|reflexivity].
  - intros n Hn. rewrite HasSuffix_app by reflexivity. cbn [String.eqb Ascii.eqb Bool.eqb].
    change 1%nat with (String.length "m").
    now rewrite take_app_suffix, ParseInt_pretty.
Qed.
End cpu_limits.

(** ** Labels *)

(** X22.  The labels the docker driver gives a container are the
    configured default labels, which win over the two pod labels on a
    key they share, and the pod labels on every other key.  With the
    default labels that [initConfig] sets they are the labels the
    containerd driver gives. *)
Theorem drivers_label_alike (config : RuntimeConfig) (spec : api.Container)
    (podName : string) :
  (forall key value,
     DefaultLabels config !! key = Some value ->
     docker.container_labels config spec podName !! key = Some value) /\
  (forall key,
     DefaultLabels config !! key = None ->
     docker.container_labels config spec podName !! key
     = ({[ "synthesis.pod" := podName; "synthesis.container" := api.Container_Name spec ]}
          : gmap string string) !! key) /\
  (DefaultLabels config = {[ "managed-by" := "synthesis" ]} ->
   docker.container_labels config spec podName
   = containerd.container_labels spec podName).
Proof.
  unfold docker.container_labels, containerd.container_labels. split; [|split].
  - intros key value Hk. now apply lookup_union_Some_l.
  - intros key Hk. now apply lookup_union_r.
  - intros ->. apply map_eq. intros key.
    rewrite lookup_union, !lookup_insert, !lookup_singleton.
    repeat case_decide; subst; try discriminate; reflexivity.
Qed.

(** ** The further properties at work *)

(** X1 on the pod [web], stored in the mixed data directory. *)
Lemma stored_object_reads_back_witness :
  GetPod "web" (StorePod (pod "web") fs_mixed_ready).2 = Ok (pod "web") /\
  "web" ∈ listed (StorePod (pod "web") fs_mixed_ready).2 "pods".
Proof.
  destruct (stored_object_reads_back "pods" "web" (pod "web") fs_mixed_ready
              (StorePod (pod "web") fs_mixed_ready).2) as [Hget Hlist].
  - vm_compute. reflexivity.
  - intros data Hm. vm_compute in Hm. injection Hm as <-. reflexivity.
  - reflexivity.
  - split; [exact Hget|]. apply (Hlist (listed (StorePod (pod "web") fs_mixed_ready).2 "pods")).
    vm_compute. reflexivity.
Defined.

(** X2: storing the deployment [bad] leaves the pod file [bad] as it reads. *)
Lemma store_keeps_other_objects_witness :
  GetPod "bad" (StoreDeployment (deployment None "bad") fs_mixed_ready).2
  = GetPod "bad" fs_mixed_ready.
Proof.
  apply (store_keeps_other_objects "deployments" "bad" (deployment None "bad") fs_mixed_ready
           "pods" "bad"); [reflexivity|reflexivity|discriminate].
Defined.

(** X5 on the mixed data directory. *)
Lemma NewFileStorage_prepares_witness :
  NewFileStorage fs_mixed_ready = Ok fs_mixed_ready /\
  lookup_dir fs_mixed_ready "pods" = lookup_dir fs_mixed "pods".
Proof.
  destruct (NewFileStorage_prepares fs_mixed fs_mixed_ready) as (_ & Hkeep & Hagain).
  - vm_compute. reflexivity.
  - split; [exact Hagain|]. apply Hkeep. vm_compute. reflexivity.
Defined.

(** X6 on the server started over the mixed data directory, after a
    [POST /pods] of the pod [api]. *)
Lemma resources_are_stored_under_their_names_witness :
  pods (createPodHandler 0 (request "" "api") started).2 !! "web" = Some (pod "web") /\
  well_keyed (createPodHandler 0 (request "" "api") started).2.
Proof.
  split; [vm_compute; reflexivity|].
  apply (resources_are_stored_under_their_names before_slash).
  apply (reachable_step before_slash started).
  - apply (reachable_start before_slash cfg (daemon []) fs_mixed). vm_compute. reflexivity.
  - apply (step_request before_slash POST_pods 0 (request "" "api") started).
Defined.

(** X7: the pod [web] of the started server, deleted and read again. *)
Lemma deleted_resource_is_not_found_witness :
  pods started !! "web" = Some (pod "web") /\
  StatusCode (getPodHandler 1 (request "web" "")
                (deletePodHandler 0 (request "web" "") started).2).1 = 404.
Proof.
  split; [vm_compute; reflexivity|].
  apply (deleted_resource_is_not_found before_slash DELETE_pod GET_pod 0 1
           (request "web" "") (request "web" "") started); reflexivity.
Defined.

(** X9: the deployment [web] scaled from 1 to 5 replicas over a
    storage that cannot be written. *)
Lemma scale_is_not_persisted_witness :
  (getDeploymentHandler 0 (request "web" "5")
     (scaleDeploymentHandler 0 (request "web" "5") serving_deployment).2).1
  = {| StatusCode := 200; Sent := DeploymentJSON (deployment (Some 5) "web") |} /\
  store (scaleDeploymentHandler 0 (request "web" "5") serving_deployment).2 = dead_fs.
Proof.
  destruct (scale_is_not_persisted before_slash 0 (request "web" "5") serving_deployment)
    as (Hstore & _ & Hget & _).
  split; [|exact Hstore].
  specialize (Hget {| Scale_Replicas := 5 |} (deployment (Some 1) "web") eq_refl eq_refl).
  apply (f_equal fst) in Hget. exact Hget.
Defined.

(** X10: the pod [web], posted again to the restarted server. *)
Lemma reapplying_a_stored_resource_changes_nothing_witness :
  same_memory
    (createPodHandler (Codec0 := stamped_pod_codec) 9 (request "" "web") restarted).2
    restarted.
Proof.
  destruct (reapplying_a_stored_resource_changes_nothing (pods_as := stamped_pod_codec)
              before_slash 0 9 (request "" "web") restarted) as [Hpods _].
  apply (Hpods (pod "web")); vm_compute; reflexivity.
Defined.

(** X11: the pod [web], posted at time 7, in the server started over
    the data directory that the request left. *)
Lemma accepted_resource_survives_restart_witness :
  pods restarted !! "web" = Some (stamped_pod "web").
Proof.
  destruct (accepted_resource_survives_restart (pods_as := stamped_pod_codec) before_slash
              7 (request "" "web") (blank (daemon []) fs_ready) cfg (daemon []))
    as [Hpods _].
  apply (Hpods (stamped_pod "web") restarted).
  - vm_compute. reflexivity.
  - vm_compute. reflexivity.
  - intros data Hm. vm_compute in Hm. injection Hm as <-. vm_compute. reflexivity.
  - reflexivity.
  - intros file o Hget. unfold getObject, ReadFile in Hget. cbn in Hget. discriminate Hget.
  - vm_compute. reflexivity.
Defined.

(** X23: a [POST /pods] of the pod [api] leaves the pod [web] as it
    is. *)
Lemma requests_touch_one_name_witness :
  pods (createPodHandler 0 (request "" "api") started).2 !! "web" = pods started !! "web".
Proof.
  apply (requests_touch_one_name before_slash POST_pods 0 (request "" "api") started "web").
  - discriminate.
  - vm_compute. discriminate.
Defined.

(** X24 on a manifest of kind Pod. *)
Lemma generic_routes_are_the_typed_routes_witness :
  (createGenericWorkloadHandler before_slash 0 (request "" "Pod/web")
     (blank (daemon []) fs_ready)).2
  = (createPodHandler 0 (request "" "Pod/web") (blank (daemon []) fs_ready)).2.
Proof.
  destruct (generic_routes_are_the_typed_routes before_slash 0 (request "" "Pod/web")
              (blank (daemon []) fs_ready) "Pod/web" "Pod")
    as [Hpod _]; [vm_compute; reflexivity..|].
  destruct (Hpod eq_refl) as [[Hsame _] _]. exact Hsame.
Defined.

(** X25 on the started server after a tick of the node reporter. *)
Lemma only_the_local_node_witness :
  exists now info,
    nodes (updateNodeStatus 5 started) !! "local-node" = Some (local_node now info).
Proof.
  destruct (nodes (updateNodeStatus 5 started) !! "local-node") as [node|] eqn:Hk;
    [|vm_compute in Hk; discriminate Hk].
  destruct (only_the_local_node before_slash (updateNodeStatus 5 started)) with
    (key := "local-node") (node := node) as (_ & now & info & ->); [|exact Hk|eauto].
  apply (reachable_step before_slash started).
  - apply (reachable_start before_slash cfg (daemon []) fs_mixed). vm_compute. reflexivity.
  - apply (step_node before_slash 5 started).
Defined.

(** X13 over a daemon that cannot be reached: both reconciliations
    fail, and both are made. *)
Lemma every_workload_is_reconciled_witness :
  listed_filters
    (calls (rt (reconcileWorkloads [deployment None "web"] [statefulset None "database"]
                  (blank (Build_Recorded unreachable_daemon []) dead_fs)).2))
  = [deployment_filter (deployment None "web");
     statefulset_filter (statefulset None "database")].
Proof.
  destruct (every_workload_is_reconciled [deployment None "web"]
              [statefulset None "database"]
              (blank (Build_Recorded unreachable_daemon []) dead_fs) eq_refl)
    as (rest & Hall & Hret).
  rewrite (Hret eq_refl), app_nil_r in Hall. symmetry. exact Hall.
Defined.

(** X14 on the stateful set [database] with its three replicas. *)
Lemma steady_state_makes_no_call_witness :
  reconcileStatefulSet (statefulset (Some 3) "database") (Build_Recorded database_three [])
  = (Returned None,
     Build_Recorded database_three
       [CallList (statefulset_filter (statefulset (Some 3) "database"))]).
Proof.
  destruct (steady_state_makes_no_call (deployment None "web")
              (statefulset (Some 3) "database") database_three database_three)
    as (_ & _ & Hsteady & _).
  apply (Hsteady database_listing).
  - vm_compute. reflexivity.
  - reflexivity.
  - cbn. unfold int32_max. lia.
Defined.

(** X15 on the deployment [frontend] over a daemon without
    containers. *)
Lemma scale_up_only_brings_up_witness :
  exists log,
    calls (reconcileDeployment (deployment (Some 1) "frontend")
             (Build_Recorded (daemon []) [])).2
    = CallList (deployment_filter (deployment (Some 1) "frontend")) :: log /\
    bring_up_calls log /\ stopped_ids log = [].
Proof.
  destruct (scale_up_only_brings_up (deployment (Some 1) "frontend") (statefulset None "x")
              (daemon []) (daemon []) []) as [Hup _].
  - cbn. unfold int32_max. lia.
  - destruct Hup as (log & Hlog & Hshape & Hstop & _).
    + vm_compute. reflexivity.
    + cbn. lia.
    + exists log. auto.
Defined.


(** X17 on the three containers of [database]. *)
Lemma containerd_lists_the_matching_entries_witness :
  ListContainers (label_filter {[ "synthesis.statefulset" := "database" ]}) database_three
  = (Ok database_listing, database_three).
Proof.
  rewrite (containerd_lists_the_matching_entries
             (label_filter {[ "synthesis.statefulset" := "database" ]}) database_three).
  - vm_compute. reflexivity.
  - apply (bool_decide_unpack _). vm_compute. exact I.
Defined.

(** X18 on the workload [web]: the id [web-0-nginx] has 11
    characters. *)
Lemma short_container_id_panics_witness :
  (createPodFromTemplate "web" template 0 (daemon [])).1
  = Panicked "slice bounds out of range".
Proof.
  edestruct (short_container_id_panics "web" template 0 nginx [] (daemon [])) as [_ Hrun].
  - reflexivity.
  - vm_compute. reflexivity.
  - vm_compute. reflexivity.
  - vm_compute. lia.
  - rewrite Hrun. reflexivity.
Defined.

(** X19 on the NodePort service [web-svc]. *)
Lemma second_service_tick_changes_nothing_witness :
  reconcileServices
    [status_rule true (web_svc api.ServiceTypeNodePort)]
    (reconcileServices [web_svc api.ServiceTypeNodePort]
       (serving_web api.ServiceTypeNodePort))
  = reconcileServices [web_svc api.ServiceTypeNodePort] (serving_web api.ServiceTypeNodePort).
Proof.
  apply (second_service_tick_changes_nothing [web_svc api.ServiceTypeNodePort]
           [status_rule true (web_svc api.ServiceTypeNodePort)]
           (serving_web api.ServiceTypeNodePort)).
  - intros key o H. cbn in H. apply lookup_singleton_Some in H as [<- <-]. reflexivity.
  - unfold snapshot_of. cbn. rewrite map_to_list_singleton. reflexivity.
  - unfold snapshot_of.
    replace (services (reconcileServices [web_svc api.ServiceTypeNodePort]
                         (serving_web api.ServiceTypeNodePort)))
      with ({[ "web-svc" := status_rule true (web_svc api.ServiceTypeNodePort) ]}
             : gmap string api.Service) by (vm_compute; reflexivity).
    rewrite map_to_list_singleton. reflexivity.
Defined.

(** X20 at the limits [512Mi] and [-3Ki]. *)
Lemma printed_memory_limit_is_accepted_witness :
  docker.parseMemoryLimit "512Mi" = Ok 536870912 /\
  containerd.parseMemoryLimit "-3Ki" = Ok (-3072).
Proof.
  split.
  - apply (printed_memory_limit_is_accepted 512 "Mi").
    + unfold in_int64, int64_min, int64_max. lia.
    + unfold unit_suffixes. set_solver.
  - apply (printed_memory_limit_is_accepted (-3) "Ki").
    + unfold in_int64, int64_min, int64_max. lia.
    + unfold unit_suffixes. set_solver.
Defined.

(** X21 at the limit [500m]. *)
Lemma millicore_limits_witness :
  containerd.parseCPULimit no_float (fun _ _ => 0) "500m" = Ok 500 /\
  docker.parseCPULimit no_float (fun _ _ => 0) "500m" = Ok 500000000.
Proof.
  destruct (millicore_limits no_float no_float (fun _ _ => 0) (fun _ _ => 0) "500m" eq_refl)
    as (Hdocker & _ & Hprinted).
  split.
  - apply (Hprinted 500). unfold in_int64, int64_min, int64_max. lia.
  - rewrite Hdocker. vm_compute. reflexivity.
Defined.

(** X22 with the configuration of [initConfig]. *)
Lemma drivers_label_alike_witness :
  docker.container_labels (Runtime cfg) nginx "web-0" = containerd.container_labels nginx "web-0".
Proof.
  destruct (drivers_label_alike (Runtime cfg) nginx "web-0") as (_ & _ & Hsame).
  apply Hsame. reflexivity.
Defined.
